(** * excel-template-engine: a shallow embedding of [src/index.ts]

    The engine fills a spreadsheet template from a data object.  This file
    embeds the template-resolution core in Rocq and proves properties of it.

    Conventions of the embedding.
    - A JavaScript string is a [string]; each character is one code unit
      below 256.
    - A JavaScript number that carries data is an IEEE-754 binary64 value,
      modelled with the Standard Library's [spec_float] (precision 53,
      [emax] 1024).  Row and column indices, which the source only ever
      adds, compares and divides as integers, are modelled as [Z]; the
      integer arithmetic of the source is exact on them below 2^53.
    - An exception is an explicit [Throw] result; a function that cannot
      throw on the modelled values returns its value directly.
    - lodash and ExcelJS are libraries the engine calls; their operations
      are modelled in [Lodash] and in the worksheet section from their
      documented behaviour. *)

From Stdlib Require Import ZArith String Ascii List Lia Bool.
From Stdlib Require Import Floats.SpecFloat.
From stdpp Require Import base option list gmap strings.
Import ListNotations.
Local Open Scope string_scope.
Local Open Scope Z_scope.
Local Set Warnings "-register-all".

(* ================================================================== *)
(** * JavaScript values                                                 *)
(* ================================================================== *)

(** IEEE-754 binary64. *)
Definition JsNumber : Type := spec_float.

Definition num_of_Z (z : Z) : JsNumber := binary_normalize 53 1024 z 0 false.
Definition num_add (x y : JsNumber) : JsNumber := SFadd 53 1024 x y.
Definition num_div (x y : JsNumber) : JsNumber := SFdiv 53 1024 x y.
Definition num_lt (x y : JsNumber) : bool := SFltb x y.
Definition NaN : JsNumber := S754_nan.

(** The global [isNaN] on a number. *)
Definition isNaN (x : JsNumber) : bool :=
  match x with S754_nan => true | _ => false end.

(** The values a data object is built from.  An object is its list of
    own enumerable properties (keys pairwise distinct); a [Date] is its
    time value. *)
Inductive JsValue : Type :=
  | VUndefined
  | VNull
  | VBool (b : bool)
  | VNum (n : JsNumber)
  | VStr (s : string)
  | VBigInt (z : Z)
  | VDate (t : JsNumber)
  | VArr (elems : list JsValue)
  | VObj (fields : list (string * JsValue)).

(** A thrown exception, with its message. *)
Inductive JsError : Type :=
  | TypeError (msg : string).

Inductive Result (A : Type) : Type :=
  | Ok (a : A)
  | Throw (e : JsError).
Arguments Ok {A} a.
Arguments Throw {A} e.

Definition bind {A B : Type} (r : Result A) (k : A -> Result B) : Result B :=
  match r with
  | Ok a => k a
  | Throw e => Throw e
  end.

(** [x <- r; k] runs [k] on the value of [r] and passes an exception on. *)
Notation "x <- r ; k" := (bind r (fun x => k))
  (at level 20, r at level 100, k at level 200, only parsing).
Notation "' p <- r ; k" := (bind r (fun x => let 'p := x in k))
  (at level 20, p pattern, r at level 100, k at level 200, only parsing).

(** A loop with an accumulator, stopped by the first exception. *)
Fixpoint foldM {A S : Type} (f : S -> A -> Result S) (l : list A) (s : S) : Result S :=
  match l with
  | [] => Ok s
  | a :: l' => s' <- f s a; foldM f l' s'
  end.

(** A loop that builds a list, stopped by the first exception. *)
Fixpoint mapM {A B : Type} (f : A -> Result B) (l : list A) : Result (list B) :=
  match l with
  | [] => Ok []
  | a :: l' => b <- f a; bs <- mapM f l'; Ok (b :: bs)
  end.

Module Js.

Definition isUndefined (v : JsValue) : bool :=
  match v with VUndefined => true | _ => false end.

(** [v == null], lodash's [_.isNil]. *)
Definition isNil (v : JsValue) : bool :=
  match v with VUndefined | VNull => true | _ => false end.

Definition isString (v : JsValue) : bool :=
  match v with VStr _ => true | _ => false end.

Definition isNumber (v : JsValue) : bool :=
  match v with VNum _ => true | _ => false end.

Definition isBoolean (v : JsValue) : bool :=
  match v with VBool _ => true | _ => false end.

Definition isDate (v : JsValue) : bool :=
  match v with VDate _ => true | _ => false end.

Definition isArray (v : JsValue) : bool :=
  match v with VArr _ => true | _ => false end.

(** [_.isObject]: arrays, dates and plain objects. *)
Definition isObject (v : JsValue) : bool :=
  match v with VArr _ | VObj _ | VDate _ => true | _ => false end.

(** [a ?? b]. *)
Definition coalesce (a b : JsValue) : JsValue :=
  if isNil a then b else a.

(** ToBoolean. *)
Definition truthy (v : JsValue) : bool :=
  match v with
  | VUndefined | VNull => false
  | VBool b => b
  | VNum (S754_zero _) | VNum S754_nan => false
  | VNum _ => true
  | VStr s => negb (String.eqb s "")
  | VBigInt z => negb (z =? 0)
  | VDate _ | VArr _ | VObj _ => true
  end.

(** Truthiness of a string. *)
Definition nonEmpty (s : string) : bool := negb (String.eqb s "").

(** Truthiness of an optional string ([string | undefined]). *)
Definition truthyStr (o : option string) : bool :=
  match o with Some s => nonEmpty s | None => false end.

Definition is_digit (c : ascii) : bool :=
  let n := nat_of_ascii c in ((48 <=? n) && (n <=? 57))%nat.

Definition digit_val (c : ascii) : Z := Z.of_nat (nat_of_ascii c) - 48.

Fixpoint all_chars (p : ascii -> bool) (s : string) : bool :=
  match s with
  | EmptyString => true
  | String c s' => p c && all_chars p s'
  end.

(** Value of a string of decimal digits, most significant first. *)
Fixpoint digits_val (acc : Z) (s : string) : Z :=
  match s with
  | EmptyString => acc
  | String c s' => digits_val (10 * acc + digit_val c) s'
  end.

(** [k] is a canonical array index: ["0"], or digits without a leading
    zero. *)
Definition arrayIndex (k : string) : option nat :=
  match k with
  | EmptyString => None
  | String c rest =>
      if all_chars is_digit k
      then if Ascii.eqb c "0" && nonEmpty rest then None
           else Some (Z.to_nat (digits_val 0 k))
      else None
  end.

Fixpoint assoc (k : string) (fields : list (string * JsValue)) : option JsValue :=
  match fields with
  | [] => None
  | (k', v) :: rest => if String.eqb k k' then Some v else assoc k rest
  end.

Fixpoint str_nth (i : nat) (s : string) : option ascii :=
  match s, i with
  | EmptyString, _ => None
  | String c _, O => Some c
  | String _ s', S i' => str_nth i' s'
  end.

(** Property read [object[key]] on a non-nullish value.  Own
    properties only: members inherited from a prototype are outside
    the model. *)
Definition getProp (object : JsValue) (key : string) : JsValue :=
  match object with
  | VObj fields =>
      match assoc key fields with Some v => v | None => VUndefined end
  | VArr elems =>
      if String.eqb key "length" then VNum (num_of_Z (Z.of_nat (List.length elems)))
      else match arrayIndex key with
           | Some i => nth i elems VUndefined
           | None => VUndefined
           end
  | VStr s =>
      if String.eqb key "length" then VNum (num_of_Z (Z.of_nat (String.length s)))
      else match arrayIndex key with
           | Some i => match str_nth i s with
                       | Some c => VStr (String c EmptyString)
                       | None => VUndefined
                       end
           | None => VUndefined
           end
  | _ => VUndefined
  end.

(** [key in Object(object)], own properties only. *)
Definition hasProp (object : JsValue) (key : string) : bool :=
  match object with
  | VObj fields => match assoc key fields with Some _ => true | None => false end
  | VArr elems =>
      String.eqb key "length" ||
      match arrayIndex key with
      | Some i => (i <? List.length elems)%nat
      | None => false
      end
  | VStr s =>
      String.eqb key "length" ||
      match arrayIndex key with
      | Some i => (i <? String.length s)%nat
      | None => false
      end
  | _ => false
  end.

End Js.

(* ================================================================== *)
(** * lodash                                                            *)
(* ================================================================== *)

Module Lodash.

(** Split at every dot: ["a.b"] gives [["a"; "b"]], [""] gives [[""]]. *)
Fixpoint splitDots (cur : string) (s : string) : list string :=
  match s with
  | EmptyString => [cur]
  | String c s' =>
      if Ascii.eqb c "."
      then cur :: splitDots "" s'
      else splitDots (cur ++ String c EmptyString) s'
  end.

(** [castPath(path, object)]: a path that is itself a property of the
    object is one key; any other path is cut at its dots.  lodash also
    reads bracket notation ([a[0].b]); paths with brackets are outside
    the model. *)
Definition castPath (path : string) (object : JsValue) : list string :=
  if Js.hasProp object path then [path] else splitDots "" path.

(** [baseGet]: follow the keys while the current value is not nullish;
    stopping early gives [undefined]. *)
Fixpoint baseGet (object : JsValue) (keys : list string) : JsValue :=
  match keys with
  | [] => object
  | k :: rest =>
      if Js.isNil object then VUndefined
      else baseGet (Js.getProp object k) rest
  end.

(** [_.get(object, path)]. *)
Definition get (object : JsValue) (path : string) : JsValue :=
  if Js.isNil object then VUndefined
  else baseGet object (castPath path object).

(** [_.isEmpty] on an array. *)
Definition isEmptyArr (l : list JsValue) : bool :=
  match l with [] => true | _ => false end.

(** [_.sum]: the elements added left to right, starting from the
    first; [0] for an empty array. *)
Definition sum (values : list JsNumber) : JsNumber :=
  match values with
  | [] => num_of_Z 0
  | x :: xs => fold_left num_add xs x
  end.

(** [_.mean]: the sum divided by the length; [NaN] for an empty array. *)
Definition mean (values : list JsNumber) : JsNumber :=
  match values with
  | [] => NaN
  | x :: xs => num_div (fold_left num_add xs x) (num_of_Z (Z.of_nat (List.length values)))
  end.

(** [_.min] and [_.max]: the first element that is not [NaN], replaced
    by each later element that compares strictly below (above) it;
    [undefined] when there is none. *)
Definition min (values : list JsNumber) : option JsNumber :=
  fold_left
    (fun computed current =>
       match computed with
       | None => if isNaN current then None else Some current
       | Some c => if num_lt current c then Some current else computed
       end)
    values None.

Definition max (values : list JsNumber) : option JsNumber :=
  fold_left
    (fun computed current =>
       match computed with
       | None => if isNaN current then None else Some current
       | Some c => if num_lt c current then Some current else computed
       end)
    values None.

End Lodash.

(* ================================================================== *)
(** * 1. Path resolution and scope                                      *)
(* ================================================================== *)

(** [resolve(path, scopes)]: [_.reduce] over the scopes starting from
    [undefined], keeping the first result that is not [undefined]; the
    reduction is followed by [?? ""]. *)
Definition resolve (path : string) (scopes : list JsValue) : JsValue :=
  Js.coalesce
    (fold_left
       (fun result scope =>
          if negb (Js.isUndefined result) then result
          else Lodash.get scope path)
       scopes VUndefined)
    (VStr "").

(* ================================================================== *)
(** * 5. Column addresses                                               *)
(* ================================================================== *)

Module Str.

(** [String.prototype.toUpperCase], on the ASCII letters.  The source
    applies it only to text a letters-only pattern has matched. *)
Definition upper_char (c : ascii) : ascii :=
  let n := nat_of_ascii c in
  if ((97 <=? n) && (n <=? 122))%nat then ascii_of_nat (n - 32) else c.

Fixpoint toUpperCase (s : string) : string :=
  match s with
  | EmptyString => EmptyString
  | String c s' => String (upper_char c) (toUpperCase s')
  end.

(** [charCodeAt] of one character. *)
Definition charCode (c : ascii) : Z := Z.of_nat (nat_of_ascii c).

(** [String.fromCharCode]. *)
Definition fromCharCode (n : Z) : string :=
  String (ascii_of_nat (Z.to_nat n)) EmptyString.

(** White space and line terminators, the characters [trim] and the
    pattern [\s] remove: TAB, LF, VT, FF, CR, SP and NBSP. *)
Definition is_space (c : ascii) : bool :=
  let n := nat_of_ascii c in
  ((9 <=? n) && (n <=? 13) || (n =? 32) || (n =? 160))%nat.

Fixpoint trimStart (s : string) : string :=
  match s with
  | EmptyString => EmptyString
  | String c s' => if is_space c then trimStart s' else s
  end.

Fixpoint trimEnd (s : string) : string :=
  match s with
  | EmptyString => EmptyString
  | String c s' =>
      match trimEnd s' with
      | EmptyString => if is_space c then EmptyString else String c EmptyString
      | t => String c t
      end
  end.

(** [String.prototype.trim], also lodash's [_.trim] with one argument. *)
Definition trim (s : string) : string := trimEnd (trimStart s).

(** [s.includes(sub)]. *)
Fixpoint includes (s sub : string) : bool :=
  String.prefix sub s ||
  match s with
  | EmptyString => false
  | String _ s' => includes s' sub
  end.

(** [s.lastIndexOf(c)] for a one-character needle; [-1] when absent. *)
Fixpoint lastIndexOf_from (i : Z) (found : Z) (c : ascii) (s : string) : Z :=
  match s with
  | EmptyString => found
  | String d s' => lastIndexOf_from (i + 1) (if Ascii.eqb c d then i else found) c s'
  end.

Definition lastIndexOf (s : string) (c : ascii) : Z := lastIndexOf_from 0 (-1) c s.

(** [s.substring(a, b)] and [s.substring(a)] for [0 <= a <= b]. *)
Definition substring2 (s : string) (a b : Z) : string :=
  String.substring (Z.to_nat a) (Z.to_nat (b - a)) s.

Definition substring1 (s : string) (a : Z) : string :=
  String.substring (Z.to_nat a) (String.length s - Z.to_nat a) s.

(** Decimal text of an integer, as template literals print a row
    number. *)
Fixpoint pos_digits (fuel : nat) (n : Z) (acc : string) : string :=
  match fuel with
  | O => acc
  | S fuel' =>
      let acc' := String (ascii_of_nat (Z.to_nat (48 + n mod 10))) acc in
      if n <? 10 then acc' else pos_digits fuel' (n / 10) acc'
  end.

Definition ofZ (n : Z) : string :=
  if n <? 0 then "-" ++ pos_digits (Z.to_nat (Z.log2 (- n)) + 1) (- n) ""
  else pos_digits (Z.to_nat (Z.log2 n) + 1) n "".

(** [s.split(c)] for a one-character separator. *)
Fixpoint split_from (cur : string) (sep : ascii) (s : string) : list string :=
  match s with
  | EmptyString => [cur]
  | String c s' =>
      if Ascii.eqb c sep
      then cur :: split_from "" sep s'
      else split_from (cur ++ String c EmptyString) sep s'
  end.

Definition split (sep : ascii) (s : string) : list string := split_from "" sep s.

Fixpoint concat (l : list string) : string :=
  match l with
  | [] => ""
  | s :: l' => s ++ concat l'
  end.

(** [Array.prototype.join] on strings. *)
Fixpoint join (sep : string) (l : list string) : string :=
  match l with
  | [] => ""
  | [s] => s
  | s :: l' => s ++ sep ++ join sep l'
  end.

End Str.

(** The [for] loop of [columnLetterToNumber] over the characters. *)
Fixpoint columnLetterToNumber_loop (upperLetter : string) (num : Z) : Z :=
  match upperLetter with
  | EmptyString => num
  | String c rest => columnLetterToNumber_loop rest (num * 26 + (Str.charCode c - 64))
  end.

(** [columnLetterToNumber(letter)]. *)
Definition columnLetterToNumber (letter : string) : Z :=
  let upperLetter := Str.toUpperCase letter in
  columnLetterToNumber_loop upperLetter 0.

(** The [while (num > 0)] loop of [columnNumberToLetter]; every turn
    makes [num] smaller, so [fuel] at least [num] is never used up. *)
Fixpoint columnNumberToLetter_loop (fuel : nat) (num : Z) (letter : string) : string :=
  match fuel with
  | O => letter
  | S fuel' =>
      if 0 <? num then
        let mod_ := Z.rem (num - 1) 26 in
        let letter' := Str.fromCharCode (65 + mod_) ++ letter in
        let num' := (num - mod_) / 26 in
        columnNumberToLetter_loop fuel' num' letter'
      else letter
  end.

(** [columnNumberToLetter(num)]. *)
Definition columnNumberToLetter (num : Z) : string :=
  columnNumberToLetter_loop (Z.to_nat num) num "".

(** An entry of [hideEntries] in [processWorkbook]. *)
Record HideEntry : Type := mkHideEntry {
  he_rows : list Z;
  insertedAt : Z;
  rowsInserted : Z
}.

Definition emptyHideEntry : HideEntry := mkHideEntry [] 0 0.

(** [calculateHideOffset(entryIndex, hideEntries)]: the loop runs over
    the indices [entryIndex + 1 .. length - 1]. *)
Definition calculateHideOffset (entryIndex : nat) (hideEntries : list HideEntry) : Z :=
  let currentEntry := nth entryIndex hideEntries emptyHideEntry in
  fold_left
    (fun offset laterEntry =>
       if (insertedAt laterEntry <? insertedAt currentEntry) && (0 <? rowsInserted laterEntry)
       then offset + rowsInserted laterEntry
       else offset)
    (drop (S entryIndex) hideEntries) 0.

(* ================================================================== *)
(** * Conversions between strings and numbers                           *)
(* ================================================================== *)

Module Num.

(** Longest prefix of [s] whose characters satisfy [p], and the rest. *)
Fixpoint span (p : ascii -> bool) (s : string) : string * string :=
  match s with
  | EmptyString => (EmptyString, EmptyString)
  | String c s' =>
      if p c then let '(a, b) := span p s' in (String c a, b)
      else (EmptyString, s)
  end.

(** The binary64 value nearest to [m * 10^e], ties to even, with sign
    [neg]; [m >= 0]. *)
Definition ofDecimal (neg : bool) (m : Z) (e : Z) : JsNumber :=
  if m =? 0 then S754_zero neg
  else if 0 <=? e then
    binary_normalize 53 1024 ((if neg then - m else m) * 10 ^ e) 0 false
  else
    let '(q, e', l) := SFdiv_core_binary 53 1024 m 0 (10 ^ (- e)) 0 in
    binary_round_aux 53 1024 neg q e' l.

Definition is_hex (c : ascii) : bool :=
  let n := nat_of_ascii c in
  ((48 <=? n) && (n <=? 57) || (65 <=? n) && (n <=? 70) || (97 <=? n) && (n <=? 102))%nat.

Definition hex_val (c : ascii) : Z :=
  let n := Z.of_nat (nat_of_ascii c) in
  if n <=? 57 then n - 48 else if n <=? 70 then n - 55 else n - 87.

Definition is_octal (c : ascii) : bool :=
  let n := nat_of_ascii c in ((48 <=? n) && (n <=? 55))%nat.

Definition is_binary (c : ascii) : bool :=
  let n := nat_of_ascii c in ((48 <=? n) && (n <=? 49))%nat.

Fixpoint radix_val (radix : Z) (acc : Z) (s : string) : Z :=
  match s with
  | EmptyString => acc
  | String c s' => radix_val radix (radix * acc + hex_val c) s'
  end.

Definition radixLiteral (ok : ascii -> bool) (radix : Z) (ds : string) : option JsNumber :=
  if Js.nonEmpty ds && Js.all_chars ok ds
  then Some (num_of_Z (radix_val radix 0 ds))
  else None.

Definition signOf (s : string) : bool * string :=
  match s with
  | String c u =>
      if Ascii.eqb c "+" then (false, u)
      else if Ascii.eqb c "-" then (true, u)
      else (false, s)
  | EmptyString => (false, s)
  end.

(** The exponent part after [e] or [E]: an optional sign and at least
    one digit. *)
Definition exponentPart (s : string) : option Z :=
  let '(eneg, ds) := signOf s in
  if Js.nonEmpty ds && Js.all_chars Js.is_digit ds
  then Some (if eneg then - Js.digits_val 0 ds else Js.digits_val 0 ds)
  else None.

(** StrDecimalLiteral: sign, then [Infinity] or digits with an
    optional fraction and exponent. *)
Definition decimalLiteral (t : string) : option JsNumber :=
  let '(neg, u) := signOf t in
  if String.eqb u "Infinity" then Some (S754_infinity neg)
  else
    let '(ip, r1) := span Js.is_digit u in
    let '(fp, r2) :=
      match r1 with
      | String c r => if Ascii.eqb c "." then span Js.is_digit r else (EmptyString, r1)
      | EmptyString => (EmptyString, r1)
      end in
    if String.eqb ip "" && String.eqb fp "" then None
    else
      let m := Js.digits_val 0 (ip ++ fp) in
      let scale := Z.of_nat (String.length fp) in
      match r2 with
      | EmptyString => Some (ofDecimal neg m (- scale))
      | String c r3 =>
          if Ascii.eqb c "e" || Ascii.eqb c "E" then
            match exponentPart r3 with
            | Some ex => Some (ofDecimal neg m (ex - scale))
            | None => None
            end
          else None
      end.

(** StrNumericLiteral of an already trimmed, non-empty string. *)
Definition numericLiteral (t : string) : option JsNumber :=
  match t with
  | String c0 (String c1 ds) =>
      if Ascii.eqb c0 "0" && (Ascii.eqb c1 "x" || Ascii.eqb c1 "X")
      then radixLiteral is_hex 16 ds
      else if Ascii.eqb c0 "0" && (Ascii.eqb c1 "o" || Ascii.eqb c1 "O")
      then radixLiteral is_octal 8 ds
      else if Ascii.eqb c0 "0" && (Ascii.eqb c1 "b" || Ascii.eqb c1 "B")
      then radixLiteral is_binary 2 ds
      else decimalLiteral t
  | _ => decimalLiteral t
  end.

(** [Number(s)] on a string: white space is trimmed, the empty string
    is [+0], anything that is not a numeric literal is [NaN]. *)
Definition ofString (s : string) : JsNumber :=
  let t := Str.trim s in
  if String.eqb t "" then S754_zero false
  else match numericLiteral t with
       | Some n => n
       | None => NaN
       end.

End Num.

(** What the engine takes from the JavaScript host and this file leaves
    open: the decimal text of a number ([Number::toString]), [Date.parse],
    [Date.prototype.toString] (both depend on the host's time zone) and
    the text [JSON.stringify] writes for a value it can serialise. *)
Class Host : Type := {
  numberToString : JsNumber -> string;
  dateParse : string -> JsNumber;
  dateToString : JsNumber -> string;
  jsonText : JsValue -> string
}.

Section Conversions.
Context `{Host}.

(** [String(v)]. An array prints its elements separated by commas,
    [null] and [undefined] elements as nothing. *)
Fixpoint toStr (v : JsValue) : string :=
  match v with
  | VUndefined => "undefined"
  | VNull => "null"
  | VBool true => "true"
  | VBool false => "false"
  | VNum n => numberToString n
  | VStr s => s
  | VBigInt z => Str.ofZ z
  | VDate t => dateToString t
  | VArr elems =>
      Str.join ","
        ((fix each (l : list JsValue) : list string :=
            match l with
            | [] => []
            | x :: l' => (if Js.isNil x then "" else toStr x) :: each l'
            end) elems)
  | VObj _ => "[object Object]"
  end.

(** Does serialising [v] reach a BigInt? *)
Fixpoint reachesBigInt (v : JsValue) : bool :=
  match v with
  | VBigInt _ => true
  | VArr elems =>
      (fix any (l : list JsValue) : bool :=
         match l with
         | [] => false
         | x :: l' => reachesBigInt x || any l'
         end) elems
  | VObj fields =>
      (fix any (l : list (string * JsValue)) : bool :=
         match l with
         | [] => false
         | (_, x) :: l' => reachesBigInt x || any l'
         end) fields
  | _ => false
  end.

(** [JSON.stringify(v)] for [v] neither [undefined] nor [null]: a
    TypeError when a BigInt is reached, the JSON text otherwise. *)
Definition JSON_stringify (v : JsValue) : Result string :=
  if reachesBigInt v
  then Throw (TypeError "Do not know how to serialize a BigInt")
  else Ok (jsonText v).

End Conversions.

(* ================================================================== *)
(** * Regular expressions                                               *)
(* ================================================================== *)

(** A backtracking matcher for the pattern language the source uses:
    characters and classes, sequence, alternation, greedy and lazy
    quantifiers, capture groups and the anchors [^] and [$] (no [m]
    flag).  It follows the matcher of the ECMAScript specification:
    alternatives are tried left to right, a greedy quantifier tries one
    more turn before it tries the rest, a lazy one the other way round. *)
Module Regex.

Inductive Re : Type :=
  | Chr (p : ascii -> bool)
  | Eps
  | Seq (a b : Re)
  | Alt (a b : Re)
  | Rep (greedy : bool) (lo : nat) (hi : option nat) (r : Re)
  | Group (i : nat) (r : Re)
  | Bol
  | Eol.

(** Where the matcher stands: the index, the input left, the groups
    captured so far (latest first). *)
Record MState : Type := mkMState {
  pos : nat;
  rest : list ascii;
  caps : list (nat * string)
}.

Definition Cont : Type := MState -> option MState.

Definition orElse (a b : option MState) : option MState :=
  match a with Some x => Some x | None => b end.

Fixpoint run (r : Re) (st : MState) (k : Cont) {struct r} : option MState :=
  match r with
  | Chr p =>
      match rest st with
      | c :: cs => if p c then k (mkMState (S (pos st)) cs (caps st)) else None
      | [] => None
      end
  | Eps => k st
  | Seq a b => run a st (fun st' => run b st' k)
  | Alt a b => orElse (run a st k) (run b st k)
  | Rep greedy lo hi r' =>
      (fix turn (fuel : nat) (lo : nat) (hi : option nat) (st : MState)
           {struct fuel} : option MState :=
         match fuel with
         | O => None
         | S fuel' =>
             match hi with
             | Some O => k st
             | _ =>
                 let again :=
                   run r' st (fun st' =>
                     if (lo =? 0)%nat && (pos st' =? pos st)%nat then None
                     else turn fuel' (Nat.pred lo) (option_map Nat.pred hi) st') in
                 if (0 <? lo)%nat then again
                 else if greedy then orElse again (k st)
                 else orElse (k st) again
             end
         end) (lo + List.length (rest st) + 1)%nat lo hi st
  | Group i r' =>
      run r' st (fun st' =>
        let text := string_of_list_ascii (take (pos st' - pos st) (rest st)) in
        k (mkMState (pos st') (rest st') ((i, text) :: caps st')))
  | Bol => if (pos st =? 0)%nat then k st else None
  | Eol => match rest st with [] => k st | _ => None end
  end.

(** A match: where it starts, the text matched, the groups. *)
Record Match : Type := mkMatch {
  index : nat;
  matched : string;
  groups : list (nat * string)
}.

(** [m[i]] of a match, [undefined] when the group took no part. *)
Fixpoint group (i : nat) (gs : list (nat * string)) : option string :=
  match gs with
  | [] => None
  | (j, s) :: gs' => if (i =? j)%nat then Some s else group i gs'
  end.

(** [m[i]] where the pattern makes group [i] take part in every match. *)
Definition group1 (i : nat) (m : Match) : string :=
  match group i (groups m) with Some s => s | None => "" end.

(** Try to match at the current index only. *)
Definition matchHere (r : Re) (p : nat) (input : list ascii) : option Match :=
  match run r (mkMState p input []) Some with
  | Some st => Some (mkMatch p (string_of_list_ascii (take (pos st - p) input)) (caps st))
  | None => None
  end.

(** The leftmost match at or after the current index. *)
Fixpoint search (r : Re) (p : nat) (input : list ascii) : option Match :=
  match matchHere r p input with
  | Some m => Some m
  | None =>
      match input with
      | [] => None
      | _ :: input' => search r (S p) input'
      end
  end.

(** [regex.exec(s)] and [s.match(regex)] for a pattern without the [g]
    flag. *)
Definition exec (r : Re) (s : string) : option Match :=
  search r 0 (list_ascii_of_string s).

(** [regex.test(s)]. *)
Definition test (r : Re) (s : string) : bool :=
  match exec r s with Some _ => true | None => false end.

(** All matches of a [g] pattern, left to right, as [exec] in a loop or
    [replace] finds them: after a match the search goes on where the
    match ended, one character further when the match was empty. *)
Fixpoint scan (fuel : nat) (r : Re) (p : nat) (input : list ascii) : list Match :=
  match fuel with
  | O => []
  | S fuel' =>
      match search r p input with
      | None => []
      | Some m =>
          let len := String.length (matched m) in
          let next := (index m - p + Nat.max len 1)%nat in
          m :: scan fuel' r (p + next) (drop next input)
      end
  end.

Definition matchAll (r : Re) (s : string) : list Match :=
  scan (S (String.length s)) r 0 (list_ascii_of_string s).

(** [s.replace(regex, callback)] for a [g] pattern. *)
Fixpoint splice (f : Match -> string) (p : nat) (input : list ascii)
         (ms : list Match) : string :=
  match ms with
  | [] => string_of_list_ascii input
  | m :: ms' =>
      let before := (index m - p)%nat in
      let len := String.length (matched m) in
      string_of_list_ascii (take before input) ++ f m ++
      splice f (index m + len) (drop (before + len) input) ms'
  end.

Definition replaceAll (r : Re) (f : Match -> string) (s : string) : string :=
  splice f 0 (list_ascii_of_string s) (matchAll r s).

(** ** Building patterns *)

Definition chr (c : ascii) : Re := Chr (Ascii.eqb c).

(** A character under the [i] flag. *)
Definition chr_i (c : ascii) : Re :=
  Chr (fun d => Ascii.eqb (Str.upper_char d) (Str.upper_char c)).

Fixpoint lit (s : string) : Re :=
  match s with
  | EmptyString => Eps
  | String c EmptyString => chr c
  | String c s' => Seq (chr c) (lit s')
  end.

Fixpoint lit_i (s : string) : Re :=
  match s with
  | EmptyString => Eps
  | String c EmptyString => chr_i c
  | String c s' => Seq (chr_i c) (lit_i s')
  end.

Fixpoint seq (l : list Re) : Re :=
  match l with
  | [] => Eps
  | [r] => r
  | r :: l' => Seq r (seq l')
  end.

Fixpoint alt (l : list Re) : Re :=
  match l with
  | [] => Chr (fun _ => false)
  | [r] => r
  | r :: l' => Alt r (alt l')
  end.

Definition plus (r : Re) : Re := Rep true 1 None r.
Definition star (r : Re) : Re := Rep true 0 None r.
Definition opt (r : Re) : Re := Rep true 0 (Some 1%nat) r.
Definition lazyPlus (r : Re) : Re := Rep false 1 None r.
(** [r{n}]: [r], [n] times in a row. *)
Fixpoint times (n : nat) (r : Re) : Re :=
  match n with
  | O => Eps
  | S n' => Seq r (times n' r)
  end.

Definition is_upper (c : ascii) : bool :=
  let n := nat_of_ascii c in ((65 <=? n) && (n <=? 90))%nat.
Definition is_lower (c : ascii) : bool :=
  let n := nat_of_ascii c in ((97 <=? n) && (n <=? 122))%nat.
Definition is_letter (c : ascii) : bool := is_upper c || is_lower c.
Definition is_word (c : ascii) : bool :=
  is_letter c || Js.is_digit c || Ascii.eqb c "_".
Definition is_lineTerminator (c : ascii) : bool :=
  let n := nat_of_ascii c in ((n =? 10) || (n =? 13))%nat.

(** [\d], [\w], [\s], [.] *)
Definition digit : Re := Chr Js.is_digit.
Definition word : Re := Chr is_word.
Definition space : Re := Chr Str.is_space.
Definition dot : Re := Chr (fun c => negb (is_lineTerminator c)).
(** [[^c]] *)
Definition notChr (c : ascii) : Re := Chr (fun d => negb (Ascii.eqb c d)).
(** [[cd...]] *)
Definition oneOf (s : string) : Re :=
  Chr (fun d => existsb (Ascii.eqb d) (list_ascii_of_string s)).
(** [[A-Z]] under the [i] flag, and [[A-Z]] without it. *)
Definition letter : Re := Chr is_letter.
Definition upper : Re := Chr is_upper.

End Regex.

(* ================================================================== *)
(** * Constants ([constants.ts]) and types ([types.ts])                 *)
(* ================================================================== *)

Definition dquote : ascii := ascii_of_nat 34.

Module PLACEHOLDER_REGEX.
Import Regex.

(** [/^\{\{#table\s+(.+?)\}\}$/] *)
Definition TABLE : Re :=
  seq [Bol; lit "{{#table"; plus space; Group 1 (lazyPlus dot); lit "}}"; Eol].

(** [/^\{\{#formula\s+(SUM|AVERAGE|COUNT|MIN|MAX)\s+(T)\}\}$/i] where
    [T] is a letter or underscore followed by any number of word
    characters and dots. *)
Definition FORMULA : Re :=
  seq [Bol; lit_i "{{#formula"; plus space;
       Group 1 (alt [lit_i "SUM"; lit_i "AVERAGE"; lit_i "COUNT"; lit_i "MIN"; lit_i "MAX"]);
       plus space;
       Group 2 (Seq (Chr (fun c => is_letter c || Ascii.eqb c "_"))
                    (star (Chr (fun c => is_word c || Ascii.eqb c "."))));
       lit "}}"; Eol].

Definition quote : Re :=
  Chr (fun c => Ascii.eqb c dquote || Ascii.eqb c "'").

(** [/^\{\{(.+?)\s*\|\s*join\(Q(.+?)Q\)\}\}$/] where [Q] is a single or
    a double quote. *)
Definition JOIN : Re :=
  seq [Bol; lit "{{"; Group 1 (lazyPlus dot); star space; chr "|"; star space;
       lit "join("; quote; Group 2 (lazyPlus dot); quote; lit ")}}"; Eol].

(** [/^\{\{([^}]+)\}\}$/] *)
Definition VALUE : Re :=
  seq [Bol; lit "{{"; Group 1 (plus (notChr "}")); lit "}}"; Eol].

(** [/\{\{\s*([^}]+?)\s*\}\}/g] *)
Definition INLINE : Re :=
  seq [lit "{{"; star space; Group 1 (lazyPlus (notChr "}")); star space; lit "}}"].

(** [/^[A-Z]+$/i] *)
Definition COLUMN_LETTER : Re := seq [Bol; plus letter; Eol].

End PLACEHOLDER_REGEX.

Module ERROR_MESSAGES.
Definition FIELD_NOT_FOUND (field : string) : string :=
  "Field '" ++ field ++ "' not found in table".
Definition NO_COLUMN_SPECIFIED : string := "No column specified for formula".
Definition NO_TABLE_OR_PATH : string := "No table or array path found for formula".
Definition UNKNOWN_FORMULA_TYPE (type : string) : string :=
  "Unknown formula type: " ++ type.
End ERROR_MESSAGES.

Inductive PlaceholderType : Type := value | table | join | formula.

(** [interface Placeholder]; [formulaType] is whatever text the pattern
    captured, upper-cased, so it is a [string] here. *)
Record Placeholder : Type := mkPlaceholder {
  type : PlaceholderType;
  path : string;
  separator : option string;
  formulaType : option string;
  column : option string;
  arrayPath : option string;
  fieldName : option string
}.

Record TableMetadata : Type := mkTableMetadata {
  rowNumber : Z;
  tm_path : string
}.

Record TableRenderInfo : Type := mkTableRenderInfo {
  startRow : Z;
  endRow : Z;
  ti_path : string;
  fieldColumnMap : gmap string string
}.

Record TableRenderResult : Type := mkTableRenderResult {
  tableInfo : option TableRenderInfo;
  rowsToHide : list Z
}.

Record MergePattern : Type := mkMergePattern {
  startCol : Z;
  endCol : Z;
  spanCols : Z
}.

Record RenderOptions : Type := mkRenderOptions {
  autoParseNumbers : option bool
}.

(** The default [options = {}]. *)
Definition noOptions : RenderOptions := mkRenderOptions None.

(* ================================================================== *)
(** * 2. Placeholder detection                                          *)
(* ================================================================== *)

(** [detectPlaceholder(cellValue)]. *)
Definition detectPlaceholder (cellValue : JsValue) : option Placeholder :=
  match cellValue with
  | VStr cellText =>
      let trimmed := Str.trim cellText in
      match Regex.exec PLACEHOLDER_REGEX.TABLE trimmed with
      | Some tableMatch =>
          Some (mkPlaceholder table (Str.trim (Regex.group1 1 tableMatch))
                  None None None None None)
      | None =>
      match Regex.exec PLACEHOLDER_REGEX.FORMULA trimmed with
      | Some formulaMatch =>
          let target := Regex.group1 2 formulaMatch in
          let isColumnLetter :=
            Regex.test PLACEHOLDER_REGEX.COLUMN_LETTER target
            && (String.length target <=? 3)%nat in
          if isColumnLetter then
            Some (mkPlaceholder formula ""
                    None (Some (Str.toUpperCase (Regex.group1 1 formulaMatch)))
                    (Some (Str.toUpperCase target)) None None)
          else
            let lastDotIndex := Str.lastIndexOf target "." in
            let arrayPath :=
              if 0 <? lastDotIndex then Str.substring2 target 0 lastDotIndex else "" in
            let fieldName :=
              if 0 <? lastDotIndex then Str.substring1 target (lastDotIndex + 1) else target in
            Some (mkPlaceholder formula target
                    None (Some (Str.toUpperCase (Regex.group1 1 formulaMatch)))
                    None (Some arrayPath) (Some fieldName))
      | None =>
      match Regex.exec PLACEHOLDER_REGEX.JOIN trimmed with
      | Some joinMatch =>
          Some (mkPlaceholder join (Str.trim (Regex.group1 1 joinMatch))
                  (Some (Regex.group1 2 joinMatch)) None None None None)
      | None =>
      match Regex.exec PLACEHOLDER_REGEX.VALUE trimmed with
      | Some valueMatch =>
          Some (mkPlaceholder value (Str.trim (Regex.group1 1 valueMatch))
                  None None None None None)
      | None => None
      end end end end
  | _ => None
  end.

(* ================================================================== *)
(** * 3. Cell rendering                                                 *)
(* ================================================================== *)

(** The pattern of [renderValue] for strict ISO dates:
    [YYYY-MM-DD], optionally followed by [THH:MM], optional seconds,
    optional fraction, optional [Z] or offset. *)
Definition ISO_DATE : Regex.Re :=
  let d2 := Regex.times 2 Regex.digit in
  Regex.seq
    [Regex.Bol; Regex.times 4 Regex.digit; Regex.chr "-"; d2; Regex.chr "-"; d2;
     Regex.opt (Regex.Group 1 (Regex.seq
       [Regex.chr "T"; d2; Regex.chr ":"; d2;
        Regex.opt (Regex.Group 2 (Regex.Seq (Regex.chr ":") d2));
        Regex.opt (Regex.Group 3 (Regex.Seq (Regex.chr ".") (Regex.plus Regex.digit)));
        Regex.opt (Regex.Group 4 (Regex.Alt (Regex.chr "Z")
          (Regex.seq [Regex.oneOf "+-"; d2; Regex.opt (Regex.chr ":"); d2])))]));
     Regex.Eol].

(** The value of a formula cell: the object [{ formula }]. *)
Definition formulaObject (f : string) : JsValue := VObj [("formula", VStr f)].

(** The coercion both formula fallbacks apply to the field of an array
    element. *)
Definition fieldNumber (item : JsValue) (fieldName : string) : JsNumber :=
  let val := Lodash.get item fieldName in
  match val with
  | VNum n => n
  | VStr s =>
      if Js.nonEmpty (Str.trim s) && negb (isNaN (Num.ofString s))
      then Num.ofString s
      else NaN
  | _ => NaN
  end.

Definition fieldNumbers (arr : list JsValue) (fieldName : string) : list JsNumber :=
  List.filter (fun v => negb (isNaN v)) (List.map (fun item => fieldNumber item fieldName) arr).

(** [renderFormula(formulaType, columnOrField, fieldName, arrayPath,
    tableInfo, data)]. *)
Definition renderFormula (formulaType : string)
    (columnOrField fieldName arrayPath : option string)
    (tableInfo : option TableRenderInfo) (data : JsValue) : JsValue :=
  let fallback :=
    match arrayPath, fieldName with
    | Some arrayPath', Some fieldName' =>
        if Js.nonEmpty arrayPath' && Js.nonEmpty fieldName' then
          match Lodash.get data arrayPath' with
          | VArr arr =>
              if Lodash.isEmptyArr arr then VNum (num_of_Z 0)
              else
                let values := fieldNumbers arr fieldName' in
                if (List.length values =? 0)%nat then VNum (num_of_Z 0)
                else if String.eqb formulaType "SUM" then VNum (Lodash.sum values)
                else if String.eqb formulaType "AVERAGE" then VNum (Lodash.mean values)
                else if String.eqb formulaType "COUNT"
                     then VNum (num_of_Z (Z.of_nat (List.length values)))
                else if String.eqb formulaType "MIN"
                     then VNum (default (num_of_Z 0) (Lodash.min values))
                else if String.eqb formulaType "MAX"
                     then VNum (default (num_of_Z 0) (Lodash.max values))
                else VStr ("#ERROR: " ++ ERROR_MESSAGES.UNKNOWN_FORMULA_TYPE formulaType)
          | _ => VNum (num_of_Z 0)
          end
        else VStr ("#ERROR: " ++ ERROR_MESSAGES.NO_TABLE_OR_PATH)
    | _, _ => VStr ("#ERROR: " ++ ERROR_MESSAGES.NO_TABLE_OR_PATH)
    end in
  match tableInfo with
  | Some ti =>
      if (0 <? startRow ti) && (0 <? endRow ti) then
        let formulaAt (column : string) :=
          formulaObject (formulaType ++ "(" ++ column ++ Str.ofZ (startRow ti) ++ ":"
                         ++ column ++ Str.ofZ (endRow ti) ++ ")") in
        if negb (Js.truthyStr columnOrField) && Js.truthyStr fieldName then
          match fieldColumnMap ti !! default "" fieldName with
          | Some column =>
              if Js.nonEmpty column then formulaAt column
              else VStr ("#ERROR: " ++ ERROR_MESSAGES.FIELD_NOT_FOUND (default "" fieldName))
          | None => VStr ("#ERROR: " ++ ERROR_MESSAGES.FIELD_NOT_FOUND (default "" fieldName))
          end
        else
          match columnOrField with
          | Some column =>
              if Js.nonEmpty column then formulaAt column
              else VStr ("#ERROR: " ++ ERROR_MESSAGES.NO_COLUMN_SPECIFIED)
          | None => VStr ("#ERROR: " ++ ERROR_MESSAGES.NO_COLUMN_SPECIFIED)
          end
      else fallback
  | None => fallback
  end.

Module INLINE_REGEX.
Import Regex.

(** The formula pattern of [renderInterpolatedString]: the pattern
    [FORMULA] without the braces. *)
Definition FORMULA : Re :=
  seq [Bol; lit_i "#formula"; plus space;
       Group 1 (alt [lit_i "SUM"; lit_i "AVERAGE"; lit_i "COUNT"; lit_i "MIN"; lit_i "MAX"]);
       plus space;
       Group 2 (Seq (Chr (fun c => is_letter c || Ascii.eqb c "_"))
                    (star (Chr (fun c => is_word c || Ascii.eqb c "."))));
       Eol].

(** The join pattern of [renderInterpolatedString]: the pattern [JOIN]
    without the braces. *)
Definition JOIN : Re :=
  seq [Bol; Group 1 (lazyPlus dot); star space; chr "|"; star space;
       lit "join("; PLACEHOLDER_REGEX.quote; Group 2 (lazyPlus dot);
       PLACEHOLDER_REGEX.quote; chr ")"; Eol].

End INLINE_REGEX.

Section Rendering.
Context `{Host}.

(** [renderValue(path, scopes, options)]. *)
Definition renderValue (path : string) (scopes : list JsValue)
    (options : RenderOptions) : Result JsValue :=
  let value := resolve path scopes in
  if Js.isNil value then Ok (VStr "")
  else if Js.isDate value then Ok value
  else if Js.isNumber value then Ok value
  else match value with
  | VStr s =>
      let trimmed := Str.trim s in
      if String.eqb trimmed "" then Ok value
      else if bool_decide (autoParseNumbers options = Some true)
              && Js.nonEmpty trimmed && negb (isNaN (Num.ofString trimmed))
      then Ok (VNum (Num.ofString trimmed))
      else if Regex.test ISO_DATE trimmed
              && negb (isNaN (dateParse trimmed))
      then Ok (VDate (dateParse trimmed))
      else Ok value
  | _ =>
      if Js.isBoolean value then Ok value
      else s <- JSON_stringify value; Ok (VStr s)
  end.

(** The [map]/[filter]/[join] chain of [renderJoin]. *)
Definition joinTexts (texts : list string) (keep : string -> bool)
    (separator : string) : string :=
  Str.join separator (List.filter keep texts).

(** [renderJoin(path, separator, scopes)]. *)
Definition renderJoin (path : string) (separator : string)
    (scopes : list JsValue) : string :=
  let whole :=
    match resolve path scopes with
    | VArr arr =>
        if Lodash.isEmptyArr arr then ""
        else joinTexts
               (List.map (fun item => if Js.isNil item then "" else toStr item) arr)
               (fun v => Js.nonEmpty v && negb (String.eqb v "[object Object]"))
               separator
    | _ => ""
    end in
  let lastDotIndex := Str.lastIndexOf path "." in
  if 0 <? lastDotIndex then
    let arrayPath := Str.substring2 path 0 lastDotIndex in
    let propertyName := Str.substring1 path (lastDotIndex + 1) in
    match resolve arrayPath scopes with
    | VArr arr =>
        if Lodash.isEmptyArr arr then whole
        else joinTexts
               (List.map (fun item =>
                  let val := Lodash.get item propertyName in
                  if Js.isNil val then "" else toStr val) arr)
               Js.nonEmpty separator
    | _ => whole
    end
  else whole.

(** [calculateFormulaValue(formulaType, arrayPath, fieldName, scopes)]. *)
Definition calculateFormulaValue (formulaType arrayPath fieldName : string)
    (scopes : list JsValue) : string :=
  match resolve arrayPath scopes with
  | VArr arr =>
      if Lodash.isEmptyArr arr then "0"
      else
        let values := fieldNumbers arr fieldName in
        if (List.length values =? 0)%nat then "0"
        else
          let type := Str.toUpperCase formulaType in
          if String.eqb type "SUM" then toStr (VNum (Lodash.sum values))
          else if String.eqb type "AVERAGE" then toStr (VNum (Lodash.mean values))
          else if String.eqb type "COUNT"
               then toStr (VNum (num_of_Z (Z.of_nat (List.length values))))
          else if String.eqb type "MIN"
               then toStr (VNum (default (num_of_Z 0) (Lodash.min values)))
          else if String.eqb type "MAX"
               then toStr (VNum (default (num_of_Z 0) (Lodash.max values)))
          else "#ERROR: Unknown formula type: " ++ formulaType
  | _ => "0"
  end.

(** The callback of [renderInterpolatedString], on the text between
    the braces. *)
Definition renderInline (exprContent : string) (scopes : list JsValue) : string :=
  let expr := Str.trim exprContent in
  match Regex.exec INLINE_REGEX.FORMULA expr with
  | Some formulaMatch =>
      let formulaType := Regex.group1 1 formulaMatch in
      let target := Regex.group1 2 formulaMatch in
      let lastDotIndex := Str.lastIndexOf target "." in
      if 0 <? lastDotIndex then
        calculateFormulaValue formulaType
          (Str.substring2 target 0 lastDotIndex)
          (Str.substring1 target (lastDotIndex + 1)) scopes
      else "#ERROR: Invalid formula path: " ++ target
  | None =>
  match Regex.exec INLINE_REGEX.JOIN expr with
  | Some joinMatch =>
      renderJoin (Str.trim (Regex.group1 1 joinMatch)) (Regex.group1 2 joinMatch) scopes
  | None =>
      let value := resolve expr scopes in
      if Js.isNil value then "" else toStr value
  end end.

(** [renderInterpolatedString(template, scopes)]. *)
Definition renderInterpolatedString (template : string) (scopes : list JsValue) : string :=
  Regex.replaceAll PLACEHOLDER_REGEX.INLINE
    (fun m => renderInline (Regex.group1 1 m) scopes) template.

(** [text.includes(needle)] on the [text] of a rich-text fragment: the
    string method, the array method, or a TypeError when [text] has no
    such method. *)
Definition textIncludes (text : JsValue) (needle : string) : Result bool :=
  match text with
  | VStr s => Ok (Str.includes s needle)
  | VArr elems =>
      Ok (existsb (fun e => match e with VStr s => String.eqb s needle | _ => false end) elems)
  | _ => Throw (TypeError "text.includes is not a function")
  end.

(** The state of the loop of [handleRichText]. *)
Record RichState : Type := mkRichState {
  rt_result : list JsValue;
  rt_buffer : list JsValue;
  inPlaceholder : bool
}.

Definition richFragment (scopes : list JsValue) (st : RichState)
    (fragment : JsValue) : Result RichState :=
  if Js.isNil fragment
  then Throw (TypeError "Cannot destructure property 'text'")
  else
    let text := Js.getProp fragment "text" in
    opens <- textIncludes text "{{";
    if opens || inPlaceholder st then
      let buffer := (rt_buffer st ++ [fragment])%list in
      closes <- textIncludes text "}}";
      if closes : bool then
        let combinedText :=
          Str.join ""
            (List.map (fun f => let t := Js.getProp f "text" in
                                if Js.isNil t then "" else toStr t) buffer) in
        let rendered := renderInterpolatedString combinedText scopes in
        let font := match buffer with f :: _ => Js.getProp f "font" | [] => VUndefined end in
        Ok (mkRichState
              (rt_result st ++ [VObj [("text", VStr rendered); ("font", font)]])%list
              [] false)
      else Ok (mkRichState (rt_result st) buffer true)
    else Ok (mkRichState (rt_result st ++ [fragment])%list (rt_buffer st) (inPlaceholder st)).

Fixpoint richFragments (scopes : list JsValue) (st : RichState)
    (fragments : list JsValue) : Result RichState :=
  match fragments with
  | [] => Ok st
  | fragment :: rest =>
      st' <- richFragment scopes st fragment;
      richFragments scopes st' rest
  end.

(** [handleRichText(cellValue, scopes)]. *)
Definition handleRichText (cellValue : JsValue) (scopes : list JsValue) : Result JsValue :=
  if negb (Js.truthy cellValue) then Ok cellValue
  else match Js.getProp cellValue "richText" with
  | VArr fragments =>
      st <- richFragments scopes (mkRichState [] [] false) fragments;
      Ok (VObj [("richText", VArr (rt_result st ++ rt_buffer st)%list)])
  | _ => Ok cellValue
  end.

(** [renderCell(cellValue, scopes, options)].  A formula placeholder
    leaves the [switch] without returning and is rendered by the
    interpolation below it. *)
Definition renderCell (cellValue : JsValue) (scopes : list JsValue)
    (options : RenderOptions) : Result JsValue :=
  let other :=
    match cellValue with
    | VStr cellText =>
        if Str.includes cellText "{{"
        then Ok (VStr (renderInterpolatedString cellText scopes))
        else Ok cellValue
    | _ =>
        if Js.isObject cellValue && Js.hasProp cellValue "richText"
        then handleRichText cellValue scopes
        else Ok cellValue
    end in
  match detectPlaceholder cellValue with
  | Some placeholder =>
      match type placeholder with
      | value => renderValue (path placeholder) scopes options
      | join => Ok (VStr (renderJoin (path placeholder)
                            (default "" (separator placeholder)) scopes))
      | table => Ok cellValue
      | formula => other
      end
  | None => other
  end.

End Rendering.

(* ================================================================== *)
(** * The worksheet                                                     *)
(* ================================================================== *)

(** The part of an ExcelJS worksheet the engine reads and writes: rows
    of cells with a value and a style, the hidden flag and height of a
    row, the merged ranges, the row anchors of images and the print
    area.  Row [r] is the element [r - 1] of [rows], column [c] the
    element [c - 1] of [cells]; rows and cells past the end are blank.
    A merge only records its range: the cells of a merged range keep
    their own values.  Column widths, which the engine saves first and
    writes back unchanged last, are left out. *)

Record Style : Type := mkStyle {
  numFmt : option string;
  appearance : JsValue
}.

Record Cell : Type := mkCell {
  cellValue : JsValue;
  style : Style
}.

Record Row : Type := mkRow {
  cells : list Cell;
  hidden : bool;
  height : option JsNumber
}.

(** An entry of [worksheet.model.merges]: the text of a range, or its
    four bounds. *)
Inductive Merge : Type :=
  | MergeRange (range : string)
  | MergeBox (top left bottom right : Z).

(** The anchor of an image: a range with its top-left and bottom-right
    rows, or a position with a row. *)
Inductive ImageAnchor : Type :=
  | ImageRange (tl br : option Z)
  | ImagePosition (row : Z)
  | ImageUnanchored.

Record Worksheet : Type := mkWorksheet {
  rows : list Row;
  merges : list Merge;
  images : list ImageAnchor;
  media : list ImageAnchor;
  printArea : option string
}.

Module Sheet.

Definition blankStyle : Style := mkStyle None (VObj []).
Definition blankCell : Cell := mkCell VNull blankStyle.
Definition blankRow : Row := mkRow [] false None.

(** [cell.type !== ValueType.Null] *)
Definition hasValue (c : Cell) : bool := negb (Js.isNil (cellValue c)).

(** [row.hasValues] *)
Definition hasValues (r : Row) : bool := existsb hasValue (cells r).

(** [row.cellCount] *)
Definition cellCount (r : Row) : Z := Z.of_nat (List.length (cells r)).

(** [worksheet.getRow(r)] *)
Definition getRow (ws : Worksheet) (r : Z) : Row :=
  nth (Z.to_nat (r - 1)) (rows ws) blankRow.

(** [row.getCell(c)] *)
Definition getCell (r : Row) (c : Z) : Cell :=
  nth (Z.to_nat (c - 1)) (cells r) blankCell.

(** [l] extended with [d] to the length [n], when it is shorter. *)
Definition padTo {A : Type} (n : nat) (d : A) (l : list A) : list A :=
  (l ++ repeat d (n - List.length l))%list.

(** Writing the element of index [i], extending the list when needed. *)
Definition setNth {A : Type} (i : nat) (d x : A) (l : list A) : list A :=
  <[i := x]> (padTo (S i) d l).

Definition setCell (r : Row) (c : Z) (x : Cell) : Row :=
  mkRow (setNth (Z.to_nat (c - 1)) blankCell x (cells r)) (hidden r) (height r).

Definition setRows (ws : Worksheet) (rs : list Row) : Worksheet :=
  mkWorksheet rs (merges ws) (images ws) (media ws) (printArea ws).

Definition setRow (ws : Worksheet) (r : Z) (x : Row) : Worksheet :=
  setRows ws (setNth (Z.to_nat (r - 1)) blankRow x (rows ws)).

Definition setMerges (ws : Worksheet) (ms : list Merge) : Worksheet :=
  mkWorksheet (rows ws) ms (images ws) (media ws) (printArea ws).

(** [worksheet.insertRow(pos, [])]: a blank row at the 1-based
    position [pos]; the rows from [pos] on move down by one. *)
Definition insertRow (ws : Worksheet) (pos : Z) : Worksheet :=
  let i := Z.to_nat (pos - 1) in
  setRows ws (take i (padTo i blankRow (rows ws)) ++ blankRow :: drop i (rows ws))%list.

(** The rows [eachRow] visits with their numbers: all of them with
    [includeEmpty], the ones that have values without. *)
Definition numbered {A : Type} (l : list A) : list (Z * A) :=
  imap (fun i x => (Z.of_nat (S i), x)) l.

(** The four bounds of a range written [A1:B2]. *)
Record Box : Type := mkBox { top : Z; left : Z; bottom : Z; right : Z }.

Definition intersects (a b : Box) : bool :=
  (top a <=? bottom b) && (top b <=? bottom a)
  && (left a <=? right b) && (left b <=? right a).

End Sheet.

(* ================================================================== *)
(** * 5. Table rendering utilities                                      *)
(* ================================================================== *)

Module CELL_REGEX.
Import Regex.
(** [/([A-Z]+)(\d+)/] *)
Definition ADDRESS : Re := Seq (Group 1 (plus upper)) (Group 2 (plus digit)).
(** [/[A-Z]+/i] *)
Definition LETTERS : Re := plus letter.
(** The [g] pattern of [extractRowTemplate]: two opening braces, a
    dotted path of word characters, two closing braces. *)
Definition FIELD : Re :=
  seq [lit "{{"; Group 1 (Seq (plus word) (star (Seq (chr ".") (plus word)))); lit "}}"].
End CELL_REGEX.

Record MergeInfo : Type := mkMergeInfo {
  master_row : Z;
  master_col : Z;
  mi_range : string
}.

(** [const [start, end] = text.split(':')] followed by a method call on
    both: a TypeError when there is no second part. *)
Definition splitRange (text : string) : Result (string * string) :=
  match Str.split ":" text with
  | start :: end_ :: _ => Ok (start, end_)
  | _ => Throw (TypeError "Cannot read properties of undefined (reading 'match')")
  end.

(** The bounds of one entry of the merge list; [None] is the [continue]
    of the loop. *)
Definition mergeBounds (merge : Merge) : Result (option Sheet.Box) :=
  match merge with
  | MergeRange text =>
      '(start, end_) <- splitRange text;
      match Regex.exec CELL_REGEX.ADDRESS start, Regex.exec CELL_REGEX.ADDRESS end_ with
      | Some startMatch, Some endMatch =>
          Ok (Some (Sheet.mkBox
                (Js.digits_val 0 (Regex.group1 2 startMatch))
                (columnLetterToNumber (Regex.group1 1 startMatch))
                (Js.digits_val 0 (Regex.group1 2 endMatch))
                (columnLetterToNumber (Regex.group1 1 endMatch))))
      | _, _ => Ok None
      end
  | MergeBox t l b r => Ok (Some (Sheet.mkBox t l b r))
  end.

(** [getMergeInfo(worksheet, rowNumber, colNumber)]. *)
Fixpoint getMergeInfo_loop (ms : list Merge) (rowNumber colNumber : Z)
    : Result (option MergeInfo) :=
  match ms with
  | [] => Ok None
  | merge :: ms' =>
      bounds <- mergeBounds merge;
      match bounds with
      | Some b =>
          if (Sheet.top b <=? rowNumber) && (rowNumber <=? Sheet.bottom b)
             && (Sheet.left b <=? colNumber) && (colNumber <=? Sheet.right b)
          then Ok (Some (mkMergeInfo (Sheet.top b) (Sheet.left b)
                 (columnNumberToLetter (Sheet.left b) ++ Str.ofZ (Sheet.top b) ++ ":"
                  ++ columnNumberToLetter (Sheet.right b) ++ Str.ofZ (Sheet.bottom b))))
          else getMergeInfo_loop ms' rowNumber colNumber
      | None => getMergeInfo_loop ms' rowNumber colNumber
      end
  end.

Definition getMergeInfo (worksheet : Worksheet) (rowNumber colNumber : Z)
    : Result (option MergeInfo) :=
  getMergeInfo_loop (merges worksheet) rowNumber colNumber.

(** [extractMergePatternsFromRow(worksheet, rowNumber)]. *)
Definition extractMergePatternsFromRow (worksheet : Worksheet) (rowNumber : Z)
    : Result (list MergePattern) :=
  let row := Sheet.getRow worksheet rowNumber in
  let maxCol := if Sheet.cellCount row =? 0 then 20 else Sheet.cellCount row in
  '(patterns, _) <-
    foldM
      (fun (st : list MergePattern * gset Z) (col : Z) =>
         let '(patterns, processedCols) := st in
         if bool_decide (col ∈ processedCols) then Ok st
         else
           mergeInfo <- getMergeInfo worksheet rowNumber col;
           match mergeInfo with
           | Some mi =>
               if master_row mi =? rowNumber then
                 '(start, end_) <- splitRange (mi_range mi);
                 match Regex.exec CELL_REGEX.LETTERS start,
                       Regex.exec CELL_REGEX.LETTERS end_ with
                 | Some startColMatch, Some endColMatch =>
                     let startCol := columnLetterToNumber (Regex.matched startColMatch) in
                     let endCol := columnLetterToNumber (Regex.matched endColMatch) in
                     Ok ((patterns ++ [mkMergePattern startCol endCol (endCol - startCol + 1)])%list,
                         processedCols ∪ list_to_set (seqZ startCol (endCol - startCol + 1)))
                 | _, _ => Ok st
                 end
               else Ok st
           | None => Ok st
           end)
      (seqZ 1 maxCol) ([], ∅);
  Ok patterns.

(** [interface CellTemplate], without the [type] field, which the engine
    stores and never reads. *)
Record CellTemplate : Type := mkCellTemplate {
  ct_value : JsValue;
  ct_style : Style;
  ct_numFmt : option string;
  isMerged : bool;
  mergeInfo : option (Z * Z)
}.

Record RowTemplate : Type := mkRowTemplate {
  templates : list CellTemplate;
  mergePatterns : list MergePattern;
  rt_fieldColumnMap : gmap string string
}.

(** The [while] loop of [extractRowTemplate] over the placeholders of one
    cell. *)
Definition recordFields (fieldColumnMap : gmap string string) (cellText : string)
    (colNumber : Z) : gmap string string :=
  fold_left
    (fun (m : gmap string string) (found : Regex.Match) =>
       let fieldPath := Regex.group1 1 found in
       let columnLetter := columnNumberToLetter colNumber in
       let m1 := <[fieldPath := columnLetter]> m in
       let lastSegment := List.last (Str.split "." fieldPath) "" in
       if Js.nonEmpty lastSegment && negb (bool_decide (is_Some (m1 !! lastSegment)))
       then <[lastSegment := columnLetter]> m1
       else m1)
    (Regex.matchAll CELL_REGEX.FIELD cellText) fieldColumnMap.

(** [extractRowTemplate(row, worksheet)] for the row [rowNumber]. *)
Definition extractRowTemplate (rowNumber : Z) (worksheet : Worksheet)
    : Result RowTemplate :=
  let row := Sheet.getRow worksheet rowNumber in
  '(templates, fieldColumnMap) <-
    foldM
      (fun (st : list CellTemplate * gmap string string) (nc : Z * Cell) =>
         let '(templates, fieldColumnMap) := st in
         let '(colNumber, cell) := nc in
         mergeInfo <- getMergeInfo worksheet rowNumber colNumber;
         info <-
           match mergeInfo with
           | Some mi =>
               '(_, end_) <- splitRange (mi_range mi);
               Ok (Some (master_col mi,
                         match Regex.exec CELL_REGEX.LETTERS end_ with
                         | Some endMatch => columnLetterToNumber (Regex.matched endMatch)
                         | None => master_col mi
                         end))
           | None => Ok None
           end;
         let template :=
           mkCellTemplate (cellValue cell) (style cell) (numFmt (style cell))
             (bool_decide (is_Some mergeInfo)) info in
         let cellText := match cellValue cell with VStr t => t | _ => "" end in
         Ok ((templates ++ [template])%list, recordFields fieldColumnMap cellText colNumber))
      (Sheet.numbered (cells row)) ([], ∅);
  mergePatterns <- extractMergePatternsFromRow worksheet rowNumber;
  Ok (mkRowTemplate templates mergePatterns fieldColumnMap).

Module SheetMerge.

(** The bounds of a range the engine passes to [mergeCells]; [None]
    when the text is not of the form [A1:B2]. *)
Definition decode (range : string) : option Sheet.Box :=
  match mergeBounds (MergeRange range) with
  | Ok b => b
  | Throw _ => None
  end.

Definition touches (b : Sheet.Box) (merge : Merge) : bool :=
  match mergeBounds merge with
  | Ok (Some b') => Sheet.intersects b b'
  | _ => false
  end.

(** [worksheet.unMergeCells(range)]: every merge that meets the range
    is dissolved; a TypeError when the range cannot be read. *)
Definition unMergeCells (ws : Worksheet) (range : string) : Result Worksheet :=
  match decode range with
  | Some b => Ok (Sheet.setMerges ws (List.filter (fun m => negb (touches b m)) (merges ws)))
  | None => Throw (TypeError "Invalid range")
  end.

(** [worksheet.mergeCells(range)]: an error when a cell of the range is
    merged already. *)
Definition mergeCells (ws : Worksheet) (range : string) : Result Worksheet :=
  match decode range with
  | Some b =>
      if existsb (touches b) (merges ws)
      then Throw (TypeError "Cannot merge already merged cells")
      else Ok (Sheet.setMerges ws (merges ws ++ [MergeRange range])%list)
  | None => Throw (TypeError "Invalid range")
  end.

End SheetMerge.

(** [applyMergePatternsToRow(worksheet, rowNumber, patterns)]; the
    [catch] keeps whatever the [try] block had done before it threw. *)
Definition applyMergePatternsToRow (worksheet : Worksheet) (rowNumber : Z)
    (patterns : list MergePattern) : Worksheet :=
  fold_left
    (fun ws pattern =>
       let startCell := columnNumberToLetter (startCol pattern) ++ Str.ofZ rowNumber in
       let endCell := columnNumberToLetter (endCol pattern) ++ Str.ofZ rowNumber in
       let range := startCell ++ ":" ++ endCell in
       match SheetMerge.unMergeCells ws range with
       | Ok ws1 =>
           match SheetMerge.mergeCells ws1 range with
           | Ok ws2 => ws2
           | Throw _ => ws1
           end
       | Throw _ => ws
       end)
    patterns worksheet.

(** [clearAndHideRow(row)]. *)
Definition clearAndHideRow (row : Row) : Row :=
  mkRow (List.map (fun cell => mkCell VNull (style cell)) (cells row))
        true (Some (num_of_Z 0)).

(* ================================================================== *)
(** * 4. Print area and image anchors                                   *)
(* ================================================================== *)

(** [adjustImageAnchors(worksheet, insertPosition, rowsAdded)]: the
    anchors of [getImages()], or those of [model.media] when there are
    no images. *)
Definition shiftAnchor (insertPosition rowsAdded : Z) (row : Z) : Z :=
  if insertPosition - 1 <=? row then row + rowsAdded else row.

Definition adjustImageAnchors (worksheet : Worksheet) (insertPosition rowsAdded : Z)
    : Worksheet :=
  let shift := shiftAnchor insertPosition rowsAdded in
  match images worksheet with
  | [] =>
      mkWorksheet (rows worksheet) (merges worksheet) []
        (List.map (fun image =>
           match image with
           | ImageRange tl br => ImageRange (shift <$> tl) (shift <$> br)
           | other => other
           end) (media worksheet))
        (printArea worksheet)
  | imgs =>
      mkWorksheet (rows worksheet) (merges worksheet)
        (List.map (fun image =>
           match image with
           | ImageRange tl br => ImageRange (shift <$> tl) (shift <$> br)
           | ImagePosition row => ImagePosition (shift row)
           | ImageUnanchored => ImageUnanchored
           end) imgs)
        (media worksheet) (printArea worksheet)
  end.

(** [recalculatePrintArea(worksheet)]: the bounding box of the cells
    whose value is neither [null], [undefined] nor the empty string. *)
Definition hasContent (c : Cell) : bool :=
  match cellValue c with
  | VNull | VUndefined => false
  | VStr s => Js.nonEmpty s
  | _ => true
  end.

Definition contentAddresses (worksheet : Worksheet) : list (Z * Z) :=
  List.concat
    (List.map (fun nr : Z * Row =>
       if Sheet.hasValues (snd nr) then
         List.map (fun nc : Z * Cell => (fst nr, fst nc))
           (List.filter (fun nc : Z * Cell => Sheet.hasValue (snd nc) && hasContent (snd nc))
              (Sheet.numbered (cells (snd nr))))
       else [])
     (Sheet.numbered (rows worksheet))).

Definition recalculatePrintArea (worksheet : Worksheet) : Worksheet :=
  match contentAddresses worksheet with
  | [] => mkWorksheet (rows worksheet) (merges worksheet) (images worksheet)
            (media worksheet) None
  | (r, c) :: more =>
      let minRow := fold_left Z.min (List.map fst more) r in
      let maxRow := fold_left Z.max (List.map fst more) (Z.max 0 r) in
      let minCol := fold_left Z.min (List.map snd more) c in
      let maxCol := fold_left Z.max (List.map snd more) (Z.max 0 c) in
      mkWorksheet (rows worksheet) (merges worksheet) (images worksheet) (media worksheet)
        (Some (columnNumberToLetter minCol ++ Str.ofZ minRow ++ ":"
               ++ columnNumberToLetter maxCol ++ Str.ofZ maxRow))
  end.

Section Engine.
Context `{Host}.

(** The state of the loop of [applyRowTemplate]. *)
Definition applyCell (scopes : list JsValue) (options : RenderOptions)
    (st : Row * gset Z) (nt : Z * CellTemplate) : Result (Row * gset Z) :=
  let '(newRow, processedCols) := st in
  let '(colNumber, cellTemplate) := nt in
  if bool_decide (colNumber ∈ processedCols) then Ok st
  else
    let touched := Sheet.setCell newRow colNumber (Sheet.getCell newRow colNumber) in
    let write (renderedValue : JsValue) : Row :=
      let styled :=
        if Js.truthyStr (ct_numFmt cellTemplate)
        then mkStyle (ct_numFmt cellTemplate) (appearance (ct_style cellTemplate))
        else ct_style cellTemplate in
      Sheet.setCell touched colNumber (mkCell renderedValue styled) in
    match isMerged cellTemplate, mergeInfo cellTemplate with
    | true, Some (startCol, endCol) =>
        if colNumber =? startCol then
          renderedValue <- renderCell (ct_value cellTemplate) scopes options;
          Ok (write renderedValue,
              processedCols ∪ list_to_set (seqZ startCol (endCol - startCol + 1)))
        else Ok (touched, processedCols)
    | _, _ =>
        renderedValue <- renderCell (ct_value cellTemplate) scopes options;
        Ok (write renderedValue, processedCols)
    end.

(** [applyRowTemplate(newRow, templates, scopes, options)]; the
    template of column [c] is the element [c - 1] of [templates]. *)
Definition applyRowTemplate (newRow : Row) (templates : list CellTemplate)
    (scopes : list JsValue) (options : RenderOptions) : Result Row :=
  st <- foldM (applyCell scopes options) (Sheet.numbered templates) (newRow, ∅);
  Ok (fst st).

(** One turn of the [_.forEach(arr, (item, index) => ...)] of
    [renderTable]. *)
Definition insertItem (anchorRowIndex : Z) (tpl : RowTemplate)
    (allScopes : list JsValue) (options : RenderOptions)
    (worksheet : Worksheet) (ii : Z * JsValue) : Result Worksheet :=
  let '(index, item) := ii in
  let insertPosition := anchorRowIndex + index in
  let ws1 := Sheet.insertRow worksheet insertPosition in
  let newRow := Sheet.getRow ws1 insertPosition in
  let localScopes := item :: allScopes in
  filled <- applyRowTemplate newRow (templates tpl) localScopes options;
  let ws2 := Sheet.setRow ws1 insertPosition filled in
  Ok (applyMergePatternsToRow ws2 insertPosition (mergePatterns tpl)).

Definition indexed {A : Type} (l : list A) : list (Z * A) :=
  imap (fun i x => (Z.of_nat i, x)) l.

(** [renderTable(worksheet, anchorRowIndex, arrayPath, scopes,
    rootData, _printAreaInfo, options)]. *)
Definition renderTable (worksheet : Worksheet) (anchorRowIndex : Z)
    (arrayPath : string) (scopes : list JsValue) (rootData : JsValue)
    (options : RenderOptions) : Result (Worksheet * TableRenderResult) :=
  let allScopes := (scopes ++ [rootData])%list in
  match resolve arrayPath allScopes with
  | VArr arr =>
      let templateRowIndex := anchorRowIndex + 1 in
      tpl <- extractRowTemplate templateRowIndex worksheet;
      if Lodash.isEmptyArr arr then
        Ok (worksheet, mkTableRenderResult None [anchorRowIndex; anchorRowIndex + 1])
      else
        let rowsToAdd := Z.of_nat (List.length arr) in
        let startRow := anchorRowIndex in
        let endRow := anchorRowIndex + rowsToAdd - 1 in
        ws1 <- foldM (insertItem anchorRowIndex tpl allScopes options) (indexed arr) worksheet;
        let newAnchorRowIndex := anchorRowIndex + rowsToAdd in
        let newTemplateRowIndex := anchorRowIndex + rowsToAdd + 1 in
        let ws2 := adjustImageAnchors ws1 anchorRowIndex rowsToAdd in
        Ok (ws2, mkTableRenderResult
                   (Some (mkTableRenderInfo startRow endRow arrayPath (rt_fieldColumnMap tpl)))
                   [newAnchorRowIndex; newTemplateRowIndex])
  | _ =>
      Ok (worksheet, mkTableRenderResult None [anchorRowIndex; anchorRowIndex + 1])
  end.

End Engine.

(* ================================================================== *)
(** * 6. Scan and collect tables                                        *)
(* ================================================================== *)

(** The cells [eachRow] and [eachCell] visit without [includeEmpty],
    with their row and column numbers. *)
Definition visitedCells (worksheet : Worksheet) : list (Z * Z * Cell) :=
  List.concat
    (List.map (fun nr : Z * Row =>
       if Sheet.hasValues (snd nr) then
         List.map (fun nc : Z * Cell => (fst nr, fst nc, snd nc))
           (List.filter (fun nc : Z * Cell => Sheet.hasValue (snd nc))
              (Sheet.numbered (cells (snd nr))))
       else [])
     (Sheet.numbered (rows worksheet))).

(** [_.orderBy(tables, ['rowNumber'], ['desc'])]: a stable sort. *)
Fixpoint insertDesc (t : TableMetadata) (sorted : list TableMetadata) : list TableMetadata :=
  match sorted with
  | [] => [t]
  | u :: rest =>
      if rowNumber u <? rowNumber t then t :: sorted
      else u :: insertDesc t rest
  end.

Definition orderByRowDesc (tables : list TableMetadata) : list TableMetadata :=
  fold_left (fun sorted t => insertDesc t sorted) tables [].

(** [scanTables(worksheet)]; [seenAnchors] holds the pairs of row and
    path already met. *)
Definition scanTables (worksheet : Worksheet) : list TableMetadata :=
  let tables :=
    fold_left
      (fun (tables : list TableMetadata) (rc : Z * Z * Cell) =>
         let '(row, _, cell) := rc in
         match detectPlaceholder (cellValue cell) with
         | Some placeholder =>
             match type placeholder with
             | table =>
                 if existsb (fun t => (row =? rowNumber t)
                                      && String.eqb (path placeholder) (tm_path t)) tables
                 then tables
                 else (tables ++ [mkTableMetadata row (path placeholder)])%list
             | _ => tables
             end
         | None => tables
         end)
      (visitedCells worksheet) [] in
  orderByRowDesc tables.

(* ================================================================== *)
(** * 7. Main engine                                                    *)
(* ================================================================== *)

(** What the expansion loop of [processWorkbook] carries from one table
    to the next. *)
Record Expansion : Type := mkExpansion {
  ex_worksheet : Worksheet;
  tableInfoMap : gmap string TableRenderInfo;
  lastTableInfo : option TableRenderInfo;
  hideEntries : list HideEntry
}.

(** The bookkeeping of one turn of the expansion loop, after
    [renderTable] has returned [result]. *)
Definition recordTable (st : Expansion) (t : TableMetadata) (ws' : Worksheet)
    (result : TableRenderResult) : Expansion :=
  let rowsInserted :=
    match tableInfo result with
    | Some ti => endRow ti - startRow ti + 1
    | None => 0
    end in
  mkExpansion ws'
    (match tableInfo result with
     | Some ti => <[tm_path t := ti]> (tableInfoMap st)
     | None => tableInfoMap st
     end)
    (match tableInfo result with
     | Some ti => Some ti
     | None => lastTableInfo st
     end)
    (hideEntries st ++ [mkHideEntry (rowsToHide result) (rowNumber t) rowsInserted])%list.

(** The table info a formula placeholder is rendered against. *)
Definition selectTableInfo (placeholder : Placeholder)
    (tableInfoMap : gmap string TableRenderInfo)
    (lastTableInfo : option TableRenderInfo) : option TableRenderInfo :=
  if Js.truthyStr (column placeholder) then lastTableInfo
  else if Js.truthyStr (arrayPath placeholder)
       then tableInfoMap !! default "" (arrayPath placeholder)
  else if Js.truthyStr (fieldName placeholder) then lastTableInfo
  else None.

Section Orchestrator.
Context `{Host}.

(** One turn of [_.forEach(tables, ...)]. *)
Definition expandTable (data : JsValue) (options : RenderOptions)
    (st : Expansion) (t : TableMetadata) : Result Expansion :=
  '(ws', result) <- renderTable (ex_worksheet st) (rowNumber t) (tm_path t) [] data options;
  Ok (recordTable st t ws' result).

Definition expandTables (worksheet : Worksheet) (tables : list TableMetadata)
    (data : JsValue) (options : RenderOptions) : Result Expansion :=
  foldM (expandTable data options) tables (mkExpansion worksheet ∅ None []).

(** The body of the final [row.eachCell]: the new value of a cell. *)
Definition substituteCell (data : JsValue) (options : RenderOptions)
    (tableInfoMap : gmap string TableRenderInfo)
    (lastTableInfo : option TableRenderInfo) (cellValue : JsValue) : Result JsValue :=
  match detectPlaceholder cellValue with
  | None => renderCell cellValue [data] options
  | Some placeholder =>
      match type placeholder with
      | table => Ok cellValue
      | formula =>
          if Js.truthyStr (formulaType placeholder) then
            let tableInfo := selectTableInfo placeholder tableInfoMap lastTableInfo in
            Ok (renderFormula (default "" (formulaType placeholder))
                  (column placeholder) (fieldName placeholder) (arrayPath placeholder)
                  tableInfo data)
          else renderCell cellValue [data] options
      | _ => renderCell cellValue [data] options
      end
  end.

(** The final pass: every cell with a value, row by row. *)
Definition substituteRow (data : JsValue) (options : RenderOptions)
    (tableInfoMap : gmap string TableRenderInfo)
    (lastTableInfo : option TableRenderInfo) (row : Row) : Result Row :=
  if Sheet.hasValues row then
    cells' <- mapM (fun cell =>
                if Sheet.hasValue cell then
                  v <- substituteCell data options tableInfoMap lastTableInfo (cellValue cell);
                  Ok (mkCell v (style cell))
                else Ok cell) (cells row);
    Ok (mkRow cells' (hidden row) (height row))
  else Ok row.

Definition finalPass (data : JsValue) (options : RenderOptions)
    (tableInfoMap : gmap string TableRenderInfo)
    (lastTableInfo : option TableRenderInfo) (worksheet : Worksheet) : Result Worksheet :=
  rows' <- mapM (substituteRow data options tableInfoMap lastTableInfo) (rows worksheet);
  Ok (Sheet.setRows worksheet rows').

(** The rows of all entries at their corrected positions. *)
Definition offsetRows (hideEntries : list HideEntry) : list Z :=
  List.concat
    (imap (fun i entry =>
             let offset := calculateHideOffset i hideEntries in
             List.map (fun rowIndex => rowIndex + offset) (he_rows entry))
          hideEntries).

(** The body of [_.forEach(workbook.worksheets, ...)]. *)
Definition processWorksheet (worksheet : Worksheet) (data : JsValue)
    (options : RenderOptions) : Result Worksheet :=
  let originallyHiddenRows :=
    List.map fst (List.filter (fun nr : Z * Row => hidden (snd nr))
                    (Sheet.numbered (rows worksheet))) in
  let tables := scanTables worksheet in
  st <- expandTables worksheet tables data options;
  let insertInfo :=
    List.filter (fun e => 0 <? rowsInserted e) (hideEntries st) in
  let ws1 :=
    fold_left
      (fun ws r => Sheet.setRow ws r (clearAndHideRow (Sheet.getRow ws r)))
      (offsetRows (hideEntries st)) (ex_worksheet st) in
  let anchorTemplateRows : gset Z := list_to_set (offsetRows (hideEntries st)) in
  let ws2 :=
    Sheet.setRows ws1
      (List.map (fun nr : Z * Row =>
         let '(rowNumber, row) := nr in
         if hidden row && negb (bool_decide (rowNumber ∈ anchorTemplateRows))
         then mkRow (cells row) false (height row)
         else row)
       (Sheet.numbered (rows ws1))) in
  let ws3 :=
    fold_left
      (fun ws originalRowNum =>
         let shiftAmount :=
           fold_left
             (fun amount info =>
                if insertedAt info <=? originalRowNum
                then amount + rowsInserted info else amount)
             insertInfo 0 in
         let newRowNum := originalRowNum + shiftAmount in
         let isTableRow :=
           existsb (fun t => (originalRowNum =? rowNumber t)
                             || (originalRowNum =? rowNumber t + 1)) tables in
         if negb isTableRow then
           let row := Sheet.getRow ws newRowNum in
           Sheet.setRow ws newRowNum (mkRow (cells row) true (height row))
         else ws)
      originallyHiddenRows ws2 in
  ws4 <- finalPass data options (tableInfoMap st) (lastTableInfo st) ws3;
  Ok (recalculatePrintArea ws4).


End Orchestrator.


(** ** Formula rendering, for the statements below *)

(** The five aggregate functions. *)
Definition knownFormulaType (formulaType : string) : bool :=
  existsb (String.eqb formulaType) ["SUM"; "AVERAGE"; "COUNT"; "MIN"; "MAX"].

(** The test that opens [renderFormula]: a table info with positive
    first and last rows. *)
Definition validTable (tableInfo : option TableRenderInfo) : bool :=
  match tableInfo with
  | Some ti => (0 <? startRow ti) && (0 <? endRow ti)
  | None => false
  end.

(** The text of the formula for a column and a table. *)
Definition formulaText (formulaType column : string) (ti : TableRenderInfo) : string :=
  formulaType ++ "(" ++ column ++ Str.ofZ (startRow ti) ++ ":"
  ++ column ++ Str.ofZ (endRow ti) ++ ")".

(** The coercion of the fallback in the words of the specification: a
    number passes through, a string whose trimmed text is not empty and
    reads as a number is converted, everything else, and everything
    that is not a number, is discarded. *)
Definition coercibleNumber (val : JsValue) : option JsNumber :=
  match val with
  | VNum n => if isNaN n then None else Some n
  | VStr s =>
      let t := Str.trim s in
      if String.eqb t "" then None
      else match Num.numericLiteral t with
           | Some n => if isNaN n then None else Some n
           | None => None
           end
  | _ => None
  end.

Definition coercibleNumbers (arr : list JsValue) (fieldName : string) : list JsNumber :=
  omap (fun item => coercibleNumber (Lodash.get item fieldName)) arr.

(** The aggregate of a non-empty list of numbers, in the words of the
    specification. *)
Definition aggregate (formulaType : string) (values : list JsNumber) : JsValue :=
  if String.eqb formulaType "SUM" then VNum (Lodash.sum values)
  else if String.eqb formulaType "AVERAGE" then VNum (Lodash.mean values)
  else if String.eqb formulaType "COUNT" then VNum (num_of_Z (Z.of_nat (List.length values)))
  else if String.eqb formulaType "MIN" then VNum (default (num_of_Z 0) (Lodash.min values))
  else if String.eqb formulaType "MAX" then VNum (default (num_of_Z 0) (Lodash.max values))
  else VStr ("#ERROR: Unknown formula type: " ++ formulaType).

(** The data of the scenario [{{#formula SUM items.price}}]. *)
Definition pricedItems : JsValue :=
  VObj [("items", VArr [VObj [("price", VNum (num_of_Z 10))];
                        VObj [("price", VNum (num_of_Z 20))];
                        VObj [("price", VNum (num_of_Z 30))]])].


(* ================================================================== *)
(** * A host                                                            *)
(* ================================================================== *)

(** One JavaScript host, for the closed examples: numbers print as
    [Number::toString] prescribes, the time zone is UTC, [Date.parse]
    reads the ISO format and nothing else, and [JSON.stringify] writes
    its text without white space. *)
Module UtcHost.

(** A positive finite number as a fraction [p / q]. *)
Definition fraction (m : positive) (e : Z) : Z * Z :=
  if 0 <=? e then (Z.pos m * 2 ^ e, 1) else (Z.pos m, 2 ^ (- e)).

(** [p / q < 10 ^ n] *)
Definition below_pow10 (p q n : Z) : bool :=
  if 0 <=? n then p <? q * 10 ^ n else p * 10 ^ (- n) <? q.

Fixpoint first_pow10 (fuel : nat) (p q n : Z) : Z :=
  match fuel with
  | O => n
  | S fuel' => if below_pow10 p q n then n else first_pow10 fuel' p q (n + 1)
  end.

(** The [n] with [10 ^ (n - 1) <= p / q < 10 ^ n]. *)
Definition decimalExponent (p q : Z) : Z :=
  let l := Z.log2 p - Z.log2 q - 1 in
  first_pow10 8 p q (Z.min (l * 30102) (l * 30103) / 100000).

(** [floor (p / q * 10 ^ d)] *)
Definition scaledFloor (p q d : Z) : Z :=
  if 0 <=? d then (p * 10 ^ d) / q else p / (q * 10 ^ (- d)).

(** [| s * 10 ^ d - p / q |], times a factor that depends on [d] only. *)
Definition distance (p q s d : Z) : Z :=
  if 0 <=? d then Z.abs (s * 10 ^ d * q - p) else Z.abs (s * q - p * 10 ^ (- d)).

(** The digits [s] of length [k] and the exponent [n] with
    [s * 10 ^ (n - k)] reading back as [x], if there are any; the
    nearest to [x], the even one of two equally near. *)
Definition digitsOfLength (x : JsNumber) (p q n k : Z) : option (Z * Z) :=
  let lo := scaledFloor p q (k - n) in
  let reads (s : Z) : bool :=
    (10 ^ (k - 1) <=? s) && (s <? 10 ^ k) && SFeqb (Num.ofDecimal false s (n - k)) x in
  let carry := (lo + 1 =? 10 ^ k) && SFeqb (Num.ofDecimal false (10 ^ (k - 1)) (n + 1 - k)) x in
  match reads lo, reads (lo + 1) with
  | true, true =>
      let dlo := distance p q lo (n - k) in
      let dhi := distance p q (lo + 1) (n - k) in
      if dlo <? dhi then Some (lo, n)
      else if dhi <? dlo then Some (lo + 1, n)
      else if Z.even lo then Some (lo, n) else Some (lo + 1, n)
  | true, false => Some (lo, n)
  | false, true => Some (lo + 1, n)
  | false, false => if carry then Some (10 ^ (k - 1), n + 1) else None
  end.

Fixpoint shortestDigits (fuel : nat) (x : JsNumber) (p q n k : Z) : option (Z * Z * Z) :=
  match fuel with
  | O => None
  | S fuel' =>
      match digitsOfLength x p q n k with
      | Some (s, n') => Some (s, n', k)
      | None => shortestDigits fuel' x p q n (k + 1)
      end
  end.

Fixpoint zeros (n : nat) : string :=
  match n with O => "" | S n' => String "0" (zeros n') end.

(** [Number::toString(x)] in radix 10. *)
Definition numberToString (x : JsNumber) : string :=
  match x with
  | S754_nan => "NaN"
  | S754_zero _ => "0"
  | S754_infinity false => "Infinity"
  | S754_infinity true => "-Infinity"
  | S754_finite neg m e =>
      let '(p, q) := fraction m e in
      let sign := if neg then "-" else "" in
      match shortestDigits 17 (S754_finite false m e) p q (decimalExponent p q) 1 with
      | None => "NaN"
      | Some (s, n, k) =>
          let ds := Str.ofZ s in
          sign ++
          (if (k <=? n) && (n <=? 21) then ds ++ zeros (Z.to_nat (n - k))
           else if (0 <? n) && (n <=? 21)
                then Str.substring2 ds 0 n ++ "." ++ Str.substring1 ds n
           else if (-6 <? n) && (n <=? 0)
                then "0." ++ zeros (Z.to_nat (- n)) ++ ds
           else
             let ex := n - 1 in
             let exText := (if ex <? 0 then "-" else "+") ++ Str.ofZ (Z.abs ex) in
             if k =? 1 then ds ++ "e" ++ exText
             else Str.substring2 ds 0 1 ++ "." ++ Str.substring1 ds 1 ++ "e" ++ exText)
      end
  end.

(** ** Dates, in UTC *)

(** The integer a time value holds. *)
Definition timeValue (t : JsNumber) : option Z :=
  match t with
  | S754_zero _ => Some 0
  | S754_finite neg m e =>
      let v := if 0 <=? e then Z.pos m * 2 ^ e else Z.pos m / 2 ^ (- e) in
      Some (if neg then - v else v)
  | _ => None
  end.

(** Days since 1970-01-01 of a date of the Gregorian calendar. *)
Definition daysFromCivil (y m d : Z) : Z :=
  let y' := if m <=? 2 then y - 1 else y in
  let era := y' / 400 in
  let yoe := y' - era * 400 in
  let doy := (153 * (if 2 <? m then m - 3 else m + 9) + 2) / 5 + d - 1 in
  let doe := yoe * 365 + yoe / 4 - yoe / 100 + doy in
  era * 146097 + doe - 719468.

(** Year, month and day of a number of days since 1970-01-01. *)
Definition civilFromDays (days : Z) : Z * Z * Z :=
  let z := days + 719468 in
  let era := z / 146097 in
  let doe := z - era * 146097 in
  let yoe := (doe - doe / 1460 + doe / 36524 - doe / 146096) / 365 in
  let doy := doe - (365 * yoe + yoe / 4 - yoe / 100) in
  let mp := (5 * doy + 2) / 153 in
  let d := doy - (153 * mp + 2) / 5 + 1 in
  let m := if mp <? 10 then mp + 3 else mp - 9 in
  (if m <=? 2 then yoe + era * 400 + 1 else yoe + era * 400, m, d).

Definition isLeap (y : Z) : bool :=
  ((y mod 4 =? 0) && negb (y mod 100 =? 0)) || (y mod 400 =? 0).

Definition daysInMonth (y m : Z) : Z :=
  if m =? 2 then (if isLeap y then 29 else 28)
  else if (m =? 4) || (m =? 6) || (m =? 9) || (m =? 11) then 30 else 31.

Definition pad (width : nat) (n : Z) : string :=
  let ds := Str.ofZ n in zeros (width - String.length ds) ++ ds.

Definition dayNames : list string := ["Sun"; "Mon"; "Tue"; "Wed"; "Thu"; "Fri"; "Sat"].
Definition monthNames : list string :=
  ["Jan"; "Feb"; "Mar"; "Apr"; "May"; "Jun"; "Jul"; "Aug"; "Sep"; "Oct"; "Nov"; "Dec"].

Definition yearText (y : Z) : string :=
  if y <? 0 then "-" ++ pad 6 (- y) else pad 4 y.

(** [Date.prototype.toString]. *)
Definition dateToString (t : JsNumber) : string :=
  match timeValue t with
  | None => "Invalid Date"
  | Some ms =>
      let days := ms / 86400000 in
      let inDay := ms mod 86400000 in
      let '(y, m, d) := civilFromDays days in
      nth (Z.to_nat ((days + 4) mod 7)) dayNames "" ++ " "
      ++ nth (Z.to_nat (m - 1)) monthNames "" ++ " " ++ pad 2 d ++ " " ++ yearText y ++ " "
      ++ pad 2 (inDay / 3600000) ++ ":" ++ pad 2 (inDay / 60000 mod 60) ++ ":"
      ++ pad 2 (inDay / 1000 mod 60) ++ " GMT+0000 (Coordinated Universal Time)"
  end.

(** [Date.prototype.toISOString], [None] for an invalid date. *)
Definition dateToISOString (t : JsNumber) : option string :=
  match timeValue t with
  | None => None
  | Some ms =>
      let days := ms / 86400000 in
      let inDay := ms mod 86400000 in
      let '(y, m, d) := civilFromDays days in
      Some ((if (0 <=? y) && (y <=? 9999) then pad 4 y
             else (if y <? 0 then "-" else "+") ++ pad 6 (Z.abs y))
            ++ "-" ++ pad 2 m ++ "-" ++ pad 2 d ++ "T"
            ++ pad 2 (inDay / 3600000) ++ ":" ++ pad 2 (inDay / 60000 mod 60) ++ ":"
            ++ pad 2 (inDay / 1000 mod 60) ++ "." ++ pad 3 (inDay mod 1000) ++ "Z")
  end.

(** The ISO format with a group for every field. *)
Definition ISO_FIELDS : Regex.Re :=
  let d2 (i : nat) := Regex.Group i (Regex.times 2 Regex.digit) in
  Regex.seq
    [Regex.Bol; Regex.Group 1 (Regex.times 4 Regex.digit); Regex.chr "-"; d2 2%nat;
     Regex.chr "-"; d2 3%nat;
     Regex.opt (Regex.seq
       [Regex.chr "T"; d2 4%nat; Regex.chr ":"; d2 5%nat;
        Regex.opt (Regex.Seq (Regex.chr ":") (d2 6%nat));
        Regex.opt (Regex.Seq (Regex.chr ".") (Regex.Group 7 (Regex.plus Regex.digit)));
        Regex.opt (Regex.Alt (Regex.Group 8 (Regex.chr "Z"))
          (Regex.seq [Regex.Group 8 (Regex.oneOf "+-"); d2 9%nat;
                      Regex.opt (Regex.chr ":"); d2 10%nat]))]);
     Regex.Eol].

(** [Date.parse]: the time value, [NaN] for a field out of range or a
    text outside the format. *)
Definition dateParse (s : string) : JsNumber :=
  match Regex.exec ISO_FIELDS s with
  | None => NaN
  | Some found =>
      let field (i : nat) : Z :=
        match Regex.group i (Regex.groups found) with
        | Some ds => Js.digits_val 0 ds
        | None => 0
        end in
      let millis :=
        match Regex.group 7 (Regex.groups found) with
        | Some ds => Js.digits_val 0 (String.substring 0 3 (ds ++ "00"))
        | None => 0
        end in
      let offset :=
        match Regex.group 8 (Regex.groups found) with
        | Some "-" => - (field 9%nat * 60 + field 10%nat)
        | _ => field 9%nat * 60 + field 10%nat
        end in
      let '(y, m, d) := (field 1%nat, field 2%nat, field 3%nat) in
      if (1 <=? m) && (m <=? 12) && (1 <=? d) && (d <=? daysInMonth y m)
         && (field 4%nat <=? 23) && (field 5%nat <=? 59) && (field 6%nat <=? 59)
         && (field 9%nat <=? 23) && (field 10%nat <=? 59)
      then num_of_Z (daysFromCivil y m d * 86400000
                     + field 4%nat * 3600000 + (field 5%nat - offset) * 60000
                     + field 6%nat * 1000 + millis)
      else NaN
  end.

(** ** JSON text *)

Definition hexDigit (n : Z) : ascii :=
  ascii_of_nat (Z.to_nat (if n <? 10 then 48 + n else 87 + n)).

Definition escapeChar (c : ascii) : string :=
  let n := Str.charCode c in
  if Ascii.eqb c dquote then String "\" (String dquote "")
  else if Ascii.eqb c "\" then "\\"
  else if n =? 8 then "\b"
  else if n =? 9 then "\t"
  else if n =? 10 then "\n"
  else if n =? 12 then "\f"
  else if n =? 13 then "\r"
  else if n <? 32 then "\u00" ++ String (hexDigit (n / 16)) (String (hexDigit (n mod 16)) "")
  else String c "".

Fixpoint escape (s : string) : string :=
  match s with
  | EmptyString => ""
  | String c s' => escapeChar c ++ escape s'
  end.

(** QuoteJSONString. *)
Definition quoteJSON (s : string) : string :=
  String dquote (escape s) ++ String dquote "".

(** The text of a value inside an array or as a property; a property
    that holds [undefined] is left out, an element that does is
    [null]. *)
Fixpoint jsonText (v : JsValue) : string :=
  match v with
  | VUndefined | VNull => "null"
  | VBool true => "true"
  | VBool false => "false"
  | VNum n =>
      match n with
      | S754_nan | S754_infinity _ => "null"
      | _ => numberToString n
      end
  | VStr s => quoteJSON s
  | VBigInt z => Str.ofZ z
  | VDate t =>
      match dateToISOString t with
      | Some iso => quoteJSON iso
      | None => "null"
      end
  | VArr elems =>
      "[" ++ Str.join ","
               ((fix each (l : list JsValue) : list string :=
                   match l with
                   | [] => []
                   | x :: l' => jsonText x :: each l'
                   end) elems) ++ "]"
  | VObj fields =>
      "{" ++ Str.join ","
               ((fix each (l : list (string * JsValue)) : list string :=
                   match l with
                   | [] => []
                   | (k, x) :: l' =>
                       if Js.isUndefined x then each l'
                       else (quoteJSON k ++ ":" ++ jsonText x) :: each l'
                   end) fields) ++ "}"
  end.

End UtcHost.

Definition utcHost : Host :=
  {| numberToString := UtcHost.numberToString;
     dateParse := UtcHost.dateParse;
     dateToString := UtcHost.dateToString;
     jsonText := UtcHost.jsonText |}.

(** ** Table expansion, for the statements below *)

(** The rows of a sheet after the rows [new] were put in at index [i]. *)
Definition withRowsAt (i : nat) (new : list Row) (rs : list Row) : list Row :=
  (take i (Sheet.padTo i Sheet.blankRow rs) ++ new ++ drop i rs)%list.

(** The row the template gives for an element of the array. *)
Definition filledRow `{Host} (tpl : RowTemplate) (allScopes : list JsValue)
    (options : RenderOptions) (item : JsValue) : Result Row :=
  applyRowTemplate Sheet.blankRow (templates tpl) (item :: allScopes) options.

(** The rows during the loop of [renderTable]: untouched before the
    first turn, then the original rows with the rows made so far put in
    at the anchor. *)
Definition rowsSoFar (anchorRowIndex : Z) (rows0 done current : list Row) : Prop :=
  (done = [] /\ current = rows0)
  \/ current = withRowsAt (Z.to_nat (anchorRowIndex - 1)) done rows0.


(** ** Sheets and data of the examples *)

Definition plainCell (v : JsValue) : Cell := mkCell v Sheet.blankStyle.
Definition plainRow (values : list JsValue) : Row :=
  mkRow (List.map plainCell values) false None.
Definition plainSheet (rs : list (list JsValue)) : Worksheet :=
  mkWorksheet (List.map plainRow rs) [] [] [] None.

(** A title, a table over [items] and a total. *)
Definition itemsSheet : Worksheet :=
  plainSheet [[VStr "Items"];
              [VStr "{{#table items}}"];
              [VStr "{{name}}"; VStr "{{qty}}"];
              [VStr "Total"; VStr "{{#formula SUM B}}"]].


(** The template of row 3 of [itemsSheet]. *)
Definition itemsTemplate : RowTemplate :=
  match extractRowTemplate 3 itemsSheet with
  | Ok tpl => tpl
  | Throw _ => mkRowTemplate [] [] ∅
  end.



(** ** The expansion loop, for the statements below *)

(** The state [processWorkbook] starts the expansion loop from. *)
Definition startExpansion (worksheet : Worksheet) : Expansion :=
  mkExpansion worksheet ∅ None [].

(** The offset loop of [calculateHideOffset] over the entries after the
    current one, whose anchor row is [current]. *)
Definition offsetOver (current : Z) (later : list HideEntry) (offset : Z) : Z :=
  fold_left
    (fun offset laterEntry =>
       if (insertedAt laterEntry <? current) && (0 <? rowsInserted laterEntry)
       then offset + rowsInserted laterEntry
       else offset)
    later offset.

Definition sumZ (l : list Z) : Z := foldr Z.add 0 l.






(** The runs of the expansion loop: the results of [renderTable] for the
    tables in turn, and the state reached. *)
Inductive Expands `{Host} (data : JsValue) (options : RenderOptions)
    : Expansion -> list TableMetadata -> list TableRenderResult -> Expansion -> Prop :=
  | Expands_nil (st : Expansion) : Expands data options st [] [] st
  | Expands_cons (st st' : Expansion) (t : TableMetadata) (tables : list TableMetadata)
      (ws' : Worksheet) (result : TableRenderResult) (results : list TableRenderResult) :
      renderTable (ex_worksheet st) (rowNumber t) (tm_path t) [] data options
        = Ok (ws', result) ->
      Expands data options (recordTable st t ws' result) tables results st' ->
      Expands data options st (t :: tables) (result :: results) st'.

(** Two tables, each followed by formulas, and their data. *)
Definition twoTablesSheet : Worksheet :=
  plainSheet [[VStr "{{#table items}}"];
              [VStr "{{name}}"; VStr "{{qty}}"];
              [VStr "{{#formula SUM items.qty}}"; VStr "{{#formula SUM B}}"];
              [];
              [VStr "{{#table services}}"];
              [VStr "{{label}}"; VStr "{{cost}}"];
              [VStr "{{#formula SUM services.cost}}"; VStr "{{#formula SUM cost}}"]].

Definition twoTablesData : JsValue :=
  VObj [("items", VArr [VObj [("name", VStr "A"); ("qty", VNum (num_of_Z 1))];
                        VObj [("name", VStr "B"); ("qty", VNum (num_of_Z 2))]]);
        ("services", VArr [VObj [("label", VStr "S"); ("cost", VNum (num_of_Z 5))];
                           VObj [("label", VStr "T"); ("cost", VNum (num_of_Z 6))];
                           VObj [("label", VStr "U"); ("cost", VNum (num_of_Z 7))]])].

(** The state after the expansion loop on [twoTablesSheet]. *)
Definition twoTablesExpansion : Expansion :=
  match @expandTables utcHost twoTablesSheet (scanTables twoTablesSheet)
          twoTablesData noOptions with
  | Ok st => st
  | Throw _ => startExpansion twoTablesSheet
  end.






(** A cell after the final pass: rendered when it is visited, the same
    otherwise; the style stays. *)
Definition substituted `{Host} (data : JsValue) (options : RenderOptions)
    (tableInfoMap : gmap string TableRenderInfo) (lastTableInfo : option TableRenderInfo)
    (rowVisited : bool) (cell cell' : Cell) : Prop :=
  if rowVisited && Sheet.hasValue cell
  then substituteCell data options tableInfoMap lastTableInfo (cellValue cell)
       = Ok (cellValue cell') /\ style cell' = style cell
  else cell' = cell.


(** ** Rich text and table scanning, for the statements below *)

(** A fragment of rich text whose [text] is a string without [needle]. *)
Definition plainFragment (needle : string) (fragment : JsValue) : Prop :=
  Js.isNil fragment = false
  /\ exists s, Js.getProp fragment "text" = VStr s /\ Str.includes s needle = false.

(** The callback of the two [each] loops of [scanTables]. *)
Definition collectTable (tables : list TableMetadata) (rc : Z * Z * Cell)
    : list TableMetadata :=
  let '(row, _, cell) := rc in
  match detectPlaceholder (cellValue cell) with
  | Some placeholder =>
      match type placeholder with
      | table =>
          if existsb (fun t => (row =? rowNumber t)
                               && String.eqb (path placeholder) (tm_path t)) tables
          then tables
          else (tables ++ [mkTableMetadata row (path placeholder)])%list
      | _ => tables
      end
  | None => tables
  end.

(** A cell that holds the anchor of the table [t]. *)
Definition anchorOf (t : TableMetadata) (rc : Z * Z * Cell) : Prop :=
  fst (fst rc) = rowNumber t
  /\ exists placeholder,
       detectPlaceholder (cellValue (snd rc)) = Some placeholder
       /\ type placeholder = table /\ path placeholder = tm_path t.

(** Rows in descending order: no table is anchored below one listed
    before it. *)
Fixpoint bottomUp (tables : list TableMetadata) : Prop :=
  match tables with
  | [] => True
  | t :: rest => Forall (fun u => rowNumber u <= rowNumber t) rest /\ bottomUp rest
  end.

(** ** Print area and images, for the statements below *)


(** The text of the range from the cell [(top, left)] to the cell
    [(bottom, right)], as the engine writes it. *)
Definition rangeText (top left bottom right : Z) : string :=
  columnNumberToLetter left ++ Str.ofZ top ++ ":"
  ++ columnNumberToLetter right ++ Str.ofZ bottom.









(** ** Quantifiers and cell addresses, for the statements below *)

(** The loop of a quantifier in [Regex.run], on its own. *)
Definition turns (r : Regex.Re) (k : Regex.Cont) (greedy : bool)
    : nat -> nat -> option nat -> Regex.MState -> option Regex.MState :=
  fix turn (fuel : nat) (lo : nat) (hi : option nat) (st : Regex.MState)
      {struct fuel} : option Regex.MState :=
    match fuel with
    | O => None
    | S fuel' =>
        match hi with
        | Some O => k st
        | _ =>
            let again :=
              Regex.run r st (fun st' =>
                if (lo =? 0)%nat && (Regex.pos st' =? Regex.pos st)%nat then None
                else turn fuel' (Nat.pred lo) (option_map Nat.pred hi) st') in
            if (0 <? lo)%nat then again
            else if greedy then Regex.orElse again (k st)
            else Regex.orElse (k st) again
        end
    end.

(** The state of the matcher after the characters [l1]. *)
Definition advanced (pos : nat) (l1 l2 : list ascii) (caps : list (nat * string))
    : Regex.MState :=
  Regex.mkMState (pos + List.length l1) l2 caps.

(** No character of [s] is [c]. *)
Definition without (c : ascii) (s : string) : bool :=
  Js.all_chars (fun d => negb (Ascii.eqb d c)) s.

(** ** Merges, for the statements below *)

(** The cell [(row, col)] lies in the box [b]. *)
Definition holds (b : Sheet.Box) (row col : Z) : bool :=
  (Sheet.top b <=? row) && (row <=? Sheet.bottom b)
  && (Sheet.left b <=? col) && (col <=? Sheet.right b).

(** The first merge that holds the cell, among the merges that could
    be read ([None] stands for a text without a cell address). *)
Definition firstHolding (bounds : list (option Sheet.Box)) (row col : Z)
    : option Sheet.Box :=
  List.find (fun b => holds b row col) (omap id bounds).

(** What [getMergeInfo] returns for a merge with the bounds [b]. *)
Definition infoOf (b : Sheet.Box) : MergeInfo :=
  mkMergeInfo (Sheet.top b) (Sheet.left b)
    (rangeText (Sheet.top b) (Sheet.left b) (Sheet.bottom b) (Sheet.right b)).

(** Bounds the engine can write as text and read back. *)
Definition writable (b : Sheet.Box) : Prop :=
  0 <= Sheet.top b /\ 1 <= Sheet.left b /\ 0 <= Sheet.bottom b /\ 1 <= Sheet.right b.

(** Every merge of the sheet is read without an exception, with the
    bounds listed. *)
Definition mergesRead (worksheet : Worksheet) (bounds : list (option Sheet.Box)) : Prop :=
  Forall2 (fun merge b => mergeBounds merge = Ok b) (merges worksheet) bounds.


(** The body of the [for] loop of [extractMergePatternsFromRow]. *)
Definition patternStep (worksheet : Worksheet) (rowNumber : Z)
    (st : list MergePattern * gset Z) (col : Z) : Result (list MergePattern * gset Z) :=
  let '(patterns, processedCols) := st in
  if bool_decide (col ∈ processedCols) then Ok st
  else
    mergeInfo <- getMergeInfo worksheet rowNumber col;
    match mergeInfo with
    | Some mi =>
        if master_row mi =? rowNumber then
          '(start, end_) <- splitRange (mi_range mi);
          match Regex.exec CELL_REGEX.LETTERS start,
                Regex.exec CELL_REGEX.LETTERS end_ with
          | Some startColMatch, Some endColMatch =>
              let startCol := columnLetterToNumber (Regex.matched startColMatch) in
              let endCol := columnLetterToNumber (Regex.matched endColMatch) in
              Ok ((patterns ++ [mkMergePattern startCol endCol (endCol - startCol + 1)])%list,
                  processedCols ∪ list_to_set (seqZ startCol (endCol - startCol + 1)))
          | _, _ => Ok st
          end
        else Ok st
    | None => Ok st
    end.


(** ** Hidden rows, for the statements below *)

(** A row as [clearAndHideRow] leaves it: hidden, of height 0, with
    only empty cells. *)
Definition cleared (row : Row) : Prop :=
  hidden row = true /\ height row = Some (num_of_Z 0)
  /\ Forall (fun cell => cellValue cell = VNull) (cells row).


(** The sheet [processWorkbook] makes of [twoTablesSheet]. *)
Definition twoTablesProcessed : Worksheet :=
  match @processWorksheet utcHost twoTablesSheet twoTablesData noOptions with
  | Ok ws => ws
  | Throw _ => twoTablesSheet
  end.

(** The number of elements of the array a table is bound to; 0 when
    the path does not lead to an array. *)
Definition arrayLength (v : JsValue) : Z :=
  match v with
  | VArr arr => Z.of_nat (List.length arr)
  | _ => 0
  end.

(** The hide entry the expansion loop records for the table [t]. *)
Definition entryOf (data : JsValue) (t : TableMetadata) (entry : HideEntry) : Prop :=
  insertedAt entry = rowNumber t
  /\ rowsInserted entry = arrayLength (resolve (tm_path t) [data])
  /\ he_rows entry = [rowNumber t + rowsInserted entry; rowNumber t + rowsInserted entry + 1].

(** The cell [applyRowTemplate] writes for a template that is not part
    of a merge: the rendering of the template's value, with the
    template's style and number format. *)
Definition styleOfTemplate (ct : CellTemplate) : Style :=
  if Js.truthyStr (ct_numFmt ct)
  then mkStyle (ct_numFmt ct) (appearance (ct_style ct))
  else ct_style ct.

Definition renderedFrom `{Host} (scopes : list JsValue) (options : RenderOptions)
    (ct : CellTemplate) (cell : Cell) : Prop :=
  renderCell (ct_value ct) scopes options = Ok (cellValue cell)
  /\ style cell = styleOfTemplate ct.

Definition renderTemplate `{Host} (scopes : list JsValue) (options : RenderOptions)
    (ct : CellTemplate) : Result Cell :=
  renderedValue <- renderCell (ct_value ct) scopes options;
  Ok (mkCell renderedValue (styleOfTemplate ct)).

(** No character of [s] is white space. *)
Definition spaceless (s : string) : bool :=
  Js.all_chars (fun c => negb (Str.is_space c)) s.

(** ** Matching further along the input, for the statements below *)

(** The matcher state and the match, [d] characters further on. *)
Definition shiftState (d : nat) (st : Regex.MState) : Regex.MState :=
  Regex.mkMState (Regex.pos st + d) (Regex.rest st) (Regex.caps st).

Definition shiftMatch (d : nat) (m : Regex.Match) : Regex.Match :=
  Regex.mkMatch (Regex.index m + d) (Regex.matched m) (Regex.groups m).

(** The pattern has no [^]. *)
Fixpoint bol_free (r : Regex.Re) : bool :=
  match r with
  | Regex.Chr _ | Regex.Eps | Regex.Eol => true
  | Regex.Seq a b | Regex.Alt a b => bol_free a && bol_free b
  | Regex.Rep _ _ _ r' | Regex.Group _ r' => bol_free r'
  | Regex.Bol => false
  end.

(** ** Rich text whose placeholders each lie within one fragment *)

(** A fragment with a string [text] in which a placeholder that is
    opened is also closed. *)
Definition closedFragment (fragment : JsValue) : Prop :=
  Js.isNil fragment = false
  /\ exists s, Js.getProp fragment "text" = VStr s
               /\ (Str.includes s "{{" = true -> Str.includes s "}}" = true).

(** The fragment [handleRichText] writes for such a fragment. *)
Definition renderedFragment `{Host} (scopes : list JsValue) (fragment : JsValue) : JsValue :=
  match Js.getProp fragment "text" with
  | VStr s =>
      if Str.includes s "{{"
      then VObj [("text", VStr (renderInterpolatedString s scopes));
                 ("font", Js.getProp fragment "font")]
      else fragment
  | _ => fragment
  end.

(** The quotes of the join pattern. *)
Definition isQuote (c : ascii) : bool := Ascii.eqb c dquote || Ascii.eqb c "'".

(** ** The fields of a template row *)




(** [FORMULA_TYPES] of [constants.ts]. *)
Definition FORMULA_TYPES : list string := ["SUM"; "AVERAGE"; "COUNT"; "MIN"; "MAX"].

(* ================================================================== *)
(** * Properties                                                        *)
(* ================================================================== *)

(** ** Path resolution *)

Section ResolveFacts.
Variable path : string.

Let step (result scope : JsValue) : JsValue :=
  if negb (Js.isUndefined result) then result else Lodash.get scope path.

Lemma reduce_keeps_defined (scopes : list JsValue) (v : JsValue) :
  v <> VUndefined -> fold_left step scopes v = v.
Proof.
  induction scopes as [|s scopes IH]; intros Hv; simpl; [reflexivity|].
  unfold step at 2. destruct v; try (simpl; apply IH; assumption).
  congruence.
Qed.

Lemma reduce_skips_undefined (pre rest : list JsValue) :
  Forall (fun x => Lodash.get x path = VUndefined) pre ->
  fold_left step (pre ++ rest)%list VUndefined = fold_left step rest VUndefined.
Proof.
  induction 1 as [|x pre Hx _ IH]; simpl; [reflexivity|].
  unfold step at 2. simpl. rewrite Hx. exact IH.
Qed.

Lemma reduce_first_defined (pre post : list JsValue) (s : JsValue) :
  Forall (fun x => Lodash.get x path = VUndefined) pre ->
  Lodash.get s path <> VUndefined ->
  fold_left step (pre ++ s :: post)%list VUndefined = Lodash.get s path.
Proof.
  intros Hpre Hs. rewrite reduce_skips_undefined by assumption.
  simpl. unfold step at 2. simpl. apply reduce_keeps_defined, Hs.
Qed.

Lemma resolve_unfold (scopes : list JsValue) :
  resolve path scopes = Js.coalesce (fold_left step scopes VUndefined) (VStr "").
Proof. reflexivity. Qed.

End ResolveFacts.

Lemma coalesce_not_nil (a : JsValue) : Js.isNil (Js.coalesce a (VStr "")) = false.
Proof. unfold Js.coalesce. destruct a; reflexivity. Qed.

(** C7, amended.  The value [resolve] returns comes from the first scope
    in which the path is defined; that value is returned as it is unless
    it is [null], which is returned as the empty string.  A path that is
    undefined in every scope resolves to the empty string. *)
Theorem resolve_first_defined_scope :
  (forall (path : string) (pre post : list JsValue) (s : JsValue),
      Forall (fun x => Lodash.get x path = VUndefined) pre ->
      Lodash.get s path <> VUndefined ->
      resolve path (pre ++ s :: post)%list
        = match Lodash.get s path with VNull => VStr "" | v => v end)
  /\ (forall (path : string) (scopes : list JsValue),
        Forall (fun x => Lodash.get x path = VUndefined) scopes ->
        resolve path scopes = VStr "").
Proof.
  split.
  - intros path pre post s Hpre Hs.
    rewrite resolve_unfold, reduce_first_defined by assumption.
    destruct (Lodash.get s path); try reflexivity. congruence.
  - intros path scopes Hall. rewrite resolve_unfold.
    rewrite <- (app_nil_r scopes), reduce_skips_undefined by assumption.
    reflexivity.
Qed.

Lemma resolve_first_defined_scope_witness :
  resolve "name" [VObj [("age", VNum (num_of_Z 25))]; VObj [("name", VStr "Root")];
                  VObj [("name", VStr "Outer")]]
    = VStr "Root"
  /\ resolve "name" [VObj [("age", VNum (num_of_Z 25))]] = VStr "".
Proof.
  split.
  - apply (proj1 resolve_first_defined_scope "name"
             [VObj [("age", VNum (num_of_Z 25))]] [VObj [("name", VStr "Outer")]]
             (VObj [("name", VStr "Root")])).
    + repeat constructor.
    + vm_compute. discriminate.
  - apply (proj2 resolve_first_defined_scope "name").
    repeat constructor.
Defined.

(** C7 as stated fails: the path is defined in the first scope, with the
    value [null], and [resolve] returns neither that value nor the value
    of the next scope. *)
Lemma resolve_first_defined_counterexample :
  let scopes := [VObj [("a", VNull)]; VObj [("a", VStr "later")]] in
  Lodash.get (VObj [("a", VNull)]) "a" = VNull
  /\ Lodash.get (VObj [("a", VNull)]) "a" <> VUndefined
  /\ resolve "a" scopes = VStr ""
  /\ resolve "a" scopes <> Lodash.get (VObj [("a", VNull)]) "a"
  /\ resolve "a" scopes <> Lodash.get (VObj [("a", VStr "later")]) "a".
Proof. vm_compute. repeat split; discriminate. Qed.

(** C10.  When the first scope that defines the path holds [null],
    [resolve] returns the empty string whatever the later scopes hold;
    and [resolve] never returns [null]. *)
Theorem resolve_null_shadows :
  forall (path : string) (pre post : list JsValue) (s : JsValue),
    Forall (fun x => Lodash.get x path = VUndefined) pre ->
    Lodash.get s path = VNull ->
    resolve path (pre ++ s :: post)%list = VStr ""
    /\ (forall (p : string) (scopes : list JsValue),
          resolve p scopes <> VNull /\ resolve p scopes <> VUndefined).
Proof.
  intros path pre post s Hpre Hs. split.
  - rewrite resolve_unfold, reduce_first_defined; [rewrite Hs; reflexivity|assumption|congruence].
  - intros p scopes. rewrite resolve_unfold.
    pose proof (coalesce_not_nil (fold_left
      (fun result scope => if negb (Js.isUndefined result) then result else Lodash.get scope p)
      scopes VUndefined)) as Hn.
    split; intros Heq; rewrite Heq in Hn; discriminate.
Qed.

Lemma resolve_null_shadows_witness :
  resolve "a" [VObj [("b", VNull)]; VObj [("a", VNull)]; VObj [("a", VStr "later")]] = VStr "".
Proof.
  apply (resolve_null_shadows "a" [VObj [("b", VNull)]] [VObj [("a", VStr "later")]]
           (VObj [("a", VNull)])).
  - repeat constructor.
  - reflexivity.
Defined.

(** ** Column addresses *)

Lemma append_cons (c : ascii) (a b : string) : String c a ++ b = String c (a ++ b).
Proof. reflexivity. Qed.

Lemma append_nil_l (b : string) : "" ++ b = b.
Proof. reflexivity. Qed.

Lemma append_nil_r (a : string) : a ++ "" = a.
Proof. induction a as [|c a IH]; [reflexivity|]. rewrite append_cons, IH. reflexivity. Qed.

Lemma append_assoc (a b c : string) : (a ++ b) ++ c = a ++ (b ++ c).
Proof.
  induction a as [|x a IH]; [reflexivity|]. rewrite !append_cons, IH. reflexivity.
Qed.

Lemma letter_loop_app (a b : string) (n : Z) :
  columnLetterToNumber_loop (a ++ b) n
  = columnLetterToNumber_loop b (columnLetterToNumber_loop a n).
Proof.
  revert n. induction a as [|c a IH]; intros n; [reflexivity|].
  rewrite append_cons. simpl. apply IH.
Qed.

Lemma toUpperCase_app (a b : string) :
  Str.toUpperCase (a ++ b) = Str.toUpperCase a ++ Str.toUpperCase b.
Proof.
  induction a as [|c a IH]; [reflexivity|].
  rewrite append_cons. simpl. rewrite IH. reflexivity.
Qed.

(** The character the loop produces for a remainder [m] in [0, 25]. *)
Lemma letter_of_remainder (m : Z) :
  0 <= m < 26 ->
  exists c, Str.fromCharCode (65 + m) = String c "" /\ Str.charCode c = 65 + m
            /\ Str.upper_char c = c.
Proof.
  intros Hm. exists (ascii_of_nat (Z.to_nat (65 + m))).
  assert (Hcode : nat_of_ascii (ascii_of_nat (Z.to_nat (65 + m))) = Z.to_nat (65 + m))
    by (apply nat_ascii_embedding; lia).
  split; [reflexivity|]. split.
  - unfold Str.charCode. rewrite Hcode. lia.
  - unfold Str.upper_char. rewrite Hcode.
    assert (Hlow : (97 <=? Z.to_nat (65 + m))%nat = false) by (apply Nat.leb_gt; lia).
    rewrite Hlow. reflexivity.
Qed.

(** What one run of the loop of [columnNumberToLetter] prepends: upper
    case letters whose value is [num].  The fuel is not used up. *)
Lemma number_loop_prefix (fuel : nat) :
  forall (num : Z) (letter : string),
    0 <= num -> (Z.to_nat num <= fuel)%nat ->
    exists prefix,
      columnNumberToLetter_loop fuel num letter = prefix ++ letter
      /\ columnLetterToNumber_loop prefix 0 = num
      /\ Str.toUpperCase prefix = prefix.
Proof.
  induction fuel as [|fuel IH]; intros num letter Hnum Hfuel.
  - exists "". assert (num = 0) by lia. subst. repeat split.
  - simpl. destruct (0 <? num) eqn:Hpos.
    + apply Z.ltb_lt in Hpos.
      assert (Hrem : Z.rem (num - 1) 26 = (num - 1) mod 26)
        by (apply Z.rem_mod_nonneg; lia).
      rewrite Hrem.
      set (m := (num - 1) mod 26).
      assert (Hm : 0 <= m < 26) by (apply Z.mod_pos_bound; lia).
      assert (Hdiv : (num - m) / 26 = (num - 1) / 26).
      { pose proof (Z.div_mod (num - 1) 26 ltac:(lia)) as Hdm. fold m in Hdm.
        replace (num - m) with (1 + (num - 1) / 26 * 26) by lia.
        rewrite Z.div_add by lia. rewrite Z.div_small by lia. lia. }
      rewrite Hdiv.
      destruct (letter_of_remainder m Hm) as (c & Hc & Hcode & Hup).
      rewrite Hc.
      assert (Hq : 0 <= (num - 1) / 26) by (apply Z.div_pos; lia).
      assert (Hlt : (num - 1) / 26 < num)
        by (apply Z.le_lt_trans with (num - 1); [apply Z.div_le_upper_bound; lia|lia]).
      destruct (IH ((num - 1) / 26) (String c "" ++ letter) Hq ltac:(lia))
        as (prefix & Hloop & Hval & Hupper).
      exists (prefix ++ String c ""). repeat split.
      * rewrite Hloop, append_assoc. reflexivity.
      * rewrite letter_loop_app, Hval. simpl. rewrite Hcode.
        pose proof (Z.div_mod (num - 1) 26 ltac:(lia)) as Hdm. fold m in Hdm. lia.
      * rewrite toUpperCase_app, Hupper. simpl. rewrite Hup. reflexivity.
    + apply Z.ltb_ge in Hpos. exists "". assert (num = 0) by lia. subst. repeat split.
Qed.


Lemma columnNumberToLetter_fuel_any (f1 : nat) :
  forall (f2 : nat) (num : Z) (letter : string),
    (Z.to_nat num <= f1)%nat -> (Z.to_nat num <= f2)%nat ->
    columnNumberToLetter_loop f1 num letter = columnNumberToLetter_loop f2 num letter.
Proof.
  induction f1 as [|f1 IH]; intros f2 num letter H1 H2.
  - destruct f2 as [|f2]; [reflexivity|]. simpl.
    replace (0 <? num) with false by (symmetry; apply Z.ltb_ge; lia). reflexivity.
  - destruct f2 as [|f2]; simpl.
    + replace (0 <? num) with false by (symmetry; apply Z.ltb_ge; lia). reflexivity.
    + destruct (0 <? num) eqn:Hpos; [|reflexivity].
      apply Z.ltb_lt in Hpos.
      assert (Hrem : 0 <= Z.rem (num - 1) 26 < 26).
      { rewrite Z.rem_mod_nonneg by lia. apply Z.mod_pos_bound. lia. }
      assert (Hnext : (num - Z.rem (num - 1) 26) / 26 < num)
        by (apply Z.div_lt_upper_bound; lia).
      apply IH; lia.
Qed.

(** More fuel than [num] changes nothing: the loop has ended by then. *)
Lemma columnNumberToLetter_fuel (fuel : nat) (num : Z) :
  (Z.to_nat num <= fuel)%nat ->
  columnNumberToLetter_loop fuel num "" = columnNumberToLetter num.
Proof. intros Hf. apply columnNumberToLetter_fuel_any; lia. Qed.

(** C9.  For every positive integer [n], the letters of column [n]
    convert back to [n]. *)
Theorem column_number_letter_roundtrip :
  forall n : Z, 0 < n -> columnLetterToNumber (columnNumberToLetter n) = n.
Proof.
  intros n Hn. unfold columnLetterToNumber, columnNumberToLetter.
  destruct (number_loop_prefix (Z.to_nat n) n "" ltac:(lia) ltac:(lia))
    as (prefix & Hloop & Hval & Hupper).
  rewrite Hloop, append_nil_r, Hupper. exact Hval.
Qed.

Lemma column_number_letter_roundtrip_witness :
  columnLetterToNumber (columnNumberToLetter 703) = 703.
Proof. apply (column_number_letter_roundtrip 703). lia. Defined.

(** ** Formula rendering *)

Lemma fieldNumbers_coercible (arr : list JsValue) (fieldName : string) :
  fieldNumbers arr fieldName = coercibleNumbers arr fieldName.
Proof.
  unfold fieldNumbers, coercibleNumbers.
  induction arr as [|item arr IH]; [reflexivity|].
  simpl. rewrite IH. unfold fieldNumber, coercibleNumber.
  destruct (Lodash.get item fieldName) as [| |b|n|s|z|t|l|l]; try reflexivity.
  - destruct (isNaN n); reflexivity.
  - unfold Num.ofString, Js.nonEmpty.
    destruct (String.eqb (Str.trim s) ""); simpl; [reflexivity|].
    destruct (Num.numericLiteral (Str.trim s)) as [n|]; simpl; [|reflexivity].
    destruct (isNaN n) eqn:Hn; simpl; [reflexivity|]. rewrite Hn. reflexivity.
Qed.

Lemma nonEmpty_true (s : string) : s <> "" -> Js.nonEmpty s = true.
Proof.
  intros Hs. unfold Js.nonEmpty. apply negb_true_iff, String.eqb_neq, Hs.
Qed.

Lemma length_zero_nil {A : Type} (l : list A) :
  (List.length l =? 0)%nat = match l with [] => true | _ => false end.
Proof. destruct l; reflexivity. Qed.

(** [renderFormula] without a valid table and with both names. *)
Lemma renderFormula_fallback (formulaType : string) (columnOrField : option string)
    (fieldName arrayPath : string) (tableInfo : option TableRenderInfo) (data : JsValue) :
  validTable tableInfo = false -> arrayPath <> "" -> fieldName <> "" ->
  renderFormula formulaType columnOrField (Some fieldName) (Some arrayPath) tableInfo data
  = match Lodash.get data arrayPath with
    | VArr (item :: arr) =>
        match coercibleNumbers (item :: arr) fieldName with
        | [] => VNum (num_of_Z 0)
        | values => aggregate formulaType values
        end
    | _ => VNum (num_of_Z 0)
    end.
Proof.
  intros Hti Hap Hfn. unfold renderFormula.
  rewrite (nonEmpty_true _ Hap), (nonEmpty_true _ Hfn). cbn [andb].
  destruct tableInfo as [ti|]; [cbn [validTable] in Hti; rewrite Hti|];
    (destruct (Lodash.get data arrayPath) as [| |b|n|s|z|t|arr|l]; try reflexivity;
     destruct arr as [|item arr]; [reflexivity|];
     cbn [Lodash.isEmptyArr]; rewrite fieldNumbers_coercible, length_zero_nil;
     destruct (coercibleNumbers (item :: arr) fieldName); reflexivity).
Qed.

(** [renderFormula] with a valid table and a target column. *)
Lemma renderFormula_table_column (formulaType column : string)
    (fieldName arrayPath : option string) (ti : TableRenderInfo) (data : JsValue) :
  validTable (Some ti) = true -> column <> "" ->
  renderFormula formulaType (Some column) fieldName arrayPath (Some ti) data
  = formulaObject (formulaText formulaType column ti).
Proof.
  intros Hti Hc. unfold renderFormula. simpl in Hti. rewrite Hti.
  cbn [Js.truthyStr]. rewrite (nonEmpty_true _ Hc). reflexivity.
Qed.

(** [renderFormula] with a valid table and a field of its template row. *)
Lemma renderFormula_table_field (formulaType fieldName column : string)
    (columnOrField arrayPath : option string) (ti : TableRenderInfo) (data : JsValue) :
  validTable (Some ti) = true -> Js.truthyStr columnOrField = false ->
  fieldName <> "" -> fieldColumnMap ti !! fieldName = Some column -> column <> "" ->
  renderFormula formulaType columnOrField (Some fieldName) arrayPath (Some ti) data
  = formulaObject (formulaText formulaType column ti).
Proof.
  intros Hti Hcol Hfn Hmap Hc. unfold renderFormula. simpl in Hti. rewrite Hti, Hcol.
  cbn [Js.truthyStr]. rewrite (nonEmpty_true _ Hfn). cbn [negb andb].
  change (default "" (Some fieldName)) with fieldName.
  rewrite Hmap, (nonEmpty_true _ Hc). reflexivity.
Qed.

Lemma aggregate_unknown (formulaType : string) (values : list JsNumber) :
  knownFormulaType formulaType = false ->
  aggregate formulaType values = VStr ("#ERROR: Unknown formula type: " ++ formulaType).
Proof.
  unfold knownFormulaType, aggregate. cbn [existsb]. intros Hk.
  repeat (apply orb_false_elim in Hk; destruct Hk as [-> Hk]). reflexivity.
Qed.

(** C2, amended.  For a formula type outside the five, the fallback
    returns the marker ["#ERROR: Unknown formula type: T"] once the
    array has a value that counts; the table branch does not look at the
    type and returns the formula object whose text starts with it. *)
Theorem renderFormula_unknown_type :
  forall formulaType : string,
    knownFormulaType formulaType = false ->
    (forall (column : string) (fieldName arrayPath : option string)
            (ti : TableRenderInfo) (data : JsValue),
        validTable (Some ti) = true -> column <> "" ->
        renderFormula formulaType (Some column) fieldName arrayPath (Some ti) data
        = formulaObject (formulaText formulaType column ti))
    /\ (forall (columnOrField : option string) (fieldName arrayPath : string)
               (tableInfo : option TableRenderInfo) (data : JsValue) (arr : list JsValue),
          validTable tableInfo = false -> arrayPath <> "" -> fieldName <> "" ->
          Lodash.get data arrayPath = VArr arr ->
          coercibleNumbers arr fieldName <> [] ->
          renderFormula formulaType columnOrField (Some fieldName) (Some arrayPath)
            tableInfo data
          = VStr ("#ERROR: Unknown formula type: " ++ formulaType)).
Proof.
  intros formulaType Hk. split.
  - intros. apply renderFormula_table_column; assumption.
  - intros columnOrField fieldName arrayPath tableInfo data arr Hti Hap Hfn Hget Hvals.
    rewrite renderFormula_fallback, Hget by assumption.
    destruct arr as [|item arr]; [exfalso; apply Hvals; reflexivity|].
    destruct (coercibleNumbers (item :: arr) fieldName) eqn:Hc; [congruence|].
    apply aggregate_unknown, Hk.
Qed.

Lemma renderFormula_unknown_type_witness :
  renderFormula "MEDIAN" (Some "C") None None
    (Some (mkTableRenderInfo 5 10 "items" ∅)) (VObj [])
    = formulaObject "MEDIAN(C5:C10)"
  /\ renderFormula "MEDIAN" None (Some "price") (Some "items") None pricedItems
     = VStr "#ERROR: Unknown formula type: MEDIAN".
Proof.
  destruct (renderFormula_unknown_type "MEDIAN" eq_refl) as [Htable Hdata]. split.
  - apply (Htable "C" None None (mkTableRenderInfo 5 10 "items" ∅) (VObj [])).
    + reflexivity.
    + discriminate.
  - apply (Hdata None "price" "items" None pricedItems
             [VObj [("price", VNum (num_of_Z 10))];
              VObj [("price", VNum (num_of_Z 20))];
              VObj [("price", VNum (num_of_Z 30))]]).
    + reflexivity.
    + discriminate.
    + discriminate.
    + reflexivity.
    + vm_compute. discriminate.
Defined.

(** C2 as stated fails in both branches: with a table the unknown type
    goes into a formula object, and without one an empty array gives the
    number 0; neither is a string that starts with ["#ERROR:"]. *)
Lemma renderFormula_unknown_type_counterexample :
  knownFormulaType "MEDIAN" = false
  /\ renderFormula "MEDIAN" (Some "C") None None
       (Some (mkTableRenderInfo 5 10 "items" ∅)) (VObj [])
     = VObj [("formula", VStr "MEDIAN(C5:C10)")]
  /\ renderFormula "MEDIAN" None (Some "price") (Some "items") None
       (VObj [("items", VArr [])])
     = VNum (num_of_Z 0).
Proof. vm_compute. repeat split. Qed.

Lemma detect_sum_items_price :
  detectPlaceholder (VStr "{{#formula SUM items.price}}")
  = Some (mkPlaceholder formula "items.price" None (Some "SUM") None
            (Some "items") (Some "price")).
Proof. vm_compute. reflexivity. Qed.

(** C6.  Without a valid table and with both names, [renderFormula]
    reads the array from the root data: anything but a non-empty array
    gives the number 0; otherwise the fields that count as numbers are
    aggregated.  The cell [{{#formula SUM items.price}}] over the three
    prices 10, 20 and 30, with no table recorded for [items], becomes
    the number 60. *)
Theorem renderFormula_data_fallback :
  (forall (formulaType : string) (columnOrField : option string)
          (fieldName arrayPath : string) (tableInfo : option TableRenderInfo)
          (data : JsValue),
      validTable tableInfo = false -> arrayPath <> "" -> fieldName <> "" ->
      ((forall item arr, Lodash.get data arrayPath <> VArr (item :: arr)) ->
       renderFormula formulaType columnOrField (Some fieldName) (Some arrayPath)
         tableInfo data = VNum (num_of_Z 0))
      /\ (forall item arr,
            Lodash.get data arrayPath = VArr (item :: arr) ->
            renderFormula formulaType columnOrField (Some fieldName) (Some arrayPath)
              tableInfo data
            = match coercibleNumbers (item :: arr) fieldName with
              | [] => VNum (num_of_Z 0)
              | values => aggregate formulaType values
              end))
  /\ (forall (host : Host) (options : RenderOptions)
             (tableInfoMap : gmap string TableRenderInfo)
             (lastTableInfo : option TableRenderInfo),
        tableInfoMap !! "items" = None ->
        substituteCell pricedItems options tableInfoMap lastTableInfo
          (VStr "{{#formula SUM items.price}}")
        = Ok (VNum (num_of_Z 60))).
Proof.
  split.
  - intros formulaType columnOrField fieldName arrayPath tableInfo data Hti Hap Hfn.
    rewrite renderFormula_fallback by assumption. split.
    + intros Hnot. destruct (Lodash.get data arrayPath) as [| |b|n|s|z|t|arr|l];
        try reflexivity.
      destruct arr as [|item arr]; [reflexivity|]. exfalso. apply (Hnot item arr). reflexivity.
    + intros item arr Hget. rewrite Hget. reflexivity.
  - intros host options tableInfoMap lastTableInfo Hnone.
    unfold substituteCell. rewrite detect_sum_items_price.
    cbn [type formulaType column fieldName arrayPath Js.truthyStr].
    unfold selectTableInfo.
    cbn [type formulaType column fieldName arrayPath Js.truthyStr].
    change (Js.nonEmpty "SUM") with true. change (Js.nonEmpty "items") with true.
    cbn iota. change (default "" (Some "items")) with "items". rewrite Hnone.
    vm_compute. reflexivity.
Qed.

Lemma renderFormula_data_fallback_witness :
  (renderFormula "SUM" None (Some "price") (Some "items") None (VObj [("items", VStr "none")])
     = VNum (num_of_Z 0)
   /\ renderFormula "SUM" None (Some "price") (Some "items") None pricedItems
      = VNum (num_of_Z 60))
  /\ @substituteCell utcHost pricedItems noOptions ∅ None (VStr "{{#formula SUM items.price}}")
     = Ok (VNum (num_of_Z 60)).
Proof.
  split; [|apply (proj2 renderFormula_data_fallback utcHost noOptions ∅ None); reflexivity].
  destruct (proj1 renderFormula_data_fallback "SUM" None "price" "items" None
              (VObj [("items", VStr "none")]) eq_refl ltac:(discriminate) ltac:(discriminate))
    as [Hzero _].
  destruct (proj1 renderFormula_data_fallback "SUM" None "price" "items" None
              pricedItems eq_refl ltac:(discriminate) ltac:(discriminate))
    as [_ Hsum].
  split.
  - apply Hzero. intros item arr. vm_compute. discriminate.
  - rewrite (Hsum (VObj [("price", VNum (num_of_Z 10))])
               [VObj [("price", VNum (num_of_Z 20))]; VObj [("price", VNum (num_of_Z 30))]]
               eq_refl).
    vm_compute. reflexivity.
Defined.

(** ** Value rendering *)

Lemma digit_code (d : ascii) :
  Js.is_digit d = true -> (48 <= nat_of_ascii d <= 57)%nat.
Proof.
  unfold Js.is_digit. intros Hd. apply andb_true_iff in Hd as [H1 H2].
  apply Nat.leb_le in H1, H2. lia.
Qed.

Lemma digit_not_char (d c : ascii) :
  Js.is_digit d = true -> Js.is_digit c = false -> Ascii.eqb d c = false.
Proof.
  intros Hd Hc. destruct (Ascii.eqb d c) eqn:Heq; [|reflexivity].
  apply Ascii.eqb_eq in Heq. subst. congruence.
Qed.

Lemma digit_not_space (d : ascii) : Js.is_digit d = true -> Str.is_space d = false.
Proof.
  intros Hd. apply digit_code in Hd. unfold Str.is_space.
  repeat (apply orb_false_intro); try apply andb_false_intro2;
    first [apply Nat.leb_gt; lia | apply Nat.eqb_neq; lia].
Qed.

(** [trimEnd] keeps everything up to a character that is not white
    space. *)
Lemma trimEnd_cons_nonspace (c : ascii) (s : string) :
  Str.is_space c = false -> exists s', Str.trimEnd (String c s) = String c s'.
Proof.
  intros Hc. simpl. destruct (Str.trimEnd s) as [|c' t].
  - rewrite Hc. eexists. reflexivity.
  - eexists. reflexivity.
Qed.

Lemma trimEnd_cons_keep (c : ascii) (s : string) (c' : ascii) (t : string) :
  Str.trimEnd s = String c' t -> Str.trimEnd (String c s) = String c (String c' t).
Proof. intros Hs. simpl. rewrite Hs. reflexivity. Qed.

(** A string that begins with four digits and a hyphen is not a number. *)
Lemma date_like_not_numeric (d0 d1 d2 d3 : ascii) (tl : string) :
  Js.is_digit d0 = true -> Js.is_digit d1 = true ->
  Js.is_digit d2 = true -> Js.is_digit d3 = true ->
  Num.ofString (String d0 (String d1 (String d2 (String d3 (String "-" tl))))) = NaN.
Proof.
  intros H0 H1 H2 H3. unfold Num.ofString, Str.trim.
  cbn [Str.trimStart]. rewrite (digit_not_space d0 H0).
  destruct (trimEnd_cons_nonspace "-" tl eq_refl) as [tl' Htl].
  rewrite (trimEnd_cons_keep d0 _ d1 (String d2 (String d3 (String "-" tl'))));
    [|rewrite (trimEnd_cons_keep d1 _ d2 (String d3 (String "-" tl')));
      [reflexivity|rewrite (trimEnd_cons_keep d2 _ d3 (String "-" tl'));
        [reflexivity|rewrite (trimEnd_cons_keep d3 _ "-" tl'); [reflexivity|exact Htl]]]].
  cbn [String.eqb]. unfold Num.numericLiteral.
  rewrite !(digit_not_char d1) by (assumption || reflexivity).
  rewrite !andb_false_r. cbn [orb].
  unfold Num.decimalLiteral, Num.signOf.
  rewrite !(digit_not_char d0) by (assumption || reflexivity).
  cbn [String.eqb]. rewrite (digit_not_char d0 "I") by (assumption || reflexivity).
  cbn [Num.span]. rewrite H0, H1, H2, H3.
  change (Js.is_digit "-") with false. cbn iota beta.
  change (Ascii.eqb "-" ".") with false. cbn iota beta.
  reflexivity.
Qed.

(** A pattern that begins with [^] matches at the first index only. *)
Lemma search_anchored (r : Regex.Re) (input : list ascii) (p : nat) :
  Regex.search (Regex.Seq Regex.Bol r) (S p) input = None.
Proof.
  revert p. induction input as [|c input IH]; intros p; simpl; [reflexivity|].
  apply IH.
Qed.

Lemma exec_anchored (r : Regex.Re) (s : string) :
  Regex.exec (Regex.Seq Regex.Bol r) s
  = Regex.matchHere (Regex.Seq Regex.Bol r) 0 (list_ascii_of_string s).
Proof.
  unfold Regex.exec. destruct (list_ascii_of_string s) as [|c input]; simpl.
  - destruct (Regex.matchHere _ _ _); reflexivity.
  - rewrite search_anchored.
    destruct (Regex.matchHere _ _ _); reflexivity.
Qed.

(** What a match of four digits and a hyphen at the start says about
    the input. *)
Lemma run_date_prefix (r : Regex.Re) (input : list ascii) (k : Regex.Cont) :
  Regex.run (Regex.Seq Regex.Bol
               (Regex.Seq (Regex.times 4 Regex.digit) (Regex.Seq (Regex.chr "-") r)))
            (Regex.mkMState 0 input []) k <> None ->
  exists d0 d1 d2 d3 tl,
    input = d0 :: d1 :: d2 :: d3 :: "-"%char :: tl
    /\ Js.is_digit d0 = true /\ Js.is_digit d1 = true
    /\ Js.is_digit d2 = true /\ Js.is_digit d3 = true.
Proof.
  intros Hrun.
  destruct input as [|d0 [|d1 [|d2 [|d3 [|c tl]]]]];
    cbn [Regex.run Regex.times Regex.digit Regex.chr Regex.rest Regex.pos Regex.caps
         Nat.eqb] in Hrun;
    repeat match type of Hrun with
           | context [if Js.is_digit ?d then _ else _] =>
               let E := fresh "Hd" in
               destruct (Js.is_digit d) eqn:E;
               cbn [Regex.run Regex.times Regex.digit Regex.chr Regex.rest Regex.pos
                    Regex.caps Nat.eqb] in Hrun
           end;
    try congruence.
  destruct (Ascii.eqb "-" c) eqn:Hc; [|congruence].
  apply Ascii.eqb_eq in Hc. subst c.
  exists d0, d1, d2, d3, tl. repeat split; assumption.
Qed.

Lemma iso_date_not_numeric (t : string) :
  Regex.test ISO_DATE t = true -> Num.ofString t = NaN.
Proof.
  unfold Regex.test. intros Htest.
  destruct (Regex.exec ISO_DATE t) as [found|] eqn:Hexec; [|discriminate].
  unfold ISO_DATE in Hexec. cbn [Regex.seq] in Hexec.
  rewrite exec_anchored in Hexec. unfold Regex.matchHere in Hexec.
  match type of Hexec with
  | match ?run with _ => _ end = _ =>
      assert (Hrun : run <> None) by (destruct run; [discriminate|discriminate Hexec])
  end.
  apply run_date_prefix in Hrun as (d0 & d1 & d2 & d3 & tl & Hin & H0 & H1 & H2 & H3).
  rewrite <- (string_of_list_ascii_of_string t), Hin. cbn [string_of_list_ascii].
  apply date_like_not_numeric; assumption.
Qed.

(** Rounding an integer never gives [NaN]. *)
Lemma shr_1_nonneg (mrs : shr_record) : 0 <= shr_m mrs -> 0 <= shr_m (shr_1 mrs).
Proof.
  destruct mrs as [m r s]. simpl. intros Hm.
  destruct m as [|p|p]; [simpl; lia| |lia].
  destruct p; simpl; lia.
Qed.

Lemma iter_shr_1_nonneg (p : positive) (mrs : shr_record) :
  0 <= shr_m mrs -> 0 <= shr_m (SpecFloat.iter_pos shr_1 p mrs).
Proof.
  revert mrs. induction p as [p IH|p IH|]; intros mrs Hm; simpl.
  - apply IH, IH, shr_1_nonneg, Hm.
  - apply IH, IH, Hm.
  - apply shr_1_nonneg, Hm.
Qed.

Lemma shr_fexp_nonneg (m e : Z) (l : location) :
  0 <= m -> 0 <= shr_m (fst (shr_fexp 53 1024 m e l)).
Proof.
  intros Hm. unfold shr_fexp, shr.
  assert (H0 : shr_m (shr_record_of_loc m l) = m)
    by (destruct l as [|[| |]]; reflexivity).
  destruct (fexp 53 1024 (Zdigits2 m + e) - e) as [|p|p]; simpl; try lia.
  apply iter_shr_1_nonneg. lia.
Qed.

Lemma round_nearest_even_nonneg (m : Z) (l : location) :
  0 <= m -> 0 <= round_nearest_even m l.
Proof.
  intros Hm. destruct l as [|[| |]]; simpl; try lia.
  destruct (Z.even m); lia.
Qed.

Lemma binary_round_aux_not_NaN (sx : bool) (mx ex : Z) (lx : location) :
  0 <= mx -> isNaN (binary_round_aux 53 1024 sx mx ex lx) = false.
Proof.
  intros Hm. unfold binary_round_aux.
  pose proof (shr_fexp_nonneg mx ex lx Hm) as H1.
  destruct (shr_fexp 53 1024 mx ex lx) as [mrs' e'].
  pose proof (shr_fexp_nonneg
                (round_nearest_even (shr_m mrs') (loc_of_shr_record mrs')) e' loc_Exact
                (round_nearest_even_nonneg _ _ H1)) as H2.
  destruct (shr_fexp 53 1024 _ e' loc_Exact) as [mrs'' e''].
  simpl in H2. destruct (shr_m mrs'') as [|p|p]; [reflexivity| |lia].
  destruct (e'' <=? 1024 - 53); reflexivity.
Qed.

Lemma num_of_Z_not_NaN (z : Z) : isNaN (num_of_Z z) = false.
Proof.
  unfold num_of_Z, binary_normalize. destruct z as [|p|p]; [reflexivity| |];
    unfold binary_round;
    destruct (shl_align p 0 (fexp 53 1024 (Z.pos (digits2_pos p) + 0))) as [mz ez];
    apply binary_round_aux_not_NaN; lia.
Qed.

(** A string of digits reads as the integer it denotes. *)
Lemma all_digits_span (ds : string) :
  Js.all_chars Js.is_digit ds = true -> Num.span Js.is_digit ds = (ds, "").
Proof.
  induction ds as [|c ds IH]; intros Hall; [reflexivity|].
  simpl in Hall. apply andb_true_iff in Hall as [Hc Hds].
  simpl. rewrite Hc, (IH Hds). reflexivity.
Qed.

Lemma all_digits_trimEnd (ds : string) :
  Js.all_chars Js.is_digit ds = true -> Str.trimEnd ds = ds.
Proof.
  induction ds as [|c ds IH]; intros Hall; [reflexivity|].
  simpl in Hall. apply andb_true_iff in Hall as [Hc Hds].
  simpl. rewrite (IH Hds). destruct ds; [|reflexivity].
  rewrite (digit_not_space c Hc). reflexivity.
Qed.

Lemma all_digits_trim (ds : string) :
  Js.all_chars Js.is_digit ds = true -> Str.trim ds = ds.
Proof.
  intros Hall. unfold Str.trim.
  destruct ds as [|c ds]; [reflexivity|].
  pose proof Hall as Hall'. simpl in Hall. apply andb_true_iff in Hall as [Hc _].
  cbn [Str.trimStart]. rewrite (digit_not_space c Hc).
  apply all_digits_trimEnd, Hall'.
Qed.

Lemma digits_decimalLiteral (c : ascii) (ds : string) :
  Js.all_chars Js.is_digit (String c ds) = true ->
  Num.decimalLiteral (String c ds) = Some (num_of_Z (Js.digits_val 0 (String c ds))).
Proof.
  intros Hall. pose proof Hall as Hall'.
  simpl in Hall. apply andb_true_iff in Hall as [Hc _].
  unfold Num.decimalLiteral, Num.signOf.
  rewrite !(digit_not_char c) by (assumption || reflexivity).
  cbn [String.eqb]. rewrite (digit_not_char c "I") by (assumption || reflexivity).
  rewrite (all_digits_span _ Hall'). cbn [String.eqb andb].
  rewrite append_nil_r. cbn [String.length Z.of_nat Z.opp].
  unfold Num.ofDecimal. destruct (Js.digits_val 0 (String c ds) =? 0) eqn:Hz.
  - apply Z.eqb_eq in Hz. rewrite Hz. reflexivity.
  - cbn [Z.leb Z.compare]. rewrite Z.pow_0_r, Z.mul_1_r. reflexivity.
Qed.

Lemma digits_ofString (ds : string) :
  ds <> "" -> Js.all_chars Js.is_digit ds = true ->
  Num.ofString ds = num_of_Z (Js.digits_val 0 ds).
Proof.
  intros Hne Hall. unfold Num.ofString. rewrite (all_digits_trim _ Hall).
  destruct ds as [|c0 ds]; [congruence|]. cbn [String.eqb].
  unfold Num.numericLiteral. destruct ds as [|c1 ds].
  - rewrite (digits_decimalLiteral _ _ Hall). reflexivity.
  - assert (Hc1 : Js.is_digit c1 = true).
    { simpl in Hall. apply andb_true_iff in Hall as [_ Hall].
      apply andb_true_iff in Hall as [Hc1 _]. exact Hc1. }
    rewrite !(digit_not_char c1) by (assumption || reflexivity).
    rewrite !andb_false_r. rewrite (digits_decimalLiteral _ _ Hall). reflexivity.
Qed.

(** [renderValue] on a string that reads as a number. *)
Lemma renderValue_numeric `{Host} (path : string) (scopes : list JsValue) (s : string)
    (options : RenderOptions) :
  resolve path scopes = VStr s ->
  Str.trim s <> "" ->
  isNaN (Num.ofString (Str.trim s)) = false ->
  renderValue path scopes options
  = if bool_decide (autoParseNumbers options = Some true)
    then Ok (VNum (Num.ofString (Str.trim s)))
    else Ok (VStr s).
Proof.
  intros Hres Hne Hnum. unfold renderValue. rewrite Hres.
  cbn [Js.isNil Js.isDate Js.isNumber].
  apply String.eqb_neq in Hne as Heq. rewrite Heq.
  unfold Js.nonEmpty. rewrite Heq, Hnum. cbn [negb andb].
  rewrite andb_true_r.
  destruct (bool_decide (autoParseNumbers options = Some true)); [reflexivity|].
  destruct (Regex.test ISO_DATE (Str.trim s)) eqn:Hiso; [|reflexivity].
  apply iso_date_not_numeric in Hiso. rewrite Hiso in Hnum. discriminate.
Qed.

(** C8.  A string that reads as a number is rendered as it is, leading
    zeros included, unless [autoParseNumbers] is set; with the option it
    is rendered as the number it reads as, which for a string of digits
    is the integer they denote. *)
Theorem renderValue_numeric_string :
  forall (host : Host) (path : string) (scopes : list JsValue) (s : string),
    resolve path scopes = VStr s ->
    Str.trim s <> "" ->
    isNaN (Num.ofString (Str.trim s)) = false ->
    (forall options : RenderOptions,
        autoParseNumbers options <> Some true ->
        renderValue path scopes options = Ok (VStr s))
    /\ (forall options : RenderOptions,
          autoParseNumbers options = Some true ->
          renderValue path scopes options = Ok (VNum (Num.ofString (Str.trim s))))
    /\ (Js.all_chars Js.is_digit s = true ->
        Num.ofString (Str.trim s) = num_of_Z (Js.digits_val 0 s)).
Proof.
  intros host path scopes s Hres Hne Hnum. repeat split.
  - intros options Hopt. rewrite (renderValue_numeric path scopes s) by assumption.
    rewrite bool_decide_eq_false_2 by assumption. reflexivity.
  - intros options Hopt. rewrite (renderValue_numeric path scopes s) by assumption.
    rewrite bool_decide_eq_true_2 by assumption. reflexivity.
  - intros Hall. rewrite (all_digits_trim _ Hall) in *.
    apply digits_ofString; assumption.
Qed.

Lemma renderValue_numeric_string_witness :
  @renderValue utcHost "zip" [VObj [("zip", VStr "00501")]] noOptions = Ok (VStr "00501")
  /\ @renderValue utcHost "zip" [VObj [("zip", VStr "00501")]] (mkRenderOptions (Some true))
     = Ok (VNum (num_of_Z 501)).
Proof.
  destruct (renderValue_numeric_string utcHost "zip" [VObj [("zip", VStr "00501")]] "00501"
              eq_refl ltac:(discriminate) eq_refl) as (Hoff & Hon & Hdigits).
  split.
  - apply Hoff. discriminate.
  - rewrite (Hon (mkRenderOptions (Some true)) eq_refl), (Hdigits eq_refl). reflexivity.
Defined.

(** ** Table expansion *)

(** ** Loops that may throw *)

Lemma bind_Ok {A B : Type} (r : Result A) (k : A -> Result B) (b : B) :
  bind r k = Ok b -> exists a, r = Ok a /\ k a = Ok b.
Proof. destruct r as [a|e]; simpl; [eauto|discriminate]. Qed.


(** ** Rows of a worksheet *)

Lemma nth_padTo {A : Type} (n j : nat) (d : A) (l : list A) :
  nth j (Sheet.padTo n d l) d = nth j l d.
Proof.
  unfold Sheet.padTo. destruct (Nat.lt_ge_cases j (List.length l)) as [Hlt|Hge].
  - apply app_nth1, Hlt.
  - rewrite app_nth2 by exact Hge. rewrite (nth_overflow l) by exact Hge.
    apply nth_repeat.
Qed.

Lemma length_padTo {A : Type} (n : nat) (d : A) (l : list A) :
  List.length (Sheet.padTo n d l) = Nat.max n (List.length l).
Proof. unfold Sheet.padTo. rewrite length_app, repeat_length. lia. Qed.

Lemma length_take_padTo {A : Type} (n : nat) (d : A) (l : list A) :
  List.length (take n (Sheet.padTo n d l)) = n.
Proof. rewrite length_take, length_padTo. lia. Qed.




Lemma nth_withRowsAt_new (i k : nat) (new rs : list Row) :
  (k < List.length new)%nat ->
  nth (i + k) (withRowsAt i new rs) Sheet.blankRow = nth k new Sheet.blankRow.
Proof.
  intros Hk. unfold withRowsAt.
  rewrite app_nth2 by (rewrite length_take_padTo; lia).
  rewrite length_take_padTo. replace (i + k - i)%nat with k by lia.
  apply app_nth1, Hk.
Qed.


Lemma withRowsAt_snoc (i : nat) (new : list Row) (x : Row) (rs : list Row) :
  withRowsAt (i + List.length new) [x] (withRowsAt i new rs)
  = withRowsAt i (new ++ [x]) rs.
Proof.
  unfold withRowsAt at 1.
  assert (Hlen : List.length (take i (Sheet.padTo i Sheet.blankRow rs)) = i)
    by apply length_take_padTo.
  assert (Hsplit : withRowsAt i new rs
                   = ((take i (Sheet.padTo i Sheet.blankRow rs) ++ new) ++ drop i rs)%list)
    by (unfold withRowsAt; rewrite <- app_assoc; reflexivity).
  assert (Hl : List.length (take i (Sheet.padTo i Sheet.blankRow rs) ++ new)
               = (i + List.length new)%nat) by (rewrite length_app; lia).
  rewrite Hsplit at 2. rewrite <- Hl at 3. rewrite drop_app_length.
  unfold Sheet.padTo at 1.
  replace (i + List.length new - List.length (withRowsAt i new rs))%nat with 0%nat
    by (rewrite Hsplit, length_app; lia).
  simpl repeat. rewrite app_nil_r.
  rewrite Hsplit at 1. rewrite <- Hl at 1. rewrite take_app_length.
  unfold withRowsAt. rewrite <- !app_assoc. reflexivity.
Qed.

Lemma insertRow_rows (ws : Worksheet) (pos : Z) :
  rows (Sheet.insertRow ws pos)
  = withRowsAt (Z.to_nat (pos - 1)) [Sheet.blankRow] (rows ws).
Proof. reflexivity. Qed.

Lemma getRow_insertRow (ws : Worksheet) (pos : Z) :
  Sheet.getRow (Sheet.insertRow ws pos) pos = Sheet.blankRow.
Proof.
  unfold Sheet.getRow. rewrite insertRow_rows.
  rewrite <- (Nat.add_0_r (Z.to_nat (pos - 1))) at 1.
  rewrite nth_withRowsAt_new by (simpl; lia). reflexivity.
Qed.

Lemma setRow_insertRow (ws : Worksheet) (pos : Z) (x : Row) :
  rows (Sheet.setRow (Sheet.insertRow ws pos) pos x)
  = withRowsAt (Z.to_nat (pos - 1)) [x] (rows ws).
Proof.
  unfold Sheet.setRow, Sheet.setRows, Sheet.setNth. cbn [rows].
  rewrite insertRow_rows. unfold withRowsAt.
  set (i := Z.to_nat (pos - 1)).
  set (pre := take i (Sheet.padTo i Sheet.blankRow (rows ws))).
  assert (Hlen : List.length pre = i) by apply length_take_padTo.
  unfold Sheet.padTo at 1.
  replace (S i - List.length (pre ++ [Sheet.blankRow] ++ drop i (rows ws)))%nat with 0%nat
    by (rewrite !length_app; simpl; lia).
  simpl repeat. rewrite app_nil_r.
  rewrite insert_app_r_alt by lia. rewrite Hlen, Nat.sub_diag. reflexivity.
Qed.

Lemma unMergeCells_rows (ws ws' : Worksheet) (range : string) :
  SheetMerge.unMergeCells ws range = Ok ws' -> rows ws' = rows ws.
Proof.
  unfold SheetMerge.unMergeCells. destruct (SheetMerge.decode range); [|discriminate].
  intros [= <-]. reflexivity.
Qed.

Lemma mergeCells_rows (ws ws' : Worksheet) (range : string) :
  SheetMerge.mergeCells ws range = Ok ws' -> rows ws' = rows ws.
Proof.
  unfold SheetMerge.mergeCells. destruct (SheetMerge.decode range); [|discriminate].
  destruct (existsb _ _); [discriminate|]. intros [= <-]. reflexivity.
Qed.

Lemma applyMergePatternsToRow_rows (patterns : list MergePattern) :
  forall (ws : Worksheet) (rowNumber : Z),
    rows (applyMergePatternsToRow ws rowNumber patterns) = rows ws.
Proof.
  unfold applyMergePatternsToRow.
  induction patterns as [|pattern patterns IH]; intros ws rowNumber; [reflexivity|].
  cbn [fold_left]. rewrite IH.
  destruct (SheetMerge.unMergeCells ws _) as [ws1|e] eqn:Hun; [|reflexivity].
  destruct (SheetMerge.mergeCells ws1 _) as [ws2|e] eqn:Hme.
  - rewrite (mergeCells_rows _ _ _ Hme). apply (unMergeCells_rows _ _ _ Hun).
  - apply (unMergeCells_rows _ _ _ Hun).
Qed.

Lemma adjustImageAnchors_rows (ws : Worksheet) (insertPosition rowsAdded : Z) :
  rows (adjustImageAnchors ws insertPosition rowsAdded) = rows ws.
Proof. unfold adjustImageAnchors. destruct (images ws); reflexivity. Qed.

Section InsertItems.
Context `{Host}.
Variables (anchorRowIndex : Z) (tpl : RowTemplate) (allScopes : list JsValue)
          (options : RenderOptions).
Hypothesis anchor_positive : 1 <= anchorRowIndex.

Lemma insertItem_rows (ws : Worksheet) (k : nat) (item : JsValue) :
  insertItem anchorRowIndex tpl allScopes options ws (Z.of_nat k, item)
  = bind (filledRow tpl allScopes options item) (fun filled =>
      Ok (applyMergePatternsToRow
            (Sheet.setRow (Sheet.insertRow ws (anchorRowIndex + Z.of_nat k))
                          (anchorRowIndex + Z.of_nat k) filled)
            (anchorRowIndex + Z.of_nat k) (mergePatterns tpl))).
Proof. unfold insertItem, filledRow. rewrite getRow_insertRow. reflexivity. Qed.

Lemma insertItem_Ok (ws ws' : Worksheet) (k : nat) (item : JsValue) :
  insertItem anchorRowIndex tpl allScopes options ws (Z.of_nat k, item) = Ok ws' ->
  exists filled,
    filledRow tpl allScopes options item = Ok filled
    /\ rows ws' = withRowsAt (Z.to_nat (anchorRowIndex - 1) + k) [filled] (rows ws).
Proof.
  rewrite insertItem_rows. intros Hbind.
  apply bind_Ok in Hbind as (filled & Hfilled & Hws). injection Hws as <-.
  exists filled. split; [exact Hfilled|].
  rewrite applyMergePatternsToRow_rows, setRow_insertRow. f_equal. lia.
Qed.

Lemma rowsSoFar_step (rows0 done current : list Row) (filled : Row) :
  rowsSoFar anchorRowIndex rows0 done current ->
  rowsSoFar anchorRowIndex rows0 (done ++ [filled])
    (withRowsAt (Z.to_nat (anchorRowIndex - 1) + List.length done) [filled] current).
Proof.
  intros [[Hd Hc] | Hc]; subst; right.
  - simpl. rewrite Nat.add_0_r. reflexivity.
  - apply withRowsAt_snoc.
Qed.

Lemma insertItems_Ok (rows0 : list Row) (items : list JsValue) :
  forall (done : list Row) (ws ws' : Worksheet),
    rowsSoFar anchorRowIndex rows0 done (rows ws) ->
    foldM (insertItem anchorRowIndex tpl allScopes options)
          (imap (fun j x => (Z.of_nat (List.length done + j), x)) items) ws = Ok ws' ->
    exists outs,
      Forall2 (fun item row => filledRow tpl allScopes options item = Ok row) items outs
      /\ rowsSoFar anchorRowIndex rows0 (done ++ outs) (rows ws').
Proof.
  induction items as [|item items IH]; intros done ws ws' Hinv Hfold.
  - injection Hfold as <-. exists []. rewrite app_nil_r. split; [constructor|exact Hinv].
  - cbn [imap foldM] in Hfold. rewrite Nat.add_0_r in Hfold.
    apply bind_Ok in Hfold as (ws1 & Hitem & Hrest).
    apply insertItem_Ok in Hitem as (filled & Hfilled & Hrows).
    pose proof (rowsSoFar_step _ _ _ filled Hinv) as Hinv1. rewrite <- Hrows in Hinv1.
    assert (Hshift : imap ((fun j x => (Z.of_nat (List.length done + j), x)) ∘ S) items
                     = imap (fun j x => (Z.of_nat (List.length (done ++ [filled]) + j), x)) items).
    { apply imap_ext. intros j x _. simpl. rewrite length_app. simpl.
      do 2 f_equal. lia. }
    rewrite Hshift in Hrest.
    destruct (IH _ _ _ Hinv1 Hrest) as (outs & Hall & Hfinal).
    exists (filled :: outs). split; [constructor; assumption|].
    rewrite <- app_assoc in Hfinal. exact Hfinal.
Qed.


End InsertItems.


(** What a successful run of [renderTable] returns and does to the rows,
    by the ways it can end. *)
Lemma renderTable_Ok `{Host} (ws ws' : Worksheet) (anchorRowIndex : Z) (arrayPath : string)
    (scopes : list JsValue) (rootData : JsValue) (options : RenderOptions)
    (result : TableRenderResult) :
  1 <= anchorRowIndex ->
  renderTable ws anchorRowIndex arrayPath scopes rootData options = Ok (ws', result) ->
  (tableInfo result = None
   /\ rowsToHide result = [anchorRowIndex; anchorRowIndex + 1]
   /\ ws' = ws
   /\ (forall item arr, resolve arrayPath (scopes ++ [rootData])%list <> VArr (item :: arr)))
  \/ (exists (item : JsValue) (arr : list JsValue) (tpl : RowTemplate) (outs : list Row),
        resolve arrayPath (scopes ++ [rootData])%list = VArr (item :: arr)
        /\ extractRowTemplate (anchorRowIndex + 1) ws = Ok tpl
        /\ Forall2 (fun x row =>
                      applyRowTemplate Sheet.blankRow (templates tpl)
                        (x :: scopes ++ [rootData])%list options = Ok row)
                   (item :: arr) outs
        /\ result = mkTableRenderResult
                      (Some (mkTableRenderInfo anchorRowIndex
                               (anchorRowIndex + Z.of_nat (List.length (item :: arr)) - 1)
                               arrayPath (rt_fieldColumnMap tpl)))
                      [anchorRowIndex + Z.of_nat (List.length (item :: arr));
                       anchorRowIndex + Z.of_nat (List.length (item :: arr)) + 1]
        /\ rows ws' = withRowsAt (Z.to_nat (anchorRowIndex - 1)) outs (rows ws)).
Proof.
  intros Hanchor. unfold renderTable.
  destruct (resolve arrayPath (scopes ++ [rootData])%list) as [| |b|n|s|z|t|arr|l] eqn:Hres;
    try (intros [= <- <-]; left; repeat split; intros; discriminate).
  intros Hbind. apply bind_Ok in Hbind as (tpl & Htpl & Hrest).
  destruct arr as [|item arr]; cbn [Lodash.isEmptyArr] in Hrest.
  - injection Hrest as <- <-. left. repeat split; intros; discriminate.
  - apply bind_Ok in Hrest as (ws1 & Hfold & Hret). injection Hret as <- <-.
    right.
    destruct (insertItems_Ok anchorRowIndex tpl (scopes ++ [rootData])%list options Hanchor
                (rows ws) (item :: arr) [] ws ws1 (or_introl (conj eq_refl eq_refl)) Hfold)
      as (outs & Hall & Hrows).
    exists item, arr, tpl, outs. repeat split; try assumption.
    rewrite adjustImageAnchors_rows.
    destruct Hrows as [[Hnil _]|Hrows]; [|exact Hrows].
    inversion Hall; subst. discriminate.
Qed.








(** ** The expansion loop *)

Section ExpansionFacts.
Context `{Host}.
Variables (data : JsValue) (options : RenderOptions).

Lemma expandTable_Ok (st st' : Expansion) (t : TableMetadata) :
  expandTable data options st t = Ok st' ->
  exists ws' result,
    renderTable (ex_worksheet st) (rowNumber t) (tm_path t) [] data options = Ok (ws', result)
    /\ st' = recordTable st t ws' result.
Proof.
  unfold expandTable. intros Hbind.
  apply bind_Ok in Hbind as ([ws' result] & Hrun & Hret). injection Hret as <-.
  exists ws', result. split; [exact Hrun|reflexivity].
Qed.


Lemma Expands_foldM (st st' : Expansion) (tables : list TableMetadata)
    (results : list TableRenderResult) :
  Expands data options st tables results st' ->
  foldM (expandTable data options) tables st = Ok st'.
Proof.
  induction 1 as [st|st st' t tables ws' result results Hrun _ IH]; [reflexivity|].
  cbn [foldM]. unfold expandTable at 1. rewrite Hrun. exact IH.
Qed.

Lemma Expands_length (st st' : Expansion) (tables : list TableMetadata)
    (results : list TableRenderResult) :
  Expands data options st tables results st' -> List.length results = List.length tables.
Proof. induction 1; simpl; congruence. Qed.


End ExpansionFacts.

(** ** Formula targets *)






Lemma selectTableInfo_last (placeholder : Placeholder)
    (m : gmap string TableRenderInfo) (l : option TableRenderInfo) :
  Js.truthyStr (column placeholder) = true
  \/ (Js.truthyStr (arrayPath placeholder) = false
      /\ Js.truthyStr (fieldName placeholder) = true) ->
  selectTableInfo placeholder m l = l.
Proof.
  unfold selectTableInfo. intros [Hcol|[Hap Hfn]].
  - rewrite Hcol. reflexivity.
  - rewrite Hap, Hfn. destruct (Js.truthyStr (column placeholder)); reflexivity.
Qed.



(** ** Hide offsets *)

Lemma offsetOver_acc (current : Z) (later : list HideEntry) (offset : Z) :
  offsetOver current later offset = offset + offsetOver current later 0.
Proof.
  unfold offsetOver. revert offset.
  induction later as [|e later IH]; intros offset; cbn [fold_left]; [lia|].
  destruct ((insertedAt e <? current) && (0 <? rowsInserted e)).
  - rewrite IH, (IH (0 + rowsInserted e)). lia.
  - rewrite IH. reflexivity.
Qed.

Lemma calculateHideOffset_offsetOver (entryIndex : nat) (entries : list HideEntry) :
  calculateHideOffset entryIndex entries
  = offsetOver (insertedAt (nth entryIndex entries emptyHideEntry))
               (drop (S entryIndex) entries) 0.
Proof. reflexivity. Qed.


Section HidePositions.
Context `{Host}.
Variables (data : JsValue) (options : RenderOptions).



End HidePositions.




(** ** The final pass *)

Lemma mapM_Ok {A B : Type} (f : A -> Result B) (l : list A) (out : list B) :
  mapM f l = Ok out <-> Forall2 (fun a b => f a = Ok b) l out.
Proof.
  revert out. induction l as [|a l IH]; intros out; simpl.
  - split; [intros [= <-]; constructor|intros Hall; inversion Hall; reflexivity].
  - split.
    + intros Hbind. apply bind_Ok in Hbind as (b & Hb & Hrest).
      apply bind_Ok in Hrest as (bs & Hbs & Hret). injection Hret as <-.
      constructor; [exact Hb|apply IH, Hbs].
    + intros Hall. inversion Hall as [|a' b l' bs Hb Hbs]; subst.
      rewrite Hb. cbn [bind]. apply IH in Hbs. rewrite Hbs. reflexivity.
Qed.

Lemma mapM_total {A B : Type} (f : A -> Result B) (l : list A) :
  (exists out, mapM f l = Ok out) <-> (forall a, a ∈ l -> exists b, f a = Ok b).
Proof.
  induction l as [|a l IH]; simpl.
  - split; [intros _ a Ha; inversion Ha|intros _; eexists; reflexivity].
  - split.
    + intros (out & Hbind) x Hx.
      apply bind_Ok in Hbind as (b & Hb & Hrest).
      apply bind_Ok in Hrest as (bs & Hbs & _).
      apply elem_of_cons in Hx as [->|Hx]; [eauto|].
      apply (proj1 IH); eauto.
    + intros Hall. destruct (Hall a) as (b & Hb); [left|].
      destruct (proj2 IH) as (bs & Hbs); [intros x Hx; apply Hall; right; exact Hx|].
      exists (b :: bs). rewrite Hb. cbn [bind]. rewrite Hbs. reflexivity.
Qed.


Section FinalPassFacts.
Context `{Host}.
Variables (data : JsValue) (options : RenderOptions)
          (tableInfoMap : gmap string TableRenderInfo)
          (lastTableInfo : option TableRenderInfo).




Lemma substituteRow_Ok (row row' : Row) :
  substituteRow data options tableInfoMap lastTableInfo row = Ok row' ->
  hidden row' = hidden row /\ height row' = height row
  /\ Forall2 (substituted data options tableInfoMap lastTableInfo (Sheet.hasValues row))
             (cells row) (cells row').
Proof.
  unfold substituteRow, substituted. destruct (Sheet.hasValues row).
  - intros Hbind. apply bind_Ok in Hbind as (cells' & Hcells & Hret).
    injection Hret as <-. cbn [hidden height cells]. repeat split.
    apply mapM_Ok in Hcells. eapply Forall2_impl; [exact Hcells|].
    intros cell cell' Hcell. cbn [andb]. cbv beta in Hcell.
    destruct (Sheet.hasValue cell); [|congruence].
    apply bind_Ok in Hcell as (v & Hv & Hret). injection Hret as <-.
    split; [exact Hv|reflexivity].
  - intros [= <-]. repeat split. induction (cells row); constructor; [reflexivity|assumption].
Qed.


Lemma finalPass_Ok (worksheet ws' : Worksheet) :
  finalPass data options tableInfoMap lastTableInfo worksheet = Ok ws' ->
  Forall2 (fun row row' =>
             hidden row' = hidden row /\ height row' = height row
             /\ Forall2 (substituted data options tableInfoMap lastTableInfo
                           (Sheet.hasValues row))
                        (cells row) (cells row'))
          (rows worksheet) (rows ws').
Proof.
  unfold finalPass. intros Hbind. apply bind_Ok in Hbind as (rows' & Hrows & Hret).
  injection Hret as <-. cbn [Sheet.setRows rows].
  apply mapM_Ok in Hrows. eapply Forall2_impl; [exact Hrows|].
  intros row row' Hrow. apply substituteRow_Ok, Hrow.
Qed.

End FinalPassFacts.




(* ================================================================== *)
(** * Further properties of the engine                                  *)
(* ================================================================== *)

(** ** Column letters *)

Lemma letter_upper_code (c : ascii) :
  Regex.is_letter c = true ->
  1 <= Str.charCode (Str.upper_char c) - 64 <= 26
  /\ Str.fromCharCode (65 + (Str.charCode (Str.upper_char c) - 64 - 1))
     = String (Str.upper_char c) "".
Proof.
  destruct c as [[] [] [] [] [] [] [] []]; intros Hc; try discriminate Hc;
    vm_compute; repeat split; discriminate.
Qed.

Lemma letters_back (s : string) :
  Js.all_chars Regex.is_letter s = true ->
  forall (n : Z) (acc : string) (f1 f2 : nat),
    0 <= n ->
    (Z.to_nat (columnLetterToNumber_loop (Str.toUpperCase s) n) <= f1)%nat ->
    (Z.to_nat n <= f2)%nat ->
    columnNumberToLetter_loop f1 (columnLetterToNumber_loop (Str.toUpperCase s) n) acc
    = columnNumberToLetter_loop f2 n (Str.toUpperCase s ++ acc).
Proof.
  induction s as [|c s IH]; intros Hall n acc f1 f2 Hn Hf1 Hf2.
  - cbn. apply columnNumberToLetter_fuel_any; assumption.
  - cbn [Js.all_chars] in Hall. apply andb_prop in Hall as [Hc Hs].
    destruct (letter_upper_code c Hc) as [Hd Hchar].
    cbn [Str.toUpperCase columnLetterToNumber_loop] in *.
    set (d := Str.charCode (Str.upper_char c) - 64) in *.
    set (m := n * 26 + d) in *.
    assert (Hm : 0 < m) by (unfold m; lia).
    rewrite (IH Hs m acc f1 (S (Z.to_nat m))); [|lia|exact Hf1|lia].
    cbn [columnNumberToLetter_loop].
    destruct (0 <? m) eqn:Hpos; [|apply Z.ltb_ge in Hpos; lia].
    assert (Hrem : Z.rem (m - 1) 26 = d - 1).
    { rewrite Z.rem_mod_nonneg by lia. unfold m.
      replace (n * 26 + d - 1) with (d - 1 + n * 26) by lia.
      rewrite Z.mod_add by lia. apply Z.mod_small. lia. }
    rewrite Hrem.
    replace ((m - (d - 1)) / 26) with n
      by (unfold m; replace (n * 26 + d - (d - 1)) with (1 + n * 26) by lia;
          rewrite Z.div_add by lia; rewrite Z.div_small by lia; lia).
    rewrite Hchar. rewrite append_cons, append_nil_l.
    apply columnNumberToLetter_fuel_any; lia.
Qed.

(** X1.  The other direction of the column round trip: a string of
    letters, turned into a column number and back, comes out in upper
    case. *)
Theorem column_letter_number_roundtrip :
  forall letter : string,
    Js.all_chars Regex.is_letter letter = true ->
    columnNumberToLetter (columnLetterToNumber letter) = Str.toUpperCase letter.
Proof.
  intros letter Hall. unfold columnNumberToLetter, columnLetterToNumber.
  rewrite (letters_back letter Hall 0 "" _ 0%nat); [|lia|lia|simpl; lia].
  cbn [columnNumberToLetter_loop]. apply append_nil_r.
Qed.

Lemma column_letter_number_roundtrip_witness :
  columnNumberToLetter (columnLetterToNumber "aZ") = "AZ".
Proof. apply (column_letter_number_roundtrip "aZ"). reflexivity. Defined.

Lemma upper_of_remainder (m : Z) :
  0 <= m < 26 ->
  exists c, Str.fromCharCode (65 + m) = String c "" /\ Regex.is_upper c = true.
Proof.
  intros Hm. unfold Str.fromCharCode. eexists. split; [reflexivity|].
  unfold Regex.is_upper. rewrite nat_ascii_embedding by lia.
  apply andb_true_intro. split; apply Nat.leb_le; lia.
Qed.

Lemma all_upper_loop (fuel : nat) :
  forall (num : Z) (letter : string),
    Js.all_chars Regex.is_upper letter = true ->
    Js.all_chars Regex.is_upper (columnNumberToLetter_loop fuel num letter) = true.
Proof.
  induction fuel as [|fuel IH]; intros num letter Hall; cbn [columnNumberToLetter_loop];
    [exact Hall|].
  destruct (0 <? num) eqn:Hpos; [|exact Hall]. apply Z.ltb_lt in Hpos.
  apply IH.
  destruct (upper_of_remainder (Z.rem (num - 1) 26)) as (c & -> & Hc).
  { pose proof (Z.rem_bound_pos (num - 1) 26). lia. }
  rewrite append_cons, append_nil_l. cbn [Js.all_chars]. rewrite Hc, Hall. reflexivity.
Qed.

(** X2.  The letters of a column are capitals from A to Z, and there
    are none exactly when the number is not positive. *)
Theorem columnNumberToLetter_capitals :
  forall num : Z,
    Js.all_chars Regex.is_upper (columnNumberToLetter num) = true
    /\ (columnNumberToLetter num = "" <-> num <= 0).
Proof.
  intros num. split; [apply all_upper_loop; reflexivity|].
  unfold columnNumberToLetter. split.
  - intros Hempty. destruct (Z.to_nat num) as [|fuel] eqn:Hfuel; [lia|].
    cbn [columnNumberToLetter_loop] in Hempty.
    destruct (0 <? num) eqn:Hpos; [|apply Z.ltb_ge in Hpos; lia].
    apply Z.ltb_lt in Hpos.
    destruct (upper_of_remainder (Z.rem (num - 1) 26)) as (c & Hc & _).
    { pose proof (Z.rem_bound_pos (num - 1) 26). lia. }
    rewrite Hc in Hempty.
    assert (Hr : 0 <= Z.rem (num - 1) 26 < 26 /\ Z.rem (num - 1) 26 <= num - 1).
    { rewrite Z.rem_mod_nonneg by lia. split; [apply Z.mod_pos_bound; lia|].
      apply Z.mod_le; lia. }
    destruct (number_loop_prefix fuel ((num - Z.rem (num - 1) 26) / 26) (String c "" ++ ""))
      as (prefix & Hloop & _).
    + apply Z.div_pos; lia.
    + assert ((num - Z.rem (num - 1) 26) / 26 < num)
        by (apply Z.div_lt_upper_bound; lia). lia.
    + rewrite Hloop in Hempty. destruct prefix; discriminate Hempty.
  - intros Hle. replace (Z.to_nat num) with 0%nat by lia. reflexivity.
Qed.

(** ** Hide offsets *)

Lemma offsetOver_bounds (current : Z) (later : list HideEntry) :
  0 <= offsetOver current later 0
       <= sumZ (List.map (fun e => Z.max 0 (rowsInserted e)) later).
Proof.
  induction later as [|e later IH]; [cbn; lia|].
  unfold offsetOver in *. cbn [fold_left List.map sumZ foldr].
  fold (offsetOver current later
          (if (insertedAt e <? current) && (0 <? rowsInserted e)
           then 0 + rowsInserted e else 0)).
  rewrite offsetOver_acc. fold (offsetOver current later 0) in IH.
  unfold sumZ in IH.
  destruct ((insertedAt e <? current) && (0 <? rowsInserted e)) eqn:Hc.
  - apply andb_prop in Hc as [_ Hpos]. apply Z.ltb_lt in Hpos. lia.
  - lia.
Qed.

(** X3.  The offset of a hide entry is never negative, is at most the
    number of rows the entries after it inserted, and is 0 for the last
    entry and for an index past the end. *)
Theorem calculateHideOffset_bounds :
  forall (entryIndex : nat) (entries : list HideEntry),
    0 <= calculateHideOffset entryIndex entries
         <= sumZ (List.map (fun e => Z.max 0 (rowsInserted e)) (drop (S entryIndex) entries))
    /\ ((List.length entries <= S entryIndex)%nat ->
        calculateHideOffset entryIndex entries = 0).
Proof.
  intros entryIndex entries. rewrite calculateHideOffset_offsetOver. split.
  - apply offsetOver_bounds.
  - intros Hlen. rewrite drop_ge by exact Hlen. reflexivity.
Qed.

(** ** Value rendering *)


Lemma reachesBigInt_kind (v : JsValue) :
  reachesBigInt v = true ->
  Js.isNil v = false /\ Js.isDate v = false /\ Js.isNumber v = false
  /\ Js.isBoolean v = false /\ Js.isString v = false.
Proof. destruct v; intros Hv; try discriminate Hv; repeat split. Qed.

(** X4.  [renderValue] raises exactly when the value found is a BigInt,
    or an array or object that holds one: then it ends with the
    TypeError of [JSON.stringify]; for every other value it returns. *)
Theorem renderValue_raises_on_bigint :
  forall (host : Host) (path : string) (scopes : list JsValue) (options : RenderOptions),
    (reachesBigInt (resolve path scopes) = true ->
     renderValue path scopes options
     = Throw (TypeError "Do not know how to serialize a BigInt"))
    /\ (reachesBigInt (resolve path scopes) = false ->
        exists v, renderValue path scopes options = Ok v).
Proof.
  intros host path scopes options. unfold renderValue, JSON_stringify. split.
  - intros Hbig. destruct (reachesBigInt_kind _ Hbig) as (Hnil & Hdate & Hnum & Hbool & Hstr).
    rewrite Hnil, Hdate, Hnum.
    destruct (resolve path scopes); try discriminate Hstr; try discriminate Hbool;
      try discriminate Hbig; cbn [Js.isBoolean]; rewrite Hbig; reflexivity.
  - intros Hsmall.
    destruct (resolve path scopes) as [| |b|n|s|z|t|l|l]; cbn [Js.isNil Js.isDate Js.isNumber Js.isBoolean];
      try (eexists; reflexivity); try discriminate Hsmall.
    + destruct (String.eqb (Str.trim s) ""); [eexists; reflexivity|].
      destruct (bool_decide (autoParseNumbers options = Some true)
                && Js.nonEmpty (Str.trim s) && negb (isNaN (Num.ofString (Str.trim s))));
        [eexists; reflexivity|].
      destruct (Regex.test ISO_DATE (Str.trim s) && negb (isNaN (dateParse (Str.trim s))));
        eexists; reflexivity.
    + rewrite Hsmall. eexists. reflexivity.
    + rewrite Hsmall. eexists. reflexivity.
Qed.

Lemma renderValue_raises_on_bigint_witness :
  @renderValue utcHost "n" [VObj [("n", VArr [VBigInt 7])]] noOptions
  = Throw (TypeError "Do not know how to serialize a BigInt")
  /\ exists v, @renderValue utcHost "n" [VObj [("n", VArr [VBool true])]] noOptions = Ok v.
Proof.
  split.
  - apply (renderValue_raises_on_bigint utcHost "n" [VObj [("n", VArr [VBigInt 7])]] noOptions).
    reflexivity.
  - apply (renderValue_raises_on_bigint utcHost "n" [VObj [("n", VArr [VBool true])]] noOptions).
    reflexivity.
Defined.



(** X6.  A string in the strict ISO form is rendered as the date it
    denotes, with or without [autoParseNumbers]: such a string never
    reads as a number.  When [Date.parse] rejects it the string is
    kept. *)
Theorem renderValue_iso_date :
  forall (host : Host) (path : string) (scopes : list JsValue) (options : RenderOptions)
         (s : string),
    resolve path scopes = VStr s ->
    Regex.test ISO_DATE (Str.trim s) = true ->
    renderValue path scopes options
    = Ok (if isNaN (dateParse (Str.trim s)) then VStr s
          else VDate (dateParse (Str.trim s))).
Proof.
  intros host path scopes options s Hres Hiso. unfold renderValue. rewrite Hres.
  cbn [Js.isNil Js.isDate Js.isNumber].
  pose proof (iso_date_not_numeric _ Hiso) as Hnan.
  destruct (String.eqb (Str.trim s) "") eqn:Hempty.
  - apply String.eqb_eq in Hempty. rewrite Hempty in Hnan. discriminate Hnan.
  - rewrite Hnan, Hiso. cbn [isNaN negb andb]. rewrite andb_false_r.
    destruct (isNaN (dateParse (Str.trim s))); reflexivity.
Qed.

Lemma renderValue_iso_date_witness :
  @renderValue utcHost "due" [VObj [("due", VStr " 2024-01-15 ")]] (mkRenderOptions (Some true))
  = Ok (VDate (num_of_Z 1705276800000)).
Proof.
  rewrite (renderValue_iso_date utcHost "due" [VObj [("due", VStr " 2024-01-15 ")]]
             (mkRenderOptions (Some true)) " 2024-01-15 " eq_refl eq_refl).
  vm_compute. reflexivity.
Defined.

(** ** Placeholder detection and plain cells *)

Lemma trimStart_fixed (s : string) :
  match s with String c _ => Str.is_space c = false | EmptyString => True end ->
  Str.trimStart s = s.
Proof. destruct s as [|c s]; [reflexivity|]. cbn. intros ->. reflexivity. Qed.

Lemma trimStart_shape (s : string) :
  match Str.trimStart s with String c _ => Str.is_space c = false | EmptyString => True end.
Proof.
  induction s as [|c s IH]; [exact I|]. cbn.
  destruct (Str.is_space c) eqn:Hc; [exact IH|exact Hc].
Qed.

Lemma trimEnd_idempotent (s : string) : Str.trimEnd (Str.trimEnd s) = Str.trimEnd s.
Proof.
  induction s as [|c s IH]; [reflexivity|]. cbn [Str.trimEnd].
  destruct (Str.trimEnd s) as [|c' t] eqn:Ht.
  - destruct (Str.is_space c) eqn:Hc; [reflexivity|]. cbn. rewrite Hc. reflexivity.
  - cbn [Str.trimEnd] in *. rewrite IH. reflexivity.
Qed.

Lemma trimEnd_shape (s : string) :
  match s with String c _ => Str.is_space c = false | EmptyString => True end ->
  match Str.trimEnd s with String c _ => Str.is_space c = false | EmptyString => True end.
Proof.
  destruct s as [|c s]; [intros _; exact I|]. intros Hc.
  destruct (trimEnd_cons_nonspace c s Hc) as (s' & ->). exact Hc.
Qed.

Lemma trim_idempotent (s : string) : Str.trim (Str.trim s) = Str.trim s.
Proof.
  unfold Str.trim.
  rewrite (trimStart_fixed (Str.trimEnd (Str.trimStart s)))
    by apply trimEnd_shape, trimStart_shape.
  apply trimEnd_idempotent.
Qed.

(** X7.  White space around the text of a cell plays no part in what
    [detectPlaceholder] finds. *)
Theorem detectPlaceholder_ignores_outer_space :
  forall cellText : string,
    detectPlaceholder (VStr (Str.trim cellText)) = detectPlaceholder (VStr cellText).
Proof. intros cellText. unfold detectPlaceholder. rewrite trim_idempotent. reflexivity. Qed.

Lemma run_Chr (p : ascii -> bool) (st : Regex.MState) (k : Regex.Cont) :
  Regex.run (Regex.Chr p) st k <> None ->
  exists c tl, Regex.rest st = c :: tl /\ p c = true
               /\ k (Regex.mkMState (S (Regex.pos st)) tl (Regex.caps st)) <> None.
Proof.
  cbn [Regex.run]. destruct (Regex.rest st) as [|c tl]; [congruence|].
  destruct (p c) eqn:Hc; [|congruence]. intros Hk. exists c, tl. auto.
Qed.

Lemma run_Seq (a b : Regex.Re) (st : Regex.MState) (k : Regex.Cont) :
  Regex.run (Regex.Seq a b) st k = Regex.run a st (fun st' => Regex.run b st' k).
Proof. reflexivity. Qed.

Lemma open_brace_i (c : ascii) :
  Ascii.eqb (Str.upper_char c) (Str.upper_char "{") = true -> c = "{"%char.
Proof.
  destruct c as [[] [] [] [] [] [] [] []]; intros Hc; try discriminate Hc; reflexivity.
Qed.

Lemma two_chars_nested (p1 p2 : ascii -> bool) (x y : Regex.Re)
    (st : Regex.MState) (k : Regex.Cont) :
  Regex.run (Regex.Seq (Regex.Seq (Regex.Chr p1) (Regex.Seq (Regex.Chr p2) x)) y) st k
  <> None ->
  exists c1 c2 tl, Regex.rest st = c1 :: c2 :: tl /\ p1 c1 = true /\ p2 c2 = true.
Proof.
  rewrite !run_Seq. intros Hrun.
  apply run_Chr in Hrun as (c1 & tl1 & Hrest1 & Hc1 & Hrun).
  rewrite run_Seq in Hrun.
  apply run_Chr in Hrun as (c2 & tl2 & Hrest2 & Hc2 & _).
  cbn [Regex.rest] in Hrest2. subst tl1. eauto 6.
Qed.

Lemma two_chars_flat (p1 p2 : ascii -> bool) (y : Regex.Re)
    (st : Regex.MState) (k : Regex.Cont) :
  Regex.run (Regex.Seq (Regex.Seq (Regex.Chr p1) (Regex.Chr p2)) y) st k <> None ->
  exists c1 c2 tl, Regex.rest st = c1 :: c2 :: tl /\ p1 c1 = true /\ p2 c2 = true.
Proof.
  rewrite !run_Seq. intros Hrun.
  apply run_Chr in Hrun as (c1 & tl1 & Hrest1 & Hc1 & Hrun).
  apply run_Chr in Hrun as (c2 & tl2 & Hrest2 & Hc2 & _).
  cbn [Regex.rest] in Hrest2. subst tl1. eauto 6.
Qed.

(** Every pattern of [detectPlaceholder] starts with two opening
    braces. *)
Lemma anchored_braces (r : Regex.Re) (t : string) :
  (forall st k, Regex.run r st k <> None ->
                exists c1 c2 tl, Regex.rest st = c1 :: c2 :: tl
                                 /\ c1 = "{"%char /\ c2 = "{"%char) ->
  Regex.exec (Regex.Seq Regex.Bol r) t <> None -> String.prefix "{{" t = true.
Proof.
  intros Hr. rewrite exec_anchored. unfold Regex.matchHere.
  destruct (Regex.run _ _ _) eqn:Hrun; [|congruence]. intros _.
  cbn [Regex.run Regex.pos Nat.eqb] in Hrun.
  destruct (Hr _ Some ltac:(rewrite Hrun; discriminate)) as (c1 & c2 & tl & Hrest & -> & ->).
  cbn [Regex.rest] in Hrest.
  destruct t as [|a [|b t]]; try discriminate Hrest.
  cbn in Hrest. injection Hrest as -> -> _.
  apply String.prefix_correct. destruct t; reflexivity.
Qed.

Lemma chr_brace (c : ascii) : Ascii.eqb "{" c = true -> c = "{"%char.
Proof. intros Hc. apply Ascii.eqb_eq in Hc. congruence. Qed.

Lemma includes_trimStart (sub s : string) :
  Str.includes (Str.trimStart s) sub = true -> Str.includes s sub = true.
Proof.
  induction s as [|c s IH]; [auto|]. cbn [Str.trimStart].
  destruct (Str.is_space c); [|auto].
  intros Hin. cbn [Str.includes]. rewrite (IH Hin). apply orb_true_r.
Qed.

Lemma prefix_trimEnd (s : string) :
  forall sub, String.prefix sub (Str.trimEnd s) = true -> String.prefix sub s = true.
Proof.
  induction s as [|c s IH]; intros [|d sub]; try reflexivity; [auto|].
  cbn [Str.trimEnd]. destruct (Str.trimEnd s) as [|c' t] eqn:Ht.
  - destruct (Str.is_space c); [discriminate|].
    cbn [String.prefix]. destruct (ascii_dec d c); [|discriminate].
    destruct sub; [intros _; destruct s; reflexivity|discriminate].
  - cbn [String.prefix]. destruct (ascii_dec d c); [|discriminate]. apply IH.
Qed.

Lemma prefix_trim_includes (sub s : string) :
  String.prefix sub (Str.trim s) = true -> Str.includes s sub = true.
Proof.
  intros Hpre. apply includes_trimStart. apply prefix_trimEnd in Hpre.
  destruct (Str.trimStart s); cbn [Str.includes]; rewrite Hpre; reflexivity.
Qed.

(** A text is a placeholder only when, white space apart, it starts
    with two opening braces. *)
Lemma detectPlaceholder_prefix (cellText : string) :
  String.prefix "{{" (Str.trim cellText) = false -> detectPlaceholder (VStr cellText) = None.
Proof.
  intros Hpre.
  assert (Hnone : forall r : Regex.Re,
             (forall st k, Regex.run r st k <> None ->
                exists c1 c2 tl, Regex.rest st = c1 :: c2 :: tl
                                 /\ c1 = "{"%char /\ c2 = "{"%char) ->
             Regex.exec (Regex.Seq Regex.Bol r) (Str.trim cellText) = None).
  { intros r Hr. destruct (Regex.exec _ _) eqn:Hexec; [|reflexivity].
    rewrite (anchored_braces r _ Hr) in Hpre by (rewrite Hexec; discriminate).
    discriminate Hpre. }
  unfold detectPlaceholder, PLACEHOLDER_REGEX.TABLE, PLACEHOLDER_REGEX.FORMULA,
    PLACEHOLDER_REGEX.JOIN, PLACEHOLDER_REGEX.VALUE.
  cbn [Regex.seq Regex.lit Regex.lit_i]. unfold Regex.chr, Regex.chr_i.
  rewrite Hnone.
  2:{ intros st k Hrun. apply two_chars_nested in Hrun as (c1 & c2 & tl & Hrest & Hc1 & Hc2).
      apply chr_brace in Hc1, Hc2. eauto 6. }
  rewrite Hnone.
  2:{ intros st k Hrun. apply two_chars_nested in Hrun as (c1 & c2 & tl & Hrest & Hc1 & Hc2).
      apply open_brace_i in Hc1, Hc2. eauto 6. }
  rewrite Hnone.
  2:{ intros st k Hrun. apply two_chars_flat in Hrun as (c1 & c2 & tl & Hrest & Hc1 & Hc2).
      apply chr_brace in Hc1, Hc2. eauto 6. }
  rewrite Hnone.
  2:{ intros st k Hrun. apply two_chars_flat in Hrun as (c1 & c2 & tl & Hrest & Hc1 & Hc2).
      apply chr_brace in Hc1, Hc2. eauto 6. }
  reflexivity.
Qed.

Lemma detectPlaceholder_braces (cellText : string) :
  Str.includes cellText "{{" = false -> detectPlaceholder (VStr cellText) = None.
Proof.
  intros Hno. apply detectPlaceholder_prefix.
  destruct (String.prefix "{{" (Str.trim cellText)) eqn:Hpre; [|reflexivity].
  rewrite (prefix_trim_includes _ _ Hpre) in Hno. discriminate Hno.
Qed.

(** X8.  A cell that is neither a string with two opening braces nor an
    object with rich text is left as it is, by [renderCell] and by the
    final pass. *)
Theorem renderCell_plain_value :
  forall (host : Host) (cellValue : JsValue) (scopes : list JsValue)
         (data : JsValue) (options : RenderOptions)
         (tableInfoMap : gmap string TableRenderInfo) (lastTableInfo : option TableRenderInfo),
    match cellValue with
    | VStr cellText => Str.includes cellText "{{" = false
    | _ => Js.hasProp cellValue "richText" = false
    end ->
    renderCell cellValue scopes options = Ok cellValue
    /\ substituteCell data options tableInfoMap lastTableInfo cellValue = Ok cellValue.
Proof.
  intros host cellValue scopes data options tableInfoMap lastTableInfo Hplain.
  assert (Hdetect : detectPlaceholder cellValue = None).
  { destruct cellValue; try reflexivity. apply detectPlaceholder_braces, Hplain. }
  assert (Hcell : forall scopes', renderCell cellValue scopes' options = Ok cellValue).
  { intros scopes'. unfold renderCell. rewrite Hdetect.
    destruct cellValue; try reflexivity; try (rewrite Hplain, ?andb_false_r; reflexivity). }
  split; [apply Hcell|]. unfold substituteCell. rewrite Hdetect. apply Hcell.
Qed.

Lemma renderCell_plain_value_witness :
  @renderCell utcHost (VStr "Total {net}") [VObj []] noOptions = Ok (VStr "Total {net}")
  /\ @substituteCell utcHost (VObj []) noOptions ∅ None (VArr [VStr "{{a}}"])
     = Ok (VArr [VStr "{{a}}"]).
Proof.
  split.
  - apply (renderCell_plain_value utcHost (VStr "Total {net}") [VObj []] VNull noOptions ∅ None).
    reflexivity.
  - apply (renderCell_plain_value utcHost (VArr [VStr "{{a}}"]) [] (VObj []) noOptions ∅ None).
    reflexivity.
Defined.

(** ** Rich text *)

Section RichTextFacts.
Context `{Host}.
Variable scopes : list JsValue.

Lemma richFragments_unopened (fragments : list JsValue) :
  forall result : list JsValue,
    Forall (plainFragment "{{") fragments ->
    richFragments scopes (mkRichState result [] false) fragments
    = Ok (mkRichState (result ++ fragments) [] false).
Proof.
  induction fragments as [|f fragments IH]; intros result Hall.
  - cbn. rewrite app_nil_r. reflexivity.
  - inversion Hall as [|f' fs' (Hnil & s & Htext & Hno) Hrest]; subst.
    cbn [richFragments]. unfold richFragment. rewrite Hnil, Htext.
    cbn [textIncludes bind]. rewrite Hno. cbn [orb inPlaceholder rt_result rt_buffer bind].
    rewrite (IH _ Hrest), <- app_assoc. reflexivity.
Qed.

Lemma richFragments_unclosed (fragments : list JsValue) :
  forall st : RichState,
    Forall (plainFragment "}}") fragments ->
    (inPlaceholder st = false -> rt_buffer st = []) ->
    exists st',
      richFragments scopes st fragments = Ok st'
      /\ (rt_result st' ++ rt_buffer st' = rt_result st ++ rt_buffer st ++ fragments)%list.
Proof.
  induction fragments as [|f fragments IH]; intros st Hall Hbuf.
  - exists st. split; [reflexivity|]. rewrite app_nil_r. reflexivity.
  - inversion Hall as [|f' fs' (Hnil & s & Htext & Hno) Hrest]; subst.
    cbn [richFragments]. unfold richFragment. rewrite Hnil, Htext.
    cbn [textIncludes bind].
    destruct (Str.includes s "{{" || inPlaceholder st) eqn:Hopen.
    + rewrite Hno. cbn [bind].
      destruct (IH (mkRichState (rt_result st) (rt_buffer st ++ [f]) true) Hrest)
        as (st' & Hrun & Hall'); [discriminate|].
      exists st'. split; [exact Hrun|]. rewrite Hall'. cbn [rt_result rt_buffer].
      rewrite <- !app_assoc. reflexivity.
    + apply orb_false_elim in Hopen as [_ Hin]. cbn [bind].
      destruct (IH (mkRichState (rt_result st ++ [f]) (rt_buffer st) (inPlaceholder st)) Hrest)
        as (st' & Hrun & Hall'); [exact Hbuf|].
      exists st'. split; [exact Hrun|]. rewrite Hall'. cbn [rt_result rt_buffer].
      rewrite (Hbuf Hin). rewrite <- !app_assoc. reflexivity.
Qed.

End RichTextFacts.

(** X9.  Rich text in which no fragment opens a placeholder, or in
    which no fragment closes one, comes back with the same fragments:
    an unfinished placeholder is never rendered. *)
Theorem handleRichText_keeps_fragments :
  forall (host : Host) (cellValue : JsValue) (fragments scopes : list JsValue),
    Js.truthy cellValue = true ->
    Js.getProp cellValue "richText" = VArr fragments ->
    Forall (plainFragment "{{") fragments \/ Forall (plainFragment "}}") fragments ->
    handleRichText cellValue scopes = Ok (VObj [("richText", VArr fragments)]).
Proof.
  intros host cellValue fragments scopes Htruthy Hrich Hplain.
  unfold handleRichText. rewrite Htruthy, Hrich. cbn [negb].
  destruct Hplain as [Hopen|Hclose].
  - rewrite (richFragments_unopened scopes fragments [] Hopen). cbn [bind rt_result rt_buffer].
    rewrite app_nil_r. reflexivity.
  - destruct (richFragments_unclosed scopes fragments (mkRichState [] [] false) Hclose)
      as (st' & -> & Hall); [reflexivity|].
    cbn [bind]. rewrite Hall. reflexivity.
Qed.

Lemma handleRichText_keeps_fragments_witness :
  let fragments := [VObj [("text", VStr "Dear {{na")]; VObj [("text", VStr "me")]] in
  @handleRichText utcHost (VObj [("richText", VArr fragments)]) [VObj [("name", VStr "Ann")]]
  = Ok (VObj [("richText", VArr fragments)]).
Proof.
  intros fragments.
  apply (handleRichText_keeps_fragments utcHost (VObj [("richText", VArr fragments)])
           fragments [VObj [("name", VStr "Ann")]]).
  - reflexivity.
  - reflexivity.
  - right. repeat constructor; eexists; split; reflexivity.
Defined.

(** ** Scanning for tables *)

Lemma scanTables_unfold (worksheet : Worksheet) :
  scanTables worksheet = orderByRowDesc (fold_left collectTable (visitedCells worksheet) []).
Proof. reflexivity. Qed.

Lemma listed_table (row : Z) (p : string) (tables : list TableMetadata) :
  existsb (fun t => (row =? rowNumber t) && String.eqb p (tm_path t)) tables = true
  <-> mkTableMetadata row p ∈ tables.
Proof.
  rewrite existsb_exists. split.
  - intros ([r q] & Hin & Heq). apply andb_prop in Heq as [Hr Hq].
    apply Z.eqb_eq in Hr. apply String.eqb_eq in Hq. cbn in Hr, Hq. subst.
    apply list_elem_of_In, Hin.
  - intros Hin. exists (mkTableMetadata row p). split; [apply list_elem_of_In, Hin|].
    cbn. rewrite Z.eqb_refl, String.eqb_refl. reflexivity.
Qed.

Lemma collectTable_spec (tables : list TableMetadata) (rc : Z * Z * Cell) :
  NoDup tables ->
  NoDup (collectTable tables rc)
  /\ forall t, t ∈ collectTable tables rc <-> t ∈ tables \/ anchorOf t rc.
Proof.
  intros Hnodup. destruct rc as [[row col] cell]. unfold collectTable, anchorOf.
  cbn [fst snd].
  destruct (detectPlaceholder (cellValue cell)) as [placeholder|] eqn:Hdetect.
  2:{ split; [exact Hnodup|]. intros t. split; [auto|].
      intros [Hin|(_ & p & Hp & _)]; [exact Hin|discriminate Hp]. }
  destruct (type placeholder) eqn:Htype;
    try (split; [exact Hnodup|]; intros t; split; [auto|];
         intros [Hin|(_ & p & Hp & Hty & _)]; [exact Hin|congruence]).
  destruct (existsb _ tables) eqn:Hlisted.
  - apply listed_table in Hlisted. split; [exact Hnodup|]. intros t. split; [auto|].
    intros [Hin|(Hrow & p & Hp & _ & Hpath)]; [exact Hin|].
    injection Hp as <-. destruct t as [r q]. cbn in Hrow, Hpath. subst. exact Hlisted.
  - assert (Hnew : mkTableMetadata row (path placeholder) ∉ tables).
    { intros Hin. apply listed_table in Hin. congruence. }
    split.
    + apply NoDup_app. repeat split; [exact Hnodup| |apply NoDup_singleton].
      intros x Hx Hx'. apply list_elem_of_singleton in Hx'. subst. exact (Hnew Hx).
    + intros t. rewrite elem_of_app, list_elem_of_singleton. split.
      * intros [Hin| ->]; [auto|]. right. cbn. eauto.
      * intros [Hin|(Hrow & p & Hp & _ & Hpath)]; [auto|]. right.
        injection Hp as <-. destruct t as [r q]. cbn in Hrow, Hpath. subst. reflexivity.
Qed.

Lemma collect_spec (visitedList : list (Z * Z * Cell)) :
  forall tables : list TableMetadata,
    NoDup tables ->
    NoDup (fold_left collectTable visitedList tables)
    /\ forall t, t ∈ fold_left collectTable visitedList tables
                 <-> t ∈ tables \/ exists rc, rc ∈ visitedList /\ anchorOf t rc.
Proof.
  induction visitedList as [|rc visitedList IH]; intros tables Hnodup.
  - split; [exact Hnodup|]. intros t. split; [auto|].
    intros [Hin|(rc & Hrc & _)]; [exact Hin|inversion Hrc].
  - cbn [fold_left]. destruct (collectTable_spec tables rc Hnodup) as [Hnodup' Hin'].
    destruct (IH _ Hnodup') as [Hnodup'' Hin'']. split; [exact Hnodup''|].
    intros t. rewrite Hin'', Hin'. split.
    + intros [[Hin|Hanchor]|(rc' & Hrc' & Hanchor)]; [auto| |].
      * right. exists rc. split; [left|exact Hanchor].
      * right. exists rc'. split; [right; exact Hrc'|exact Hanchor].
    + intros [Hin|(rc' & Hrc' & Hanchor)]; [auto|].
      apply elem_of_cons in Hrc' as [->|Hrc']; [auto|]. right. eauto.
Qed.

Lemma insertDesc_perm (t : TableMetadata) (sorted : list TableMetadata) :
  insertDesc t sorted ≡ₚ t :: sorted.
Proof.
  induction sorted as [|u sorted IH]; [reflexivity|]. cbn [insertDesc].
  destruct (rowNumber u <? rowNumber t); [reflexivity|].
  rewrite IH. apply Permutation_swap.
Qed.

Lemma insertDesc_bottomUp (t : TableMetadata) (sorted : list TableMetadata) :
  bottomUp sorted -> bottomUp (insertDesc t sorted).
Proof.
  induction sorted as [|u sorted IH]; intros Hsorted; [cbn; auto|].
  cbn [insertDesc]. destruct (rowNumber u <? rowNumber t) eqn:Hlt.
  - apply Z.ltb_lt in Hlt. cbn [bottomUp] in *. destruct Hsorted as [Hall Hrest].
    repeat split; [|exact Hall|exact Hrest].
    constructor; [lia|]. eapply Forall_impl; [exact Hall|]. cbn. intros x Hx. lia.
  - apply Z.ltb_ge in Hlt. cbn [bottomUp] in *. destruct Hsorted as [Hall Hrest].
    split; [|apply IH, Hrest].
    rewrite (insertDesc_perm t sorted). constructor; [exact Hlt|exact Hall].
Qed.

Lemma orderByRowDesc_spec (tables : list TableMetadata) :
  forall sorted : list TableMetadata,
    bottomUp sorted ->
    bottomUp (fold_left (fun sorted t => insertDesc t sorted) tables sorted)
    /\ fold_left (fun sorted t => insertDesc t sorted) tables sorted ≡ₚ (sorted ++ tables)%list.
Proof.
  induction tables as [|t tables IH]; intros sorted Hsorted.
  - cbn. rewrite app_nil_r. auto.
  - cbn [fold_left]. destruct (IH _ (insertDesc_bottomUp t sorted Hsorted)) as [Hs Hp].
    split; [exact Hs|]. rewrite Hp, insertDesc_perm.
    apply Permutation_middle.
Qed.

Lemma visitedCells_rows (worksheet : Worksheet) (rc : Z * Z * Cell) :
  rc ∈ visitedCells worksheet ->
  1 <= fst (fst rc)
  /\ Sheet.hasValue (snd rc) = true
  /\ cells (Sheet.getRow worksheet (fst (fst rc))) !! Z.to_nat (snd (fst rc) - 1) = Some (snd rc).
Proof.
  unfold visitedCells. intros Hin. apply list_elem_of_In, in_concat in Hin as (l & Hl & Hin).
  apply in_map_iff in Hl as ([r row] & <- & Hrow). cbn [fst snd] in Hin.
  unfold Sheet.numbered in Hrow. apply list_elem_of_In, elem_of_lookup_imap in Hrow
    as (i & row' & Heq & Hi). injection Heq as -> ->.
  destruct (Sheet.hasValues row'); [|inversion Hin].
  apply in_map_iff in Hin as ([c cell] & <- & Hcell). cbn [fst snd].
  apply filter_In in Hcell as [Hcell Hvalue]. cbn [snd] in Hvalue.
  unfold Sheet.numbered in Hcell. apply list_elem_of_In, elem_of_lookup_imap in Hcell
    as (j & cell' & Heq & Hj). injection Heq as -> ->.
  split; [lia|]. split; [exact Hvalue|].
  unfold Sheet.getRow. replace (Z.to_nat (Z.of_nat (S i) - 1)) with i by lia.
  rewrite (nth_lookup_Some _ _ _ _ Hi).
  replace (Z.to_nat (Z.of_nat (S j) - 1)) with j by lia. exact Hj.
Qed.

(** X10.  [scanTables] lists every table anchor of the sheet once,
    from the bottom of the sheet to the top: the rows never increase
    along the list, each entry is the row and path of a cell that
    holds a table placeholder, and each such cell is listed. *)
Theorem scanTables_bottom_up :
  forall worksheet : Worksheet,
    bottomUp (scanTables worksheet)
    /\ NoDup (scanTables worksheet)
    /\ (forall t, t ∈ scanTables worksheet
                  <-> exists rc, rc ∈ visitedCells worksheet /\ anchorOf t rc)
    /\ Forall (fun t => 1 <= rowNumber t) (scanTables worksheet).
Proof.
  intros worksheet. rewrite scanTables_unfold. unfold orderByRowDesc.
  destruct (collect_spec (visitedCells worksheet) [] (NoDup_nil_2)) as [Hnodup Hin].
  destruct (orderByRowDesc_spec (fold_left collectTable (visitedCells worksheet) []) [] I)
    as [Hsorted Hperm].
  cbn [app] in Hperm.
  assert (Hmem : forall t, t ∈ fold_left (fun sorted t => insertDesc t sorted)
                                 (fold_left collectTable (visitedCells worksheet) []) []
                           <-> exists rc, rc ∈ visitedCells worksheet /\ anchorOf t rc).
  { intros t. rewrite Hperm, Hin. split; [|auto].
    intros [Hnil|Hrc]; [inversion Hnil|exact Hrc]. }
  split; [exact Hsorted|]. split; [rewrite Hperm; exact Hnodup|]. split; [exact Hmem|].
  apply Forall_forall. intros t Ht. apply Hmem in Ht as (rc & Hrc & Hrow & _).
  destruct (visitedCells_rows worksheet rc Hrc) as [Hpos _]. lia.
Qed.

(** ** The print area *)








(** ** Images during a table expansion *)

Lemma foldM_invariant {A S : Type} (f : S -> A -> Result S) (R : S -> S -> Prop) :
  (forall s, R s s) -> (forall a b c, R a b -> R b c -> R a c) ->
  (forall s a s', f s a = Ok s' -> R s s') ->
  forall (l : list A) (s s' : S), foldM f l s = Ok s' -> R s s'.
Proof.
  intros Hrefl Htrans Hstep. induction l as [|a l IH]; intros s s' Hfold.
  - injection Hfold as <-. apply Hrefl.
  - cbn [foldM] in Hfold. apply bind_Ok in Hfold as (s1 & Hs1 & Hrest).
    eapply Htrans; [eapply Hstep, Hs1|apply IH, Hrest].
Qed.







(** ** Quantifiers over a class of characters *)

Lemma run_Rep (greedy : bool) (lo : nat) (hi : option nat) (r : Regex.Re)
    (st : Regex.MState) (k : Regex.Cont) :
  Regex.run (Regex.Rep greedy lo hi r) st k
  = turns r k greedy (lo + List.length (Regex.rest st) + 1) lo hi st.
Proof. reflexivity. Qed.

Lemma turns_S (r : Regex.Re) (k : Regex.Cont) (greedy : bool) (fuel lo : nat)
    (st : Regex.MState) :
  turns r k greedy (S fuel) lo None st
  = let again :=
      Regex.run r st (fun st' =>
        if (lo =? 0)%nat && (Regex.pos st' =? Regex.pos st)%nat then None
        else turns r k greedy fuel (Nat.pred lo) None st') in
    if (0 <? lo)%nat then again
    else if greedy then Regex.orElse again (k st)
    else Regex.orElse (k st) again.
Proof. reflexivity. Qed.

(** A greedy quantifier over a class takes every character of the
    class it finds, when what follows the quantifier then matches. *)
Lemma turns_class_greedy (p : ascii -> bool) (k : Regex.Cont) (l2 : list ascii) :
  match l2 with c :: _ => p c = false | [] => True end ->
  forall (l1 : list ascii) (lo fuel pos : nat) (caps : list (nat * string))
         (res : Regex.MState),
    Forall (fun c => p c = true) l1 ->
    (lo <= List.length l1)%nat -> (List.length l1 < fuel)%nat ->
    k (advanced pos l1 l2 caps) = Some res ->
    turns (Regex.Chr p) k true fuel lo None (Regex.mkMState pos (l1 ++ l2)%list caps)
    = Some res.
Proof.
  intros Hl2. induction l1 as [|c l1 IH]; intros lo fuel pos caps res Hall Hlo Hfuel Hk.
  - destruct fuel as [|fuel]; [cbn in Hfuel; lia|]. rewrite turns_S.
    cbn in Hlo. replace lo with 0%nat by lia. cbn [Nat.ltb Nat.leb].
    unfold advanced in Hk. cbn [List.length] in Hk. rewrite Nat.add_0_r in Hk.
    cbn [app Regex.run Regex.rest]. destruct l2 as [|d l2]; cbn zeta.
    + cbn [Regex.orElse]. exact Hk.
    + rewrite Hl2. cbn [Regex.orElse]. exact Hk.
  - destruct fuel as [|fuel]; [cbn in Hfuel; lia|]. rewrite turns_S.
    inversion Hall as [|c' l1' Hc Hrest]; subst.
    cbn [app Regex.run Regex.rest Regex.pos Regex.caps]. rewrite Hc.
    replace (S pos =? pos)%nat with false by (symmetry; apply Nat.eqb_neq; lia).
    rewrite andb_false_r.
    rewrite (IH (Nat.pred lo) fuel (S pos) caps res Hrest);
      [|cbn in Hlo; lia|cbn in Hfuel; lia|].
    + cbn zeta. destruct (0 <? lo)%nat; reflexivity.
    + unfold advanced in *. cbn [List.length] in Hk.
      replace (S pos + List.length l1)%nat with (pos + S (List.length l1))%nat by lia.
      exact Hk.
Qed.

Lemma plus_class (p : ascii -> bool) (k : Regex.Cont) (l1 l2 : list ascii)
    (pos : nat) (caps : list (nat * string)) (res : Regex.MState) :
  match l2 with c :: _ => p c = false | [] => True end ->
  Forall (fun c => p c = true) l1 -> l1 <> [] ->
  k (advanced pos l1 l2 caps) = Some res ->
  Regex.run (Regex.plus (Regex.Chr p)) (Regex.mkMState pos (l1 ++ l2)%list caps) k = Some res.
Proof.
  intros Hl2 Hall Hne Hk. unfold Regex.plus. rewrite run_Rep.
  apply turns_class_greedy; try assumption.
  - destruct l1; [congruence|cbn; lia].
  - cbn [Regex.rest]. rewrite length_app. lia.
Qed.

(** A group around a greedy class records the characters taken. *)
Lemma group_plus_class (i : nat) (p : ascii -> bool) (k : Regex.Cont) (l1 l2 : list ascii)
    (pos : nat) (caps : list (nat * string)) (res : Regex.MState) :
  match l2 with c :: _ => p c = false | [] => True end ->
  Forall (fun c => p c = true) l1 -> l1 <> [] ->
  k (advanced pos l1 l2 ((i, string_of_list_ascii l1) :: caps)) = Some res ->
  Regex.run (Regex.Group i (Regex.plus (Regex.Chr p)))
            (Regex.mkMState pos (l1 ++ l2)%list caps) k = Some res.
Proof.
  intros Hl2 Hall Hne Hk. cbn [Regex.run]. fold (Regex.plus (Regex.Chr p)).
  apply plus_class; try assumption.
  unfold advanced in *. cbn [Regex.pos Regex.rest Regex.caps].
  replace (pos + List.length l1 - pos)%nat with (List.length l1) by lia.
  rewrite take_app_length. exact Hk.
Qed.

(** ** Strings of letters and digits *)

Lemma list_of_append (a b : string) :
  list_ascii_of_string (a ++ b) = (list_ascii_of_string a ++ list_ascii_of_string b)%list.
Proof.
  induction a as [|c a IH]; [rewrite append_nil_l; reflexivity|].
  rewrite append_cons. cbn [list_ascii_of_string app]. rewrite IH. reflexivity.
Qed.

Lemma all_chars_Forall (p : ascii -> bool) (s : string) :
  Js.all_chars p s = true -> Forall (fun c => p c = true) (list_ascii_of_string s).
Proof.
  induction s as [|c s IH]; [constructor|]. cbn. intros Hall.
  apply andb_prop in Hall as [Hc Hs]. constructor; auto.
Qed.

Lemma all_chars_impl (p q : ascii -> bool) (s : string) :
  (forall c, p c = true -> q c = true) ->
  Js.all_chars p s = true -> Js.all_chars q s = true.
Proof.
  intros Hpq. induction s as [|c s IH]; [reflexivity|]. cbn. intros Hall.
  apply andb_prop in Hall as [Hc Hs]. rewrite (Hpq c Hc), (IH Hs). reflexivity.
Qed.

Lemma all_chars_app (p : ascii -> bool) (a b : string) :
  Js.all_chars p (a ++ b) = Js.all_chars p a && Js.all_chars p b.
Proof.
  induction a as [|c a IH]; [rewrite append_nil_l; reflexivity|].
  rewrite append_cons. cbn [Js.all_chars]. rewrite IH, andb_assoc. reflexivity.
Qed.

Lemma list_of_nonempty (s : string) : s <> "" -> list_ascii_of_string s <> [].
Proof. destruct s; [congruence|discriminate]. Qed.

Lemma upper_is_letter (c : ascii) : Regex.is_upper c = true -> Regex.is_letter c = true.
Proof. unfold Regex.is_letter. intros ->. reflexivity. Qed.

Lemma upper_not_digit (c : ascii) : Regex.is_upper c = true -> Js.is_digit c = false.
Proof.
  unfold Regex.is_upper, Js.is_digit. intros Hc. apply andb_prop in Hc as [Hlo _].
  apply Nat.leb_le in Hlo. apply andb_false_intro2. apply Nat.leb_gt. lia.
Qed.

Lemma digit_not_upper (c : ascii) : Js.is_digit c = true -> Regex.is_upper c = false.
Proof.
  intros Hc. destruct (Regex.is_upper c) eqn:Hu; [|reflexivity].
  rewrite (upper_not_digit c Hu) in Hc. discriminate Hc.
Qed.

Lemma digit_not_letter (c : ascii) : Js.is_digit c = true -> Regex.is_letter c = false.
Proof.
  intros Hc. pose proof (digit_code c Hc) as Hcode.
  unfold Regex.is_letter, Regex.is_upper, Regex.is_lower.
  apply orb_false_intro; apply andb_false_intro1; apply Nat.leb_gt; lia.
Qed.

Lemma code_not_char (c d : ascii) : nat_of_ascii c <> nat_of_ascii d -> Ascii.eqb c d = false.
Proof. intros Hne. apply Ascii.eqb_neq. congruence. Qed.

Lemma upper_code (c : ascii) : Regex.is_upper c = true -> (65 <= nat_of_ascii c <= 90)%nat.
Proof.
  unfold Regex.is_upper. intros Hc. apply andb_prop in Hc as [Hlo Hhi].
  apply Nat.leb_le in Hlo, Hhi. lia.
Qed.

(** ** The decimal text of a row number *)

Lemma digit_of_remainder (m : Z) :
  0 <= m < 10 ->
  Js.is_digit (ascii_of_nat (Z.to_nat (48 + m))) = true
  /\ Js.digit_val (ascii_of_nat (Z.to_nat (48 + m))) = m.
Proof.
  intros Hm. unfold Js.is_digit, Js.digit_val. rewrite nat_ascii_embedding by lia.
  split; [|lia]. apply andb_true_intro. split; apply Nat.leb_le; lia.
Qed.

Lemma pos_digits_spec (fuel : nat) :
  forall (n : Z) (acc : string),
    (0 < fuel)%nat -> 0 <= n < 2 ^ Z.of_nat fuel ->
    exists ds,
      Str.pos_digits fuel n acc = ds ++ acc
      /\ ds <> ""
      /\ Js.all_chars Js.is_digit ds = true
      /\ forall (a : Z) (rest : string),
           Js.digits_val a (ds ++ rest)
           = Js.digits_val (a * 10 ^ Z.of_nat (String.length ds) + n) rest.
Proof.
  induction fuel as [|fuel IH]; intros n acc Hfuel Hn; [lia|].
  cbn [Str.pos_digits]. clear Hfuel.
  -
    assert (Hmod : 0 <= n mod 10 < 10) by (apply Z.mod_pos_bound; lia).
    destruct (digit_of_remainder (n mod 10) Hmod) as [Hdigit Hval].
    set (c := ascii_of_nat (Z.to_nat (48 + n mod 10))) in *.
    destruct (n <? 10) eqn:Hsmall.
    + apply Z.ltb_lt in Hsmall. exists (String c ""). split; [|split; [|split]].
      * rewrite append_cons, append_nil_l. reflexivity.
      * discriminate.
      * cbn. rewrite Hdigit. reflexivity.
      * intros a rest. rewrite append_cons, append_nil_l. cbn [Js.digits_val String.length].
        rewrite Hval, Z.mod_small by lia. f_equal. lia.
    + apply Z.ltb_ge in Hsmall.
      destruct (IH (n / 10) (String c acc)) as (ds & Hrun & Hne & Hall & Hvalue).
      { destruct fuel; [cbn in Hn; lia|lia]. }
      { split; [apply Z.div_pos; lia|].
        apply Z.div_lt_upper_bound; [lia|].
        rewrite Nat2Z.inj_succ, Z.pow_succ_r in Hn by lia. lia. }
      exists (ds ++ String c ""). split; [|split; [|split]].
      * rewrite Hrun, append_assoc, append_cons, append_nil_l. reflexivity.
      * destruct ds; [rewrite append_nil_l|rewrite append_cons]; discriminate.
      * rewrite all_chars_app, Hall. cbn. rewrite Hdigit. reflexivity.
      * intros a rest. rewrite append_assoc, Hvalue, append_cons, append_nil_l.
        cbn [Js.digits_val]. rewrite Hval. f_equal.
        assert (Hlen : String.length (ds ++ String c "") = S (String.length ds)).
        { clear. induction ds as [|d ds IHds]; [rewrite append_nil_l; reflexivity|].
          rewrite append_cons. cbn [String.length]. rewrite IHds. reflexivity. }
        rewrite Hlen, Nat2Z.inj_succ, Z.pow_succ_r by lia.
        pose proof (Z.div_mod n 10 ltac:(lia)). lia.
Qed.

(** The text of a number that is not negative is made of digits that
    read back as the number. *)
Lemma ofZ_digits (n : Z) :
  0 <= n ->
  Str.ofZ n <> "" /\ Js.all_chars Js.is_digit (Str.ofZ n) = true
  /\ Js.digits_val 0 (Str.ofZ n) = n.
Proof.
  intros Hn. unfold Str.ofZ. destruct (n <? 0) eqn:Hneg; [apply Z.ltb_lt in Hneg; lia|].
  destruct (pos_digits_spec (Z.to_nat (Z.log2 n) + 1) n "") as (ds & Hrun & Hne & Hall & Hvalue).
  { lia. }
  { split; [exact Hn|]. rewrite Nat2Z.inj_add, Z2Nat.id by apply Z.log2_nonneg.
    destruct (Z.eq_dec n 0) as [->|Hpos]; [cbn; lia|].
    apply Z.log2_spec. lia. }
  rewrite Hrun, append_nil_r. repeat split; [exact Hne|exact Hall|].
  rewrite <- (append_nil_r ds), Hvalue. cbn. lia.
Qed.

(** ** Ranges *)

Lemma split_from_without (sep : ascii) (s : string) :
  forall cur, without sep s = true -> Str.split_from cur sep s = [cur ++ s].
Proof.
  induction s as [|c s IH]; intros cur Hs.
  - cbn. rewrite append_nil_r. reflexivity.
  - cbn in Hs. apply andb_prop in Hs as [Hc Hs]. apply negb_true_iff in Hc.
    cbn [Str.split_from]. rewrite Hc, (IH _ Hs), append_assoc, append_cons, append_nil_l.
    reflexivity.
Qed.

Lemma split_from_at (sep : ascii) (s rest : string) :
  forall cur, without sep s = true ->
  Str.split_from cur sep (s ++ String sep rest) = (cur ++ s) :: Str.split_from "" sep rest.
Proof.
  induction s as [|c s IH]; intros cur Hs.
  - rewrite append_nil_l. cbn [Str.split_from]. rewrite Ascii.eqb_refl, append_nil_r.
    reflexivity.
  - cbn in Hs. apply andb_prop in Hs as [Hc Hs]. apply negb_true_iff in Hc.
    rewrite append_cons. cbn [Str.split_from].
    rewrite Hc, (IH _ Hs), append_assoc, append_cons, append_nil_l. reflexivity.
Qed.

Lemma upper_without_colon (s : string) :
  Js.all_chars Regex.is_upper s = true -> without ":" s = true.
Proof.
  apply all_chars_impl. intros c Hc. apply negb_true_iff, code_not_char.
  pose proof (upper_code c Hc). assert (nat_of_ascii ":" = 58%nat) by reflexivity. lia.
Qed.

Lemma digits_without_colon (s : string) :
  Js.all_chars Js.is_digit s = true -> without ":" s = true.
Proof.
  apply all_chars_impl. intros c Hc. apply negb_true_iff, code_not_char.
  pose proof (digit_code c Hc). assert (nat_of_ascii ":" = 58%nat) by reflexivity. lia.
Qed.

Lemma columnNumberToLetter_shape (n : Z) :
  1 <= n ->
  columnNumberToLetter n <> ""
  /\ Js.all_chars Regex.is_upper (columnNumberToLetter n) = true
  /\ columnLetterToNumber (columnNumberToLetter n) = n.
Proof.
  intros Hn. split; [|split].
  - unfold columnNumberToLetter.
    destruct (number_loop_prefix (Z.to_nat n) n "" ltac:(lia) ltac:(lia))
      as (prefix & Hloop & Hval & _).
    rewrite Hloop. destruct prefix; [cbn in Hval; lia|discriminate].
  - apply all_upper_loop. reflexivity.
  - unfold columnLetterToNumber, columnNumberToLetter.
    destruct (number_loop_prefix (Z.to_nat n) n "" ltac:(lia) ltac:(lia))
      as (prefix & Hloop & Hval & Hupper).
    rewrite Hloop, append_nil_r, Hupper. exact Hval.
Qed.

(** The address pattern on a cell address: the letters, then the
    digits. *)
Lemma exec_address (letters digits : string) :
  letters <> "" -> Js.all_chars Regex.is_upper letters = true ->
  digits <> "" -> Js.all_chars Js.is_digit digits = true ->
  Regex.exec CELL_REGEX.ADDRESS (letters ++ digits)
  = Some (Regex.mkMatch 0 (letters ++ digits) [(2%nat, digits); (1%nat, letters)]).
Proof.
  intros Hl Hupper Hd Hdigits. unfold Regex.exec. rewrite list_of_append.
  set (lA := list_ascii_of_string letters). set (lD := list_ascii_of_string digits).
  assert (HlD : lD <> []) by (apply list_of_nonempty, Hd).
  assert (Hrun : Regex.run CELL_REGEX.ADDRESS (Regex.mkMState 0 (lA ++ lD)%list []) Some
                 = Some (Regex.mkMState (List.length lA + List.length lD) []
                           [(2%nat, digits); (1%nat, letters)])).
  { unfold CELL_REGEX.ADDRESS, Regex.upper, Regex.digit. rewrite run_Seq.
    apply group_plus_class.
    - pose proof (all_chars_Forall _ _ Hdigits) as HallD. fold lD in HallD.
      destruct lD as [|d lD']; [exact I|]. inversion HallD; subst.
      apply digit_not_upper. assumption.
    - apply all_chars_Forall, Hupper.
    - apply list_of_nonempty, Hl.
    - unfold advanced. rewrite <- (app_nil_r lD) at 1.
      apply group_plus_class; [exact I|apply all_chars_Forall, Hdigits|exact HlD|].
      unfold advanced, lA, lD. rewrite !string_of_list_ascii_of_string. reflexivity. }
  destruct (lA ++ lD)%list as [|c l] eqn:Hinput.
  { apply app_eq_nil in Hinput as [_ Hnil]. congruence. }
  cbn [Regex.search]. unfold Regex.matchHere. rewrite Hrun. cbn [Regex.pos Regex.caps].
  rewrite Nat.sub_0_r, <- Hinput, <- length_app, firstn_all.
  unfold lA, lD. rewrite <- list_of_append, string_of_list_ascii_of_string. reflexivity.
Qed.

(** The letters pattern on a cell address: the letters. *)
Lemma exec_letters (letters digits : string) :
  letters <> "" -> Js.all_chars Regex.is_upper letters = true ->
  Js.all_chars Js.is_digit digits = true ->
  exists m, Regex.exec CELL_REGEX.LETTERS (letters ++ digits) = Some m
            /\ Regex.matched m = letters.
Proof.
  intros Hl Hupper Hdigits. unfold Regex.exec. rewrite list_of_append.
  set (lA := list_ascii_of_string letters). set (lD := list_ascii_of_string digits).
  assert (Hrun : Regex.run CELL_REGEX.LETTERS (Regex.mkMState 0 (lA ++ lD)%list []) Some
                 = Some (Regex.mkMState (List.length lA) lD [])).
  { unfold CELL_REGEX.LETTERS, Regex.letter. apply plus_class.
    - pose proof (all_chars_Forall _ _ Hdigits) as HallD. fold lD in HallD.
      destruct lD as [|d lD']; [exact I|]. inversion HallD; subst.
      apply digit_not_letter. assumption.
    - apply all_chars_Forall. eapply all_chars_impl; [apply upper_is_letter|exact Hupper].
    - apply list_of_nonempty, Hl.
    - reflexivity. }
  assert (HlA : lA <> []) by (apply list_of_nonempty, Hl).
  destruct (lA ++ lD)%list as [|c l] eqn:Hinput.
  { apply app_eq_nil in Hinput as [Hnil _]. congruence. }
  cbn [Regex.search]. unfold Regex.matchHere. rewrite Hrun. cbn [Regex.pos Regex.caps].
  eexists. split; [reflexivity|]. cbn [Regex.matched].
  rewrite Nat.sub_0_r, <- Hinput, take_app_length.
  unfold lA. apply string_of_list_ascii_of_string.
Qed.

Lemma ofZ_without_colon (n : Z) : without ":" (Str.ofZ n) = true.
Proof.
  destruct (Z.lt_ge_cases n 0) as [Hneg|Hpos].
  - unfold Str.ofZ. rewrite (proj2 (Z.ltb_lt n 0) Hneg).
    destruct (pos_digits_spec (Z.to_nat (Z.log2 (- n)) + 1) (- n) "")
      as (ds & Hrun & _ & Hall & _).
    { lia. }
    { split; [lia|]. rewrite Nat2Z.inj_add, Z2Nat.id by apply Z.log2_nonneg.
      apply Z.log2_spec. lia. }
    rewrite Hrun, append_nil_r, append_cons, append_nil_l. cbn [without Js.all_chars].
    apply digits_without_colon, Hall.
  - apply digits_without_colon. apply (ofZ_digits n Hpos).
Qed.

Lemma address_without_colon (col row : Z) :
  without ":" (columnNumberToLetter col ++ Str.ofZ row) = true.
Proof.
  unfold without. rewrite all_chars_app. apply andb_true_intro. split.
  - apply upper_without_colon, all_upper_loop. reflexivity.
  - apply ofZ_without_colon.
Qed.

Lemma rangeText_split (top left bottom right : Z) :
  Str.split ":" (rangeText top left bottom right)
  = [columnNumberToLetter left ++ Str.ofZ top; columnNumberToLetter right ++ Str.ofZ bottom].
Proof.
  unfold rangeText, Str.split.
  replace (columnNumberToLetter left ++ Str.ofZ top ++ ":"
           ++ columnNumberToLetter right ++ Str.ofZ bottom)
    with ((columnNumberToLetter left ++ Str.ofZ top)
          ++ String ":" (columnNumberToLetter right ++ Str.ofZ bottom))
    by (rewrite append_assoc, append_cons, append_nil_l; reflexivity).
  rewrite split_from_at by apply address_without_colon.
  rewrite split_from_without by apply address_without_colon.
  rewrite !append_nil_l. reflexivity.
Qed.

Lemma splitRange_rangeText (top left bottom right : Z) :
  splitRange (rangeText top left bottom right)
  = Ok (columnNumberToLetter left ++ Str.ofZ top,
        columnNumberToLetter right ++ Str.ofZ bottom).
Proof. unfold splitRange. rewrite rangeText_split. reflexivity. Qed.

Lemma address_bounds (col row : Z) :
  1 <= col -> 0 <= row ->
  exists m, Regex.exec CELL_REGEX.ADDRESS (columnNumberToLetter col ++ Str.ofZ row) = Some m
            /\ columnLetterToNumber (Regex.group1 1 m) = col
            /\ Js.digits_val 0 (Regex.group1 2 m) = row.
Proof.
  intros Hcol Hrow.
  destruct (columnNumberToLetter_shape col Hcol) as (Hne & Hupper & Hvalue).
  destruct (ofZ_digits row Hrow) as (Hne' & Hdigits & Hvalue').
  rewrite (exec_address _ _ Hne Hupper Hne' Hdigits). eexists. split; [reflexivity|].
  unfold Regex.group1. cbn. auto.
Qed.

Lemma mergeBounds_rangeText (top left bottom right : Z) :
  0 <= top -> 1 <= left -> 0 <= bottom -> 1 <= right ->
  mergeBounds (MergeRange (rangeText top left bottom right))
  = Ok (Some (Sheet.mkBox top left bottom right)).
Proof.
  intros Htop Hleft Hbottom Hright.
  unfold mergeBounds. rewrite splitRange_rangeText. cbn [bind].
  destruct (address_bounds left top Hleft Htop) as (m1 & -> & Hc1 & Hr1).
  destruct (address_bounds right bottom Hright Hbottom) as (m2 & -> & Hc2 & Hr2).
  rewrite Hc1, Hr1, Hc2, Hr2. reflexivity.
Qed.

(** X13.  The text the engine writes for a range reads back as the
    same four bounds: [getMergeInfo] and [mergeCells] decode what
    [getMergeInfo] and [applyMergePatternsToRow] encode. *)
Theorem rangeText_roundtrip :
  forall top left bottom right : Z,
    0 <= top -> 1 <= left -> 0 <= bottom -> 1 <= right ->
    mergeBounds (MergeRange (rangeText top left bottom right))
    = Ok (Some (Sheet.mkBox top left bottom right))
    /\ SheetMerge.decode (rangeText top left bottom right)
       = Some (Sheet.mkBox top left bottom right).
Proof.
  intros top left bottom right Htop Hleft Hbottom Hright.
  assert (Hbounds : mergeBounds (MergeRange (rangeText top left bottom right))
                    = Ok (Some (Sheet.mkBox top left bottom right)))
    by (apply mergeBounds_rangeText; assumption).
  split; [exact Hbounds|]. unfold SheetMerge.decode. rewrite Hbounds. reflexivity.
Qed.

Lemma rangeText_roundtrip_witness :
  mergeBounds (MergeRange (rangeText 12 27 15 703))
  = Ok (Some (Sheet.mkBox 12 27 15 703))
  /\ rangeText 12 27 15 703 = "AA12:AAA15".
Proof.
  split; [apply (rangeText_roundtrip 12 27 15 703); lia|reflexivity].
Defined.

(** ** Merged cells *)

Lemma getMergeInfo_loop_read (ms : list Merge) (bounds : list (option Sheet.Box))
    (row col : Z) :
  Forall2 (fun merge b => mergeBounds merge = Ok b) ms bounds ->
  getMergeInfo_loop ms row col = Ok (infoOf <$> firstHolding bounds row col).
Proof.
  unfold firstHolding. induction 1 as [|merge ob ms bounds Hread _ IH]; [reflexivity|].
  cbn [getMergeInfo_loop]. rewrite Hread. cbn [bind].
  destruct ob as [b|]; cbn [omap list_omap id]; [|exact IH].
  cbn [List.find].
  change ((Sheet.top b <=? row) && (row <=? Sheet.bottom b)
          && (Sheet.left b <=? col) && (col <=? Sheet.right b)) with (holds b row col).
  destruct (holds b row col); [reflexivity|exact IH].
Qed.

Lemma firstHolding_Some (bounds : list (option Sheet.Box)) (row col : Z) (b : Sheet.Box) :
  firstHolding bounds row col = Some b -> Some b ∈ bounds /\ holds b row col = true.
Proof.
  unfold firstHolding. intros Hfind. apply find_some in Hfind as [Hin Hholds].
  split; [|exact Hholds]. apply list_elem_of_In, list_elem_of_omap in Hin as (ob & Hob & Hid).
  cbn in Hid. subst ob. exact Hob.
Qed.

(** X14.  When every merge of the sheet can be read, [getMergeInfo]
    answers with the first merge that holds the cell, or with [null]
    when none does: the master is the top-left cell of that merge, and
    the range it reports reads back as the bounds of the merge. *)
Theorem getMergeInfo_first_merge :
  forall (worksheet : Worksheet) (bounds : list (option Sheet.Box)) (row col : Z),
    mergesRead worksheet bounds ->
    getMergeInfo worksheet row col = Ok (infoOf <$> firstHolding bounds row col)
    /\ (forall b, firstHolding bounds row col = Some b ->
          Some b ∈ bounds /\ holds b row col = true
          /\ (writable b -> mergeBounds (MergeRange (mi_range (infoOf b))) = Ok (Some b)))
    /\ (firstHolding bounds row col = None ->
        forall b, Some b ∈ bounds -> holds b row col = false).
Proof.
  intros worksheet bounds row col Hread. split; [|split].
  - apply getMergeInfo_loop_read, Hread.
  - intros b Hfirst. destruct (firstHolding_Some _ _ _ _ Hfirst) as [Hin Hholds].
    repeat split; [exact Hin|exact Hholds|].
    intros (Htop & Hleft & Hbottom & Hright). cbn [infoOf mi_range].
    rewrite mergeBounds_rangeText by assumption. destruct b. reflexivity.
  - unfold firstHolding. intros Hnone b Hin.
    destruct (holds b row col) eqn:Hholds; [|reflexivity].
    rewrite <- Hholds. apply (find_none _ _ Hnone b).
    apply list_elem_of_In, list_elem_of_omap. exists (Some b). auto.
Qed.

Lemma getMergeInfo_first_merge_witness :
  getMergeInfo (mkWorksheet [] [MergeRange "B2:C3"; MergeBox 3 3 5 4] [] [] None) 3 3
  = Ok (Some (mkMergeInfo 2 2 "B2:C3")).
Proof.
  destruct (getMergeInfo_first_merge
              (mkWorksheet [] [MergeRange "B2:C3"; MergeBox 3 3 5 4] [] [] None)
              [Some (Sheet.mkBox 2 2 3 3); Some (Sheet.mkBox 3 3 5 4)] 3 3) as (Hinfo & _).
  - repeat constructor.
  - rewrite Hinfo. reflexivity.
Defined.

(** ** The template of a row *)


Lemma extractMergePatternsFromRow_fold (worksheet : Worksheet) (rowNumber : Z)
    (patterns : list MergePattern) (processedCols : gset Z) :
  foldM (patternStep worksheet rowNumber)
    (seqZ 1 (if Sheet.cellCount (Sheet.getRow worksheet rowNumber) =? 0 then 20
             else Sheet.cellCount (Sheet.getRow worksheet rowNumber))) ([], ∅)
  = Ok (patterns, processedCols) ->
  extractMergePatternsFromRow worksheet rowNumber = Ok patterns.
Proof.
  intros Hfold. unfold extractMergePatternsFromRow. unfold patternStep in Hfold.
  rewrite Hfold. reflexivity.
Qed.

Lemma extractMergePatternsFromRow_Ok (worksheet : Worksheet) (rowNumber : Z)
    (patterns : list MergePattern) :
  extractMergePatternsFromRow worksheet rowNumber = Ok patterns ->
  exists processedCols,
    foldM (patternStep worksheet rowNumber)
      (seqZ 1 (if Sheet.cellCount (Sheet.getRow worksheet rowNumber) =? 0 then 20
               else Sheet.cellCount (Sheet.getRow worksheet rowNumber))) ([], ∅)
    = Ok (patterns, processedCols).
Proof.
  unfold extractMergePatternsFromRow. intros Hbind.
  apply bind_Ok in Hbind as ([ps cols] & Hfold & Hret). injection Hret as <-.
  exists cols. exact Hfold.
Qed.

Lemma foldM_total {A S : Type} (f : S -> A -> Result S) (l : list A) :
  (forall s a, exists s', f s a = Ok s') -> forall s, exists s', foldM f l s = Ok s'.
Proof.
  intros Hstep. induction l as [|a l IH]; intros s; [eexists; reflexivity|].
  cbn [foldM]. destruct (Hstep s a) as (s1 & ->). cbn [bind]. apply IH.
Qed.

Section ReadableMerges.
Variables (worksheet : Worksheet) (bounds : list (option Sheet.Box)) (rowNumber : Z).
Hypothesis merges_read : mergesRead worksheet bounds.

Lemma getMergeInfo_read (col : Z) :
  getMergeInfo worksheet rowNumber col = Ok (infoOf <$> firstHolding bounds rowNumber col).
Proof. apply getMergeInfo_loop_read, merges_read. Qed.

Lemma patternStep_total (st : list MergePattern * gset Z) (col : Z) :
  exists st', patternStep worksheet rowNumber st col = Ok st'.
Proof.
  destruct st as [patterns processedCols]. unfold patternStep.
  destruct (bool_decide (col ∈ processedCols)); [eexists; reflexivity|].
  rewrite getMergeInfo_read. cbn [bind].
  destruct (firstHolding bounds rowNumber col) as [b|]; cbn [fmap option_fmap option_map];
    [|eexists; reflexivity].
  cbn [infoOf master_row mi_range].
  destruct (Sheet.top b =? rowNumber); [|eexists; reflexivity].
  rewrite splitRange_rangeText. cbn [bind].
  destruct (Regex.exec CELL_REGEX.LETTERS _); [|eexists; reflexivity].
  destruct (Regex.exec CELL_REGEX.LETTERS _); eexists; reflexivity.
Qed.



End ReadableMerges.



(** ** Merge patterns *)

Lemma patternStep_sound (worksheet : Worksheet) (bounds : list (option Sheet.Box))
    (rowNumber : Z) (P : MergePattern -> Prop) :
  mergesRead worksheet bounds ->
  Forall (fun ob => match ob with Some b => writable b | None => True end) bounds ->
  (forall b, Some b ∈ bounds -> Sheet.top b = rowNumber ->
             P (mkMergePattern (Sheet.left b) (Sheet.right b)
                  (Sheet.right b - Sheet.left b + 1))) ->
  forall (st st' : list MergePattern * gset Z) (col : Z),
    patternStep worksheet rowNumber st col = Ok st' ->
    Forall P (fst st) -> Forall P (fst st').
Proof.
  intros Hread Hwritable HP [patterns processedCols] st' col. unfold patternStep.
  destruct (bool_decide (col ∈ processedCols)); [intros [= <-]; auto|].
  rewrite (getMergeInfo_read worksheet bounds rowNumber Hread). cbn [bind].
  destruct (firstHolding bounds rowNumber col) as [b|] eqn:Hfirst;
    cbn [fmap option_fmap option_map]; [|intros [= <-]; auto].
  cbn [infoOf master_row mi_range].
  destruct (Sheet.top b =? rowNumber) eqn:Htop; [|intros [= <-]; auto].
  apply Z.eqb_eq in Htop.
  rewrite splitRange_rangeText. cbn [bind].
  destruct (firstHolding_Some _ _ _ _ Hfirst) as [Hin _].
  rewrite Forall_forall in Hwritable.
  destruct (Hwritable _ Hin) as (Ht & Hl & Hb & Hr).
  destruct (columnNumberToLetter_shape _ Hl) as (Hne1 & Hupper1 & Hvalue1).
  destruct (columnNumberToLetter_shape _ Hr) as (Hne2 & Hupper2 & Hvalue2).
  destruct (ofZ_digits _ Ht) as (_ & Hdigits1 & _).
  destruct (ofZ_digits _ Hb) as (_ & Hdigits2 & _).
  destruct (exec_letters _ _ Hne1 Hupper1 Hdigits1) as (m1 & -> & ->).
  destruct (exec_letters _ _ Hne2 Hupper2 Hdigits2) as (m2 & -> & ->).
  rewrite Hvalue1, Hvalue2. intros [= <-] Hall. cbn [fst] in *.
  apply Forall_app. split; [exact Hall|]. constructor; [|constructor]. apply HP; assumption.
Qed.

(** X16.  When every merge of the sheet can be read and has bounds the
    engine can write, [extractMergePatternsFromRow] returns, and every
    pattern it returns is a merge whose first row is the row asked
    for: the pattern has the first and last column of that merge, and
    [spanCols] is the number of columns between them. *)
Theorem extractMergePatternsFromRow_sound :
  forall (worksheet : Worksheet) (bounds : list (option Sheet.Box)) (rowNumber : Z),
    mergesRead worksheet bounds ->
    Forall (fun ob => match ob with Some b => writable b | None => True end) bounds ->
    exists patterns,
      extractMergePatternsFromRow worksheet rowNumber = Ok patterns
      /\ Forall (fun p =>
                   spanCols p = endCol p - startCol p + 1
                   /\ exists b, Some b ∈ bounds /\ Sheet.top b = rowNumber
                                /\ Sheet.left b = startCol p
                                /\ Sheet.right b = endCol p) patterns.
Proof.
  intros worksheet bounds rowNumber Hread Hwritable.
  destruct (foldM_total (patternStep worksheet rowNumber)
              (seqZ 1 (if Sheet.cellCount (Sheet.getRow worksheet rowNumber) =? 0 then 20
                       else Sheet.cellCount (Sheet.getRow worksheet rowNumber)))
              (patternStep_total worksheet bounds rowNumber Hread) ([], ∅))
    as ([patterns processedCols] & Hfold).
  exists patterns. split; [apply (extractMergePatternsFromRow_fold _ _ _ _ Hfold)|].
  set (P := fun p : MergePattern =>
              spanCols p = endCol p - startCol p + 1
              /\ exists b, Some b ∈ bounds /\ Sheet.top b = rowNumber
                           /\ Sheet.left b = startCol p /\ Sheet.right b = endCol p).
  assert (HP : forall b, Some b ∈ bounds -> Sheet.top b = rowNumber ->
                 P (mkMergePattern (Sheet.left b) (Sheet.right b)
                      (Sheet.right b - Sheet.left b + 1))).
  { intros b Hin Htop. unfold P. cbn [spanCols startCol endCol]. split; [reflexivity|].
    exists b. auto. }
  apply (foldM_invariant (patternStep worksheet rowNumber)
           (fun s s' => Forall P (fst s) -> Forall P (fst s'))
           (fun s H => H) (fun a b c Hab Hbc H => Hbc (Hab H))
           (fun s a s' => patternStep_sound worksheet bounds rowNumber P Hread Hwritable HP
                             s s' a)
           _ _ _ Hfold).
  constructor.
Qed.

Lemma extractMergePatternsFromRow_sound_witness :
  exists patterns,
    extractMergePatternsFromRow
      (mkWorksheet [plainRow [VNull; VStr "x"]] [MergeRange "B1:D1"; MergeBox 2 1 2 2]
         [] [] None) 1 = Ok patterns
    /\ Forall (fun p => spanCols p = endCol p - startCol p + 1) patterns.
Proof.
  destruct (extractMergePatternsFromRow_sound
              (mkWorksheet [plainRow [VNull; VStr "x"]] [MergeRange "B1:D1"; MergeBox 2 1 2 2]
                 [] [] None)
              [Some (Sheet.mkBox 1 2 1 4); Some (Sheet.mkBox 2 1 2 2)] 1)
    as (patterns & Hrun & Hall).
  - repeat constructor.
  - repeat constructor; cbn; lia.
  - exists patterns. split; [exact Hrun|].
    eapply Forall_impl; [exact Hall|]. intros p [Hspan _]. exact Hspan.
Defined.






(** ** Rows of a sheet *)

Lemma nth_setNth_same {A : Type} (i : nat) (d x : A) (l : list A) :
  nth i (Sheet.setNth i d x l) d = x.
Proof.
  unfold Sheet.setNth. rewrite nth_lookup, list_lookup_insert_eq; [reflexivity|].
  rewrite length_padTo. lia.
Qed.

Lemma nth_setNth_other {A : Type} (i j : nat) (d x : A) (l : list A) :
  i <> j -> nth j (Sheet.setNth i d x l) d = nth j l d.
Proof.
  intros Hne. unfold Sheet.setNth.
  rewrite nth_lookup, list_lookup_insert_ne by exact Hne.
  rewrite <- nth_lookup. apply nth_padTo.
Qed.

Lemma fold_left_invariant {A S : Type} (f : S -> A -> S) (Q : S -> Prop) :
  (forall s a, Q s -> Q (f s a)) -> forall (l : list A) (s : S), Q s -> Q (fold_left f l s).
Proof.
  intros Hstep. induction l as [|a l IH]; intros s Hs; [exact Hs|].
  cbn [fold_left]. apply IH, Hstep, Hs.
Qed.

Lemma clearAndHideRow_cleared (row : Row) : cleared (clearAndHideRow row).
Proof.
  unfold cleared, clearAndHideRow. cbn [hidden height cells]. repeat split.
  apply Forall_forall. intros cell Hcell. apply list_elem_of_fmap in Hcell as (c & -> & _).
  reflexivity.
Qed.

Lemma cleared_not_blank (l : list Row) (i : nat) :
  cleared (nth i l Sheet.blankRow) -> (i < List.length l)%nat.
Proof.
  intros (Hhidden & _). destruct (Nat.lt_ge_cases i (List.length l)) as [Hlt|Hge]; [exact Hlt|].
  rewrite nth_overflow in Hhidden by exact Hge. discriminate Hhidden.
Qed.

Lemma cleared_no_values (row : Row) : cleared row -> Sheet.hasValues row = false.
Proof.
  intros (_ & _ & Hnull). unfold Sheet.hasValues. apply not_true_is_false. intros Hsome.
  apply existsb_exists in Hsome as (cell & Hin & Hvalue).
  rewrite Forall_forall in Hnull. apply list_elem_of_In in Hin.
  unfold Sheet.hasValue in Hvalue. rewrite (Hnull _ Hin) in Hvalue. discriminate Hvalue.
Qed.

(** The rows recorded for hiding are cleared one after the other; a
    cleared row stays cleared. *)
Lemma clear_rows_cleared (rowNumbers : list Z) :
  forall (ws : Worksheet) (r : Z),
    r ∈ rowNumbers ->
    cleared (nth (Z.to_nat (r - 1))
               (rows (fold_left
                        (fun ws r => Sheet.setRow ws r (clearAndHideRow (Sheet.getRow ws r)))
                        rowNumbers ws)) Sheet.blankRow).
Proof.
  assert (Hkeep : forall (i : nat) (ws : Worksheet) (r' : Z),
             cleared (nth i (rows ws) Sheet.blankRow) ->
             cleared (nth i (rows (Sheet.setRow ws r' (clearAndHideRow (Sheet.getRow ws r'))))
                        Sheet.blankRow)).
  { intros i ws r' Hi. unfold Sheet.setRow. cbn [rows Sheet.setRows].
    destruct (Nat.eq_dec (Z.to_nat (r' - 1)) i) as [<-|Hne].
    - rewrite nth_setNth_same. apply clearAndHideRow_cleared.
    - rewrite nth_setNth_other by exact Hne. exact Hi. }
  induction rowNumbers as [|r' rowNumbers IH]; intros ws r Hin; [inversion Hin|].
  cbn [fold_left]. apply elem_of_cons in Hin as [->|Hin]; [|apply IH, Hin].
  apply (fold_left_invariant _
           (fun ws => cleared (nth (Z.to_nat (r' - 1)) (rows ws) Sheet.blankRow))).
  - intros s a Hs. apply Hkeep, Hs.
  - unfold Sheet.setRow. cbn [rows Sheet.setRows]. rewrite nth_setNth_same.
    apply clearAndHideRow_cleared.
Qed.

Lemma nth_numbered_map (f : Z * Row -> Row) (l : list Row) (i : nat) :
  (i < List.length l)%nat ->
  nth i (List.map f (Sheet.numbered l)) Sheet.blankRow
  = f (Z.of_nat (S i), nth i l Sheet.blankRow).
Proof.
  intros Hi. destruct (lookup_lt_is_Some_2 l i Hi) as (row & Hrow).
  rewrite (nth_lookup_Some _ _ _ _ Hrow). apply nth_lookup_Some.
  change (List.map f (Sheet.numbered l)) with (f <$> Sheet.numbered l).
  rewrite list_lookup_fmap. unfold Sheet.numbered. rewrite list_lookup_imap, Hrow.
  reflexivity.
Qed.

Lemma recalculatePrintArea_rows (worksheet : Worksheet) :
  rows (recalculatePrintArea worksheet) = rows worksheet.
Proof. unfold recalculatePrintArea. destruct (contentAddresses worksheet) as [|[r c] more]; reflexivity. Qed.

Section HiddenRows.
Context `{Host}.
Variables (data : JsValue) (options : RenderOptions).

(** Every row recorded for hiding has a number from 1 on. *)
Lemma hide_rows_positive (tables : list TableMetadata) :
  forall st st' : Expansion,
    foldM (expandTable data options) tables st = Ok st' ->
    Forall (fun t => 1 <= rowNumber t) tables ->
    Forall (fun e => Forall (fun r => 1 <= r) (he_rows e)) (hideEntries st) ->
    Forall (fun e => Forall (fun r => 1 <= r) (he_rows e)) (hideEntries st').
Proof.
  induction tables as [|t tables IH]; intros st st' Hfold Htables Hst.
  - injection Hfold as <-. exact Hst.
  - cbn [foldM] in Hfold. apply bind_Ok in Hfold as (st1 & Hstep & Hrest).
    inversion Htables as [|t' tables' Ht Htables']; subst.
    apply (IH _ _ Hrest Htables').
    apply expandTable_Ok in Hstep as (ws' & result & Hrun & ->).
    unfold recordTable. cbn [hideEntries]. apply Forall_app. split; [exact Hst|].
    constructor; [|constructor]. cbn [he_rows].
    destruct (renderTable_Ok _ _ _ _ _ _ _ _ Ht Hrun)
      as [(_ & -> & _)|(item & arr & tpl & outs & _ & _ & _ & -> & _)].
    + repeat constructor; lia.
    + cbn [rowsToHide]. repeat constructor; lia.
Qed.

Lemma offsetRows_positive (entries : list HideEntry) (r : Z) :
  Forall (fun e => Forall (fun r => 1 <= r) (he_rows e)) entries ->
  r ∈ offsetRows entries -> 1 <= r.
Proof.
  intros Hall Hin. unfold offsetRows in Hin.
  apply list_elem_of_In, in_concat in Hin as (l & Hl & Hin).
  apply list_elem_of_In, elem_of_lookup_imap in Hl as (i & e & -> & He).
  apply in_map_iff in Hin as (row & <- & Hrow).
  rewrite Forall_forall in Hall. pose proof (Hall e (list_elem_of_lookup_2 _ _ _ He)) as Hrows.
  rewrite Forall_forall in Hrows. pose proof (Hrows row (proj2 (list_elem_of_In _ _) Hrow)).
  rewrite calculateHideOffset_offsetOver.
  pose proof (offsetOver_bounds (insertedAt (nth i entries emptyHideEntry))
                (drop (S i) entries)). lia.
Qed.

End HiddenRows.

Lemma scanTables_rows_positive (worksheet : Worksheet) :
  Forall (fun t => 1 <= rowNumber t) (scanTables worksheet).
Proof.
  rewrite scanTables_unfold. unfold orderByRowDesc.
  destruct (collect_spec (visitedCells worksheet) [] NoDup_nil_2) as [_ Hin].
  destruct (orderByRowDesc_spec (fold_left collectTable (visitedCells worksheet) []) [] I)
    as [_ Hperm].
  cbn [app] in Hperm. apply Forall_forall. intros t Ht. rewrite Hperm in Ht.
  apply Hin in Ht as [Hnil|(rc & Hrc & Hrow & _)]; [inversion Hnil|].
  destruct (visitedCells_rows worksheet rc Hrc) as [Hpos _]. lia.
Qed.

(** X18.  At the end of [processWorkbook] every row recorded for
    hiding, the anchor row and the template row of each table at
    their corrected positions, is hidden, has height 0 and holds only
    empty cells: no later step of the function shows or fills it
    again. *)
Theorem processWorksheet_hides_table_rows :
  forall (host : Host) (worksheet worksheet' : Worksheet) (data : JsValue)
         (options : RenderOptions) (st : Expansion),
    expandTables worksheet (scanTables worksheet) data options = Ok st ->
    processWorksheet worksheet data options = Ok worksheet' ->
    forall r, r ∈ offsetRows (hideEntries st) ->
      1 <= r /\ cleared (Sheet.getRow worksheet' r).
Proof.
  intros host worksheet worksheet' data options st Hexpand Hrun r Hr.
  assert (Hpos : 1 <= r).
  { apply (offsetRows_positive (hideEntries st)); [|exact Hr].
    apply (hide_rows_positive data options (scanTables worksheet) _ _ Hexpand);
      [apply scanTables_rows_positive|constructor]. }
  split; [exact Hpos|].
  unfold processWorksheet in Hrun. rewrite Hexpand in Hrun. cbn [bind] in Hrun.
  apply bind_Ok in Hrun as (ws4 & Hfinal & Hret). injection Hret as <-.
  set (ws1 := fold_left (fun ws r => Sheet.setRow ws r (clearAndHideRow (Sheet.getRow ws r)))
                (offsetRows (hideEntries st)) (ex_worksheet st)) in *.
  set (i := Z.to_nat (r - 1)).
  assert (H1 : cleared (nth i (rows ws1) Sheet.blankRow))
    by (apply clear_rows_cleared, Hr).
  match type of Hfinal with
  | finalPass _ _ _ _ (fold_left ?f ?l ?w) = _ => set (step3 := f) in *; set (ws2 := w) in *
  end.
  assert (H2 : cleared (nth i (rows ws2) Sheet.blankRow)).
  { unfold ws2. cbn [rows Sheet.setRows].
    rewrite nth_numbered_map by (apply cleared_not_blank, H1).
    replace (Z.of_nat (S i)) with r by (unfold i; lia).
    rewrite (bool_decide_eq_true_2 (r ∈ (list_to_set (offsetRows (hideEntries st)) : gset Z)))
      by (apply elem_of_list_to_set; exact Hr).
    rewrite andb_false_r. exact H1. }
  assert (H3 : forall l, cleared (nth i (rows (fold_left step3 l ws2)) Sheet.blankRow)).
  { intros l. apply (fold_left_invariant step3
                       (fun ws => cleared (nth i (rows ws) Sheet.blankRow))); [|exact H2].
    intros ws n Hws. unfold step3.
    match goal with |- context [if ?c then _ else _] => destruct c end; [|exact Hws].
    unfold Sheet.setRow. cbn [rows Sheet.setRows].
    match goal with |- context [Sheet.setNth ?j _ _ _] =>
      destruct (Nat.eq_dec j i) as [Heq|Hne] end.
    - rewrite Heq, nth_setNth_same. unfold Sheet.getRow. rewrite Heq.
      destruct Hws as (_ & Hheight & Hnull). repeat split; assumption.
    - rewrite nth_setNth_other by exact Hne. exact Hws. }
  match type of Hfinal with
  | finalPass _ _ _ _ (fold_left step3 ?l ws2) = _ => specialize (H3 l); set (ws3 := fold_left step3 l ws2) in *
  end.
  pose proof (finalPass_Ok _ _ _ _ _ _ Hfinal) as Hrows.
  unfold Sheet.getRow. fold i.
  rewrite recalculatePrintArea_rows.
  pose proof (cleared_not_blank _ _ H3) as Hlen.
  destruct (lookup_lt_is_Some_2 _ _ Hlen) as (row & Hrow).
  destruct (Forall2_lookup_l _ _ _ _ _ Hrows Hrow) as (row' & Hrow' & Hh & Hht & Hcells).
  rewrite (nth_lookup_Some _ _ _ _ Hrow) in H3.
  rewrite (nth_lookup_Some _ _ _ _ Hrow').
  rewrite (cleared_no_values row H3) in Hcells.
  assert (Heq : cells row' = cells row).
  { clear -Hcells. induction Hcells as [|c c' l l' Hc _ IH]; [reflexivity|].
    unfold substituted in Hc. cbn [andb] in Hc. rewrite Hc, IH. reflexivity. }
  destruct H3 as (Hhidden & Hheight & Hnull). unfold cleared.
  rewrite Hh, Hht, Heq. repeat split; assumption.
Qed.

Lemma processWorksheet_hides_table_rows_witness :
  offsetRows (hideEntries twoTablesExpansion) = [10; 11; 3; 4]
  /\ cleared (Sheet.getRow twoTablesProcessed 10)
  /\ cleared (Sheet.getRow twoTablesProcessed 3).
Proof.
  assert (Hrows : offsetRows (hideEntries twoTablesExpansion) = [10; 11; 3; 4])
    by (vm_compute; reflexivity).
  pose proof (processWorksheet_hides_table_rows utcHost twoTablesSheet twoTablesProcessed
                twoTablesData noOptions twoTablesExpansion) as Hhidden.
  split; [exact Hrows|]. split.
  - apply (Hhidden ltac:(vm_compute; reflexivity) ltac:(vm_compute; reflexivity) 10).
    rewrite Hrows. left.
  - apply (Hhidden ltac:(vm_compute; reflexivity) ltac:(vm_compute; reflexivity) 3).
    rewrite Hrows. right. right. left.
Defined.

(** ** A sheet without placeholders *)















(** ** The entries of the expansion loop *)

Lemma expandTable_entry `{Host} (data : JsValue) (options : RenderOptions)
    (st st' : Expansion) (t : TableMetadata) :
  1 <= rowNumber t ->
  expandTable data options st t = Ok st' ->
  exists entry, hideEntries st' = (hideEntries st ++ [entry])%list /\ entryOf data t entry.
Proof.
  intros Ht Hstep. apply expandTable_Ok in Hstep as (ws' & result & Hrun & ->).
  unfold recordTable. cbn [hideEntries]. eexists. split; [reflexivity|].
  unfold entryOf. cbn [insertedAt rowsInserted he_rows].
  destruct (renderTable_Ok _ _ _ _ _ _ _ _ Ht Hrun)
    as [(-> & -> & _ & Hnone)|(item & arr & tpl & outs & Hres & _ & _ & -> & _)].
  - cbn [app] in Hnone. split; [reflexivity|]. split.
    + destruct (resolve (tm_path t) [data]) as [| |b|n|s|z|d|[|item arr]|l] eqn:Hres;
        try reflexivity. exfalso. apply (Hnone item arr). reflexivity.
    + rewrite Z.add_0_r. reflexivity.
  - cbn [app] in Hres. rewrite Hres. cbn [tableInfo startRow endRow rowsToHide arrayLength].
    split; [reflexivity|]. split; [lia|]. f_equal; [lia|f_equal; lia].
Qed.

(** X20.  The expansion loop of [processWorkbook] records one hide
    entry per table, in the order of the tables: the entry carries the
    row of the anchor, the number of elements of the array the table is
    bound to (0 when there is no array) as the rows inserted, and as the
    rows to hide the two rows that follow the inserted ones, where the
    anchor and template rows have moved to. *)
Theorem expandTables_hide_entries :
  forall (host : Host) (worksheet : Worksheet) (tables : list TableMetadata)
         (data : JsValue) (options : RenderOptions) (st : Expansion),
    Forall (fun t => 1 <= rowNumber t) tables ->
    expandTables worksheet tables data options = Ok st ->
    Forall2 (entryOf data) tables (hideEntries st).
Proof.
  intros host worksheet tables data options st Htables Hrun. unfold expandTables in Hrun.
  assert (Hgen : forall (tables : list TableMetadata) (st0 st1 : Expansion),
             Forall (fun t => 1 <= rowNumber t) tables ->
             foldM (expandTable data options) tables st0 = Ok st1 ->
             exists new, hideEntries st1 = (hideEntries st0 ++ new)%list
                         /\ Forall2 (entryOf data) tables new).
  { clear. induction tables as [|t tables IH]; intros st0 st1 Hall Hfold.
    - injection Hfold as <-. exists []. rewrite app_nil_r. split; [reflexivity|constructor].
    - cbn [foldM] in Hfold. apply bind_Ok in Hfold as (st' & Hstep & Hrest).
      inversion Hall as [|t' tables' Ht Hall']; subst.
      destruct (expandTable_entry data options _ _ _ Ht Hstep) as (entry & Hentries & Hentry).
      destruct (IH _ _ Hall' Hrest) as (new & Hnew & Hall2).
      exists (entry :: new). split; [|constructor; assumption].
      rewrite Hnew, Hentries, <- app_assoc. reflexivity. }
  destruct (Hgen tables _ _ Htables Hrun) as (new & Hentries & Hall).
  cbn [hideEntries app] in Hentries. rewrite Hentries. exact Hall.
Qed.

Lemma expandTables_hide_entries_witness :
  Forall2 (entryOf twoTablesData) (scanTables twoTablesSheet) (hideEntries twoTablesExpansion)
  /\ hideEntries twoTablesExpansion = [mkHideEntry [8; 9] 5 3; mkHideEntry [3; 4] 1 2].
Proof.
  split; [|vm_compute; reflexivity].
  apply (expandTables_hide_entries utcHost twoTablesSheet (scanTables twoTablesSheet)
           twoTablesData noOptions twoTablesExpansion).
  - vm_compute. repeat constructor; discriminate.
  - vm_compute. reflexivity.
Defined.

(** ** Filling a row from its template *)

Lemma setNth_end {A : Type} (d x : A) (l : list A) :
  Sheet.setNth (List.length l) d x l = (l ++ [x])%list.
Proof.
  unfold Sheet.setNth, Sheet.padTo.
  replace (S (List.length l) - List.length l)%nat with 1%nat by lia. cbn [repeat].
  rewrite insert_app_r_alt by lia. rewrite Nat.sub_diag. reflexivity.
Qed.

Lemma setNth_last {A : Type} (d x y : A) (l : list A) :
  Sheet.setNth (List.length l) d x (l ++ [y])%list = (l ++ [x])%list.
Proof.
  unfold Sheet.setNth, Sheet.padTo. rewrite length_app. cbn [List.length].
  replace (S (List.length l) - (List.length l + 1))%nat with 0%nat by lia.
  cbn [repeat]. rewrite app_nil_r, insert_app_r_alt by lia.
  rewrite Nat.sub_diag. reflexivity.
Qed.

Section FillRow.
Context `{Host}.
Variables (scopes : list JsValue) (options : RenderOptions).

Lemma applyCell_unmerged (done : list Cell) (ct : CellTemplate) :
  isMerged ct = false ->
  applyCell scopes options (mkRow done false None, ∅)
    (Z.of_nat (S (List.length done)), ct)
  = bind (renderTemplate scopes options ct)
      (fun cell => Ok (mkRow (done ++ [cell]) false None, ∅)).
Proof.
  intros Hct. unfold applyCell, renderTemplate.
  rewrite bool_decide_eq_false_2 by apply not_elem_of_empty. rewrite Hct.
  destruct (renderCell (ct_value ct) scopes options) as [v|e]; [|reflexivity].
  cbn [bind]. unfold Sheet.setCell, Sheet.getCell, styleOfTemplate. cbn [cells hidden height].
  replace (Z.to_nat (Z.of_nat (S (List.length done)) - 1)) with (List.length done) by lia.
  rewrite setNth_end, setNth_last. reflexivity.
Qed.

Lemma applyCells_unmerged (templates : list CellTemplate) :
  forall done : list Cell,
    Forall (fun ct => isMerged ct = false) templates ->
    foldM (applyCell scopes options)
      (imap (fun i ct => (Z.of_nat (S (List.length done + i)), ct)) templates)
      (mkRow done false None, ∅)
    = bind (mapM (renderTemplate scopes options) templates)
        (fun new => Ok (mkRow (done ++ new) false None, ∅)).
Proof.
  induction templates as [|ct templates IH]; intros done Hall.
  - cbn. rewrite app_nil_r. reflexivity.
  - inversion Hall as [|ct' templates' Hct Hrest]; subst.
    cbn [imap foldM mapM]. rewrite Nat.add_0_r, (applyCell_unmerged done ct Hct).
    destruct (renderTemplate scopes options ct) as [cell|e]; [|reflexivity].
    cbn [bind].
    assert (Hshift : imap ((fun i ct => (Z.of_nat (S (List.length done + i)), ct)) ∘ S) templates
                     = imap (fun i ct => (Z.of_nat (S (List.length (done ++ [cell]) + i)), ct))
                         templates).
    { apply imap_ext. intros i x _. cbn. rewrite length_app. cbn. do 2 f_equal. lia. }
    rewrite Hshift, (IH _ Hrest).
    destruct (mapM (renderTemplate scopes options) templates) as [new|e]; [|reflexivity].
    cbn [bind]. rewrite <- app_assoc. reflexivity.
Qed.

End FillRow.

(** X21.  For a template row without merged cells, [applyRowTemplate]
    on a new row gives one cell per template, in order: its value is
    what [renderCell] makes of the template's value in the given
    scopes, its style is the template's, with the template's number
    format when it has one.  The row is returned exactly when every
    template cell renders without an exception. *)
Theorem applyRowTemplate_unmerged :
  forall (host : Host) (templates : list CellTemplate) (scopes : list JsValue)
         (options : RenderOptions),
    Forall (fun ct => isMerged ct = false) templates ->
    (forall row, applyRowTemplate Sheet.blankRow templates scopes options = Ok row ->
       hidden row = false /\ height row = None
       /\ Forall2 (renderedFrom scopes options) templates (cells row))
    /\ ((exists row, applyRowTemplate Sheet.blankRow templates scopes options = Ok row)
        <-> forall ct, ct ∈ templates ->
              exists v, renderCell (ct_value ct) scopes options = Ok v).
Proof.
  intros host templates scopes options Hall.
  assert (Heq : applyRowTemplate Sheet.blankRow templates scopes options
                = bind (mapM (renderTemplate scopes options) templates)
                    (fun new => Ok (mkRow new false None))).
  { unfold applyRowTemplate, Sheet.numbered.
    change Sheet.blankRow with (mkRow [] false None).
    rewrite (applyCells_unmerged scopes options templates [] Hall).
    destruct (mapM (renderTemplate scopes options) templates); reflexivity. }
  rewrite Heq. split.
  - intros row Hrow. apply bind_Ok in Hrow as (new & Hnew & Hret). injection Hret as <-.
    cbn [hidden height cells]. repeat split.
    apply mapM_Ok in Hnew. eapply Forall2_impl; [exact Hnew|].
    intros ct cell Hcell. unfold renderTemplate in Hcell.
    apply bind_Ok in Hcell as (v & Hv & Hret). injection Hret as <-.
    split; [exact Hv|reflexivity].
  - split.
    + intros (row & Hrow) ct Hct. apply bind_Ok in Hrow as (new & Hnew & _).
      destruct (proj1 (mapM_total _ _) (ex_intro _ new Hnew) ct Hct) as (cell & Hcell).
      unfold renderTemplate in Hcell. apply bind_Ok in Hcell as (v & Hv & _). eauto.
    + intros Hrender.
      destruct (proj2 (mapM_total (renderTemplate scopes options) templates)) as (new & ->).
      * intros ct Hct. destruct (Hrender ct Hct) as (v & Hv). unfold renderTemplate.
        rewrite Hv. eexists. reflexivity.
      * eexists. reflexivity.
Qed.

Lemma applyRowTemplate_unmerged_witness :
  let scopes := [VObj [("name", VStr "A"); ("qty", VNum (num_of_Z 1))]] in
  Forall (fun ct => isMerged ct = false) (templates itemsTemplate)
  /\ exists row,
       @applyRowTemplate utcHost Sheet.blankRow (templates itemsTemplate) scopes noOptions
       = Ok row
       /\ hidden row = false /\ height row = None
       /\ Forall2 (@renderedFrom utcHost scopes noOptions) (templates itemsTemplate) (cells row).
Proof.
  intros scopes.
  assert (Hall : Forall (fun ct => isMerged ct = false) (templates itemsTemplate))
    by (vm_compute; repeat constructor).
  split; [exact Hall|].
  destruct (applyRowTemplate_unmerged utcHost (templates itemsTemplate) scopes noOptions Hall)
    as [Hshape Htotal].
  destruct (proj2 Htotal) as (row & Hrow).
  - intros ct Hct. vm_compute in Hct.
    repeat (apply elem_of_cons in Hct as [->|Hct]); [..|inversion Hct];
      eexists; vm_compute; reflexivity.
  - exists row. split; [exact Hrow|]. exact (Hshape row Hrow).
Defined.

(** ** Formula values inside a text and in a cell of their own *)

Lemma resolve_single (path : string) (data : JsValue) :
  resolve path [data] = Js.coalesce (Lodash.get data path) (VStr "").
Proof. reflexivity. Qed.

(** X22.  On a host that prints the number 0 as ["0"], for a formula
    type written in capitals and an array path and a field name that
    are not empty, the text [calculateFormulaValue]
    puts into an interpolated string is the string form of the value
    that [renderFormula] puts into a cell when there is no table to
    refer to: the same numbers are read and aggregated, and an unknown
    type gives the same error text. *)
Theorem calculateFormulaValue_agrees :
  forall (host : Host) (formulaType : string) (columnOrField : option string)
         (arrayPath fieldName : string) (data : JsValue),
    numberToString (num_of_Z 0) = "0" ->
    Str.toUpperCase formulaType = formulaType ->
    arrayPath <> "" -> fieldName <> "" ->
    calculateFormulaValue formulaType arrayPath fieldName [data]
    = toStr (renderFormula formulaType columnOrField (Some fieldName) (Some arrayPath)
               None data).
Proof.
  intros host formulaType columnOrField arrayPath fieldName data Hzero Hupper Hpath Hfield.
  unfold calculateFormulaValue, renderFormula.
  rewrite resolve_single, Hupper. unfold Js.nonEmpty.
  rewrite (proj2 (String.eqb_neq arrayPath "") Hpath).
  rewrite (proj2 (String.eqb_neq fieldName "") Hfield). cbn [negb andb].
  change (toStr (VNum (num_of_Z 0)) = "0") in Hzero.
  destruct (Lodash.get data arrayPath) as [| | | | | | |arr|];
    cbn [Js.coalesce Js.isNil]; try (symmetry; exact Hzero).
  destruct (Lodash.isEmptyArr arr); [symmetry; exact Hzero|].
  destruct (List.length (fieldNumbers arr fieldName) =? 0)%nat; [symmetry; exact Hzero|].
  repeat (match goal with
          | |- context [String.eqb formulaType ?s] => destruct (String.eqb formulaType s)
          end; [reflexivity|]).
  reflexivity.
Qed.

Lemma calculateFormulaValue_agrees_witness :
  let data := VObj [("items", VArr [VObj [("qty", VNum (num_of_Z 2))];
                                    VObj [("qty", VStr "3")];
                                    VObj [("qty", VStr "n/a")]])] in
  @calculateFormulaValue utcHost "SUM" "items" "qty" [data] = "5"
  /\ renderFormula "SUM" None (Some "qty") (Some "items") None data = VNum (num_of_Z 5).
Proof.
  intros data.
  assert (Hcell : renderFormula "SUM" None (Some "qty") (Some "items") None data
                  = VNum (num_of_Z 5)) by (vm_compute; reflexivity).
  split; [|exact Hcell].
  rewrite (calculateFormulaValue_agrees utcHost "SUM" None "items" "qty" data);
    [|reflexivity|reflexivity|discriminate|discriminate].
  rewrite Hcell. vm_compute. reflexivity.
Defined.

(** ** Patterns that fail, and lazy quantifiers *)

(** A pattern fails when what follows it fails wherever the pattern may
    stop: [good] holds of the input left and of each of its ends. *)
Lemma run_fail (good : list ascii -> Prop) :
  (forall c l, good (c :: l) -> good l) ->
  forall (r : Regex.Re) (st : Regex.MState) (k : Regex.Cont),
    (forall st', good (Regex.rest st') -> k st' = None) ->
    good (Regex.rest st) -> Regex.run r st k = None.
Proof.
  intros Htl. induction r as [p| |a IHa b IHb|a IHa b IHb|greedy lo hi r IH|i r IH| |];
    intros st k Hk Hgood.
  - cbn [Regex.run]. destruct (Regex.rest st) as [|c cs] eqn:Hrest; [reflexivity|].
    destruct (p c); [|reflexivity]. apply Hk. cbn [Regex.rest]. eapply Htl. exact Hgood.
  - apply Hk, Hgood.
  - rewrite run_Seq. apply IHa; [|exact Hgood]. intros st' Hst'. apply IHb; assumption.
  - cbn [Regex.run]. rewrite (IHa st k Hk Hgood), (IHb st k Hk Hgood). reflexivity.
  - rewrite run_Rep. generalize (lo + List.length (Regex.rest st) + 1)%nat as fuel.
    intros fuel. revert lo hi st Hgood.
    induction fuel as [|fuel IHfuel]; intros lo hi st Hgood; [reflexivity|].
    cbn [turns].
    assert (Hagain :
              Regex.run r st (fun st' =>
                if (lo =? 0)%nat && (Regex.pos st' =? Regex.pos st)%nat then None
                else turns r k greedy fuel (Nat.pred lo) (option_map Nat.pred hi) st')
              = None).
    { apply IH; [|exact Hgood]. intros st' Hst'.
      destruct (_ && _); [reflexivity|]. apply IHfuel, Hst'. }
    destruct hi as [[|h]|]; [apply Hk, Hgood| |];
      cbv zeta; unfold turns in Hagain |- *; rewrite Hagain, (Hk st Hgood);
      destruct (0 <? lo)%nat, greedy; reflexivity.
  - cbn [Regex.run]. apply IH; [|exact Hgood]. intros st' Hst'. apply Hk. exact Hst'.
  - cbn [Regex.run]. destruct (Regex.pos st =? 0)%nat; [apply Hk, Hgood|reflexivity].
  - cbn [Regex.run]. destruct (Regex.rest st) eqn:Hrest; [|reflexivity].
    apply Hk. rewrite Hrest. exact Hgood.
Qed.

(** A pattern that asks for the character [c] somewhere fails on an
    input without it. *)
Lemma run_needs (c : ascii) (before after : Regex.Re) (st : Regex.MState) (k : Regex.Cont) :
  Forall (fun d => d <> c) (Regex.rest st) ->
  Regex.run (Regex.Seq before (Regex.Seq (Regex.chr c) after)) st k = None.
Proof.
  intros Hno. rewrite run_Seq.
  apply (run_fail (Forall (fun d => d <> c))); [|  |exact Hno].
  - intros d l Hl. inversion Hl; assumption.
  - intros st' Hst'. rewrite run_Seq. unfold Regex.chr. cbn [Regex.run].
    destruct (Regex.rest st') as [|d l]; [reflexivity|].
    inversion Hst' as [|d' l' Hd Hl]; subst.
    destruct (Ascii.eqb c d) eqn:Hcd; [|reflexivity].
    apply Ascii.eqb_eq in Hcd. congruence.
Qed.

Lemma run_lit (s : string) :
  forall (l : list ascii) (pos : nat) (caps : list (nat * string)) (k : Regex.Cont),
    Regex.run (Regex.lit s) (Regex.mkMState pos (list_ascii_of_string s ++ l)%list caps) k
    = k (Regex.mkMState (pos + String.length s) l caps).
Proof.
  induction s as [|c s IH]; intros l pos caps k.
  - cbn. rewrite Nat.add_0_r. reflexivity.
  - destruct s as [|c' s].
    + cbn. rewrite Ascii.eqb_refl. f_equal. f_equal. lia.
    + change (Regex.lit (String c (String c' s)))
        with (Regex.Seq (Regex.chr c) (Regex.lit (String c' s))).
      rewrite run_Seq. unfold Regex.chr at 1.
      cbn [Regex.run Regex.rest list_ascii_of_string app Regex.pos Regex.caps].
      rewrite Ascii.eqb_refl.
      change (c' :: (list_ascii_of_string s ++ l)%list)
        with (list_ascii_of_string (String c' s) ++ l)%list.
      rewrite IH. f_equal. f_equal. cbn [String.length]. lia.
Qed.

(** A pattern that begins with a literal fails on an input that begins
    otherwise. *)
Lemma run_lit_other (s : string) :
  forall (l : list ascii) (pos : nat) (caps : list (nat * string)) (k : Regex.Cont),
    String.prefix s (string_of_list_ascii l) = false ->
    Regex.run (Regex.lit s) (Regex.mkMState pos l caps) k = None.
Proof.
  induction s as [|c s IH]; intros l pos caps k Hpre.
  - destruct (string_of_list_ascii l); discriminate Hpre.
  - destruct l as [|d l]; cbn [string_of_list_ascii String.prefix] in Hpre.
    + destruct s; reflexivity.
    + assert (Hstep : Regex.run (Regex.lit (String c s)) (Regex.mkMState pos (d :: l) caps) k
                      = if Ascii.eqb c d
                        then Regex.run (Regex.lit s) (Regex.mkMState (S pos) l caps) k
                        else None).
      { destruct s; cbn [Regex.lit]; [|rewrite run_Seq]; unfold Regex.chr;
          cbn [Regex.run Regex.rest Regex.pos Regex.caps]; reflexivity. }
      rewrite Hstep. destruct (Ascii.eqb c d) eqn:Hcd; [|reflexivity].
      apply Ascii.eqb_eq in Hcd. subst d.
      destruct (ascii_dec c c) as [_|Hne]; [|congruence]. apply IH, Hpre.
Qed.

(** A lazy quantifier over a class stops at the first place where what
    follows it matches. *)
Lemma turns_class_lazy (p : ascii -> bool) (k : Regex.Cont) (l2 : list ascii) :
  forall (l1 : list ascii) (lo fuel pos : nat) (caps : list (nat * string))
         (res : Regex.MState),
    Forall (fun c => p c = true) l1 ->
    (lo <= List.length l1)%nat -> (List.length l1 < fuel)%nat ->
    (forall l1a l1b, l1 = (l1a ++ l1b)%list -> l1b <> [] -> (lo <= List.length l1a)%nat ->
                     k (advanced pos l1a (l1b ++ l2)%list caps) = None) ->
    k (advanced pos l1 l2 caps) = Some res ->
    turns (Regex.Chr p) k false fuel lo None (Regex.mkMState pos (l1 ++ l2)%list caps)
    = Some res.
Proof.
  induction l1 as [|c l1 IH]; intros lo fuel pos caps res Hall Hlo Hfuel Hearly Hk.
  - destruct fuel as [|fuel]; [cbn in Hfuel; lia|]. rewrite turns_S.
    cbn in Hlo. replace lo with 0%nat by lia. cbn [Nat.ltb Nat.leb]. cbv zeta.
    unfold advanced in Hk. cbn [List.length] in Hk. rewrite Nat.add_0_r in Hk.
    cbn [app]. rewrite Hk. reflexivity.
  - destruct fuel as [|fuel]; [cbn in Hfuel; lia|]. rewrite turns_S.
    inversion Hall as [|c' l1' Hc Hrest]; subst.
    cbn [app Regex.run Regex.rest Regex.pos Regex.caps]. rewrite Hc.
    replace (S pos =? pos)%nat with false by (symmetry; apply Nat.eqb_neq; lia).
    rewrite andb_false_r.
    rewrite (IH (Nat.pred lo) fuel (S pos) caps res Hrest);
      [|cbn in Hlo; lia|cbn in Hfuel; lia| |].
    + cbv zeta. destruct (0 <? lo)%nat eqn:Hpos; [reflexivity|].
      apply Nat.ltb_ge in Hpos.
      specialize (Hearly [] (c :: l1) eq_refl ltac:(discriminate) ltac:(cbn; lia)).
      unfold advanced in Hearly. cbn [List.length app] in Hearly.
      rewrite Nat.add_0_r in Hearly. rewrite Hearly. reflexivity.
    + intros l1a l1b Hsplit Hne Hlen.
      specialize (Hearly (c :: l1a) l1b ltac:(rewrite Hsplit; reflexivity) Hne
                         ltac:(cbn; lia)).
      unfold advanced in *. cbn [List.length] in Hearly.
      replace (S pos + List.length l1a)%nat with (pos + S (List.length l1a))%nat by lia.
      exact Hearly.
    + unfold advanced in *. cbn [List.length] in Hk.
      replace (S pos + List.length l1)%nat with (pos + S (List.length l1))%nat by lia.
      exact Hk.
Qed.

Lemma group_lazy_class (i : nat) (p : ascii -> bool) (k : Regex.Cont) (l1 l2 : list ascii)
    (pos : nat) (caps : list (nat * string)) (res : Regex.MState) :
  Forall (fun c => p c = true) l1 -> l1 <> [] ->
  (forall l1a l1b, l1 = (l1a ++ l1b)%list -> l1b <> [] -> l1a <> [] ->
     k (advanced pos l1a (l1b ++ l2)%list ((i, string_of_list_ascii l1a) :: caps)) = None) ->
  k (advanced pos l1 l2 ((i, string_of_list_ascii l1) :: caps)) = Some res ->
  Regex.run (Regex.Group i (Regex.lazyPlus (Regex.Chr p)))
            (Regex.mkMState pos (l1 ++ l2)%list caps) k = Some res.
Proof.
  intros Hall Hne Hearly Hk. cbn [Regex.run]. fold (Regex.lazyPlus (Regex.Chr p)).
  unfold Regex.lazyPlus. rewrite run_Rep.
  apply turns_class_lazy; try assumption.
  - destruct l1; [congruence|cbn; lia].
  - cbn [Regex.rest]. rewrite length_app. lia.
  - intros l1a l1b Hsplit Hb Hlen. unfold advanced. cbn [Regex.pos Regex.rest Regex.caps].
    replace (pos + List.length l1a - pos)%nat with (List.length l1a) by lia.
    rewrite Hsplit, <- app_assoc, take_app_length.
    apply (Hearly l1a l1b Hsplit Hb). destruct l1a; [cbn in Hlen; lia|discriminate].
  - unfold advanced in *. cbn [Regex.pos Regex.rest Regex.caps].
    replace (pos + List.length l1 - pos)%nat with (List.length l1) by lia.
    rewrite take_app_length. exact Hk.
Qed.

(** ** A cell that holds one value placeholder *)

Lemma hash_i (c : ascii) :
  c <> "#"%char -> Ascii.eqb (Str.upper_char c) (Str.upper_char "#") = false.
Proof.
  intros Hc. destruct (Ascii.eqb _ _) eqn:Heq; [|reflexivity]. exfalso. apply Hc.
  revert Heq. destruct c as [[] [] [] [] [] [] [] []]; intros Heq;
    try discriminate Heq; reflexivity.
Qed.

Lemma run_lit_i_third (a b c : ascii) (s : string) (x y z : ascii) (l : list ascii)
    (pos : nat) (caps : list (nat * string)) (k : Regex.Cont) :
  Ascii.eqb (Str.upper_char z) (Str.upper_char c) = false ->
  Regex.run (Regex.lit_i (String a (String b (String c s))))
            (Regex.mkMState pos (x :: y :: z :: l) caps) k = None.
Proof.
  intros Hz. destruct s; cbn [Regex.lit_i]; rewrite !run_Seq; unfold Regex.chr_i;
    cbn [Regex.run Regex.rest Regex.pos Regex.caps]; rewrite Hz;
    repeat match goal with |- context [if ?b then _ else _] => destruct b end; reflexivity.
Qed.

Lemma without_Forall (c : ascii) (s : string) :
  without c s = true -> Forall (fun d => d <> c) (list_ascii_of_string s).
Proof.
  intros Hs. apply all_chars_Forall in Hs. eapply Forall_impl; [exact Hs|].
  cbn. intros d Hd Heq. subst d. rewrite Ascii.eqb_refl in Hd. discriminate Hd.
Qed.

Lemma braced_chars (p tail : string) :
  list_ascii_of_string ("{{" ++ p ++ tail)
  = ("{" :: "{" :: list_ascii_of_string p ++ list_ascii_of_string tail)%char%list.
Proof. rewrite !list_of_append. reflexivity. Qed.

Lemma first_not_hash (p : string) :
  p <> "" -> String.prefix "#" p = false ->
  exists c l, list_ascii_of_string p = c :: l /\ c <> "#"%char.
Proof.
  destruct p as [|c p]; [congruence|]. intros _ Hpre. exists c, (list_ascii_of_string p).
  split; [reflexivity|]. intros ->. cbn in Hpre. destruct p; discriminate Hpre.
Qed.

Lemma run_Bol (r : Regex.Re) (l : list ascii) (caps : list (nat * string))
    (k : Regex.Cont) :
  Regex.run (Regex.Seq Regex.Bol r) (Regex.mkMState 0 l caps) k
  = Regex.run r (Regex.mkMState 0 l caps) k.
Proof. reflexivity. Qed.

Lemma TABLE_hash (p tail : string) :
  p <> "" -> String.prefix "#" p = false ->
  Regex.exec PLACEHOLDER_REGEX.TABLE ("{{" ++ p ++ tail) = None.
Proof.
  intros Hne Hpre. destruct (first_not_hash p Hne Hpre) as (c & l & Hp & Hc).
  unfold PLACEHOLDER_REGEX.TABLE. cbn [Regex.seq]. rewrite exec_anchored.
  unfold Regex.matchHere. rewrite braced_chars, Hp.
  rewrite run_Bol, run_Seq, run_lit_other; [reflexivity|].
  cbn [app string_of_list_ascii String.prefix].
  repeat (destruct (ascii_dec _ _); [|reflexivity]). congruence.
Qed.

Lemma FORMULA_hash (p tail : string) :
  p <> "" -> String.prefix "#" p = false ->
  Regex.exec PLACEHOLDER_REGEX.FORMULA ("{{" ++ p ++ tail) = None.
Proof.
  intros Hne Hpre. destruct (first_not_hash p Hne Hpre) as (c & l & Hp & Hc).
  unfold PLACEHOLDER_REGEX.FORMULA. cbn [Regex.seq]. rewrite exec_anchored.
  unfold Regex.matchHere. rewrite braced_chars, Hp.
  rewrite run_Bol, run_Seq. cbn [app].
  rewrite run_lit_i_third; [reflexivity|]. apply hash_i, Hc.
Qed.

Lemma JOIN_bar (t : string) :
  without "|" t = true -> Regex.exec PLACEHOLDER_REGEX.JOIN t = None.
Proof.
  intros Hno. unfold PLACEHOLDER_REGEX.JOIN. cbn [Regex.seq]. rewrite exec_anchored.
  unfold Regex.matchHere. rewrite run_Bol, run_Seq.
  rewrite (run_fail (Forall (fun d => d <> "|"%char))); [reflexivity| | |].
  - intros d l Hl. inversion Hl; assumption.
  - intros st' Hst'. rewrite run_Seq.
    apply (run_fail (Forall (fun d => d <> "|"%char))); [| |exact Hst'].
    + intros d l Hl. inversion Hl; assumption.
    + intros st2 Hst2. apply run_needs. exact Hst2.
  - apply without_Forall, Hno.
Qed.

Lemma VALUE_braced (p : string) :
  p <> "" -> without "}" p = true ->
  exists m, Regex.exec PLACEHOLDER_REGEX.VALUE ("{{" ++ p ++ "}}") = Some m
            /\ Regex.group1 1 m = p.
Proof.
  intros Hne Hno. unfold PLACEHOLDER_REGEX.VALUE. cbn [Regex.seq]. rewrite exec_anchored.
  unfold Regex.matchHere. rewrite braced_chars.
  rewrite run_Bol, run_Seq.
  change ("{" :: "{" :: list_ascii_of_string p ++ list_ascii_of_string "}}")%char%list
    with (list_ascii_of_string "{{" ++ (list_ascii_of_string p ++ ["}"; "}"]))%char%list.
  rewrite run_lit, run_Seq. unfold Regex.notChr.
  rewrite (group_plus_class 1 _ _ (list_ascii_of_string p) ["}"; "}"]%char _ []
             (Regex.mkMState
                (0 + String.length "{{" + List.length (list_ascii_of_string p) + 2) []
                [(1%nat, string_of_list_ascii (list_ascii_of_string p))])).
  - eexists. split; [reflexivity|]. unfold Regex.group1. cbn.
    apply string_of_list_ascii_of_string.
  - reflexivity.
  - apply all_chars_Forall in Hno. eapply Forall_impl; [exact Hno|].
    cbv beta. intros d Hd. rewrite Ascii.eqb_sym. exact Hd.
  - apply list_of_nonempty, Hne.
  - unfold advanced. cbn. f_equal. f_equal. lia.
Qed.

Lemma detectPlaceholder_value (cellText p : string) :
  Str.trim cellText = "{{" ++ p ++ "}}" ->
  p <> "" -> without "}" p = true -> without "|" p = true -> String.prefix "#" p = false ->
  detectPlaceholder (VStr cellText)
  = Some (mkPlaceholder value (Str.trim p) None None None None None).
Proof.
  intros Htrim Hne Hclose Hbar Hhash. unfold detectPlaceholder. rewrite Htrim.
  rewrite (TABLE_hash p "}}" Hne Hhash), (FORMULA_hash p "}}" Hne Hhash), JOIN_bar.
  - destruct (VALUE_braced p Hne Hclose) as (m & -> & ->). reflexivity.
  - unfold without in *. rewrite !all_chars_app, Hbar. reflexivity.
Qed.

(** X23.  A cell whose text, without the white space around it, is
    [{{p}}], with [p] not empty, free of [}] and [|] and not starting
    with [#], is a value placeholder with the trimmed [p] as its path,
    and [renderCell] gives what [renderValue] gives for that path. *)
Theorem renderCell_value_placeholder :
  forall (host : Host) (cellText p : string) (scopes : list JsValue)
         (options : RenderOptions),
    Str.trim cellText = "{{" ++ p ++ "}}" ->
    p <> "" -> without "}" p = true -> without "|" p = true ->
    String.prefix "#" p = false ->
    detectPlaceholder (VStr cellText)
    = Some (mkPlaceholder value (Str.trim p) None None None None None)
    /\ renderCell (VStr cellText) scopes options = renderValue (Str.trim p) scopes options.
Proof.
  intros host cellText p scopes options Htrim Hne Hclose Hbar Hhash.
  pose proof (detectPlaceholder_value cellText p Htrim Hne Hclose Hbar Hhash) as Hdetect.
  split; [exact Hdetect|]. unfold renderCell. rewrite Hdetect. reflexivity.
Qed.

Lemma renderCell_value_placeholder_witness :
  @renderCell utcHost (VStr "  {{ customer.name }} ")
    [VObj [("customer", VObj [("name", VStr "Ada")])]] noOptions
  = Ok (VStr "Ada").
Proof.
  destruct (renderCell_value_placeholder utcHost "  {{ customer.name }} " " customer.name "
              [VObj [("customer", VObj [("name", VStr "Ada")])]] noOptions)
    as [_ ->]; try reflexivity. discriminate.
Defined.

(** ** A cell that holds a table placeholder *)

Lemma trimEnd_fixed (s : string) :
  spaceless s = true -> Str.trimEnd s = s.
Proof.
  induction s as [|c s IH]; [reflexivity|]. cbn [Js.all_chars Str.trimEnd].
  intros Hall. apply andb_prop in Hall as [Hc Hs]. rewrite (IH Hs).
  destruct s; [|reflexivity]. apply negb_true_iff in Hc. rewrite Hc. reflexivity.
Qed.

Lemma trim_fixed (s : string) :
  spaceless s = true -> Str.trim s = s.
Proof.
  intros Hall. unfold Str.trim. rewrite trimStart_fixed; [apply trimEnd_fixed, Hall|].
  destruct s as [|c s]; [exact I|]. cbn in Hall. apply andb_prop in Hall as [Hc _].
  apply negb_true_iff, Hc.
Qed.

Lemma close_brace_fails (l1 l2 : list ascii) (pos : nat) (caps : list (nat * string))
    (r : Regex.Re) (k : Regex.Cont) :
  Forall (fun c => c <> "}"%char) l1 -> l1 <> [] ->
  Regex.run (Regex.Seq (Regex.lit "}}") r) (Regex.mkMState pos (l1 ++ l2)%list caps) k = None.
Proof.
  intros Hall Hne. rewrite run_Seq. apply run_lit_other.
  destruct l1 as [|c l1]; [congruence|]. inversion Hall as [|c' l1' Hc _]; subst.
  cbn [app string_of_list_ascii String.prefix].
  destruct (ascii_dec "}" c); [congruence|reflexivity].
Qed.

Lemma TABLE_braced (ws p : string) :
  ws <> "" -> Js.all_chars Str.is_space ws = true ->
  p <> "" -> spaceless p = true -> without "}" p = true ->
  exists m, Regex.exec PLACEHOLDER_REGEX.TABLE ("{{#table" ++ ws ++ p ++ "}}") = Some m
            /\ Regex.group1 1 m = p.
Proof.
  intros Hws Hspaces Hne Hp Hclose.
  unfold PLACEHOLDER_REGEX.TABLE. cbn [Regex.seq]. rewrite exec_anchored.
  unfold Regex.matchHere. rewrite !list_of_append.
  set (lws := list_ascii_of_string ws). set (lp := list_ascii_of_string p).
  assert (Hlp : Forall (fun c => Str.is_space c = false) lp).
  { apply all_chars_Forall in Hp. eapply Forall_impl; [exact Hp|].
    cbv beta. intros c Hc. apply negb_true_iff, Hc. }
  assert (Hfirst : match (lp ++ list_ascii_of_string "}}")%list with
                   | c :: _ => Str.is_space c = false
                   | [] => True
                   end).
  { subst lp. destruct p as [|c p]; [congruence|]. inversion Hlp; assumption. }
  rewrite run_Bol, run_Seq, run_lit, run_Seq. unfold Regex.space.
  rewrite (plus_class _ _ lws _ _ []
             (Regex.mkMState
                (0 + String.length "{{#table" + List.length lws + List.length lp + 2) []
                [(1%nat, string_of_list_ascii lp)])).
  - eexists. split; [reflexivity|]. unfold Regex.group1. cbn. subst lp.
    apply string_of_list_ascii_of_string.
  - exact Hfirst.
  - apply all_chars_Forall, Hspaces.
  - apply list_of_nonempty, Hws.
  - rewrite run_Seq. unfold Regex.dot, advanced.
    apply (group_lazy_class 1 _ _ lp).
    + eapply Forall_impl; [exact Hlp|]. cbv beta. intros c Hc.
      destruct (Regex.is_lineTerminator c) eqn:Hterm; [|reflexivity].
      exfalso. revert Hc Hterm. unfold Str.is_space, Regex.is_lineTerminator. cbv zeta.
      intros Hc Hterm. apply orb_prop in Hterm as [Hn|Hn]; apply Nat.eqb_eq in Hn;
        rewrite Hn in Hc; discriminate Hc.
    + apply list_of_nonempty, Hne.
    + intros l1a l1b Hsplit Hb _. unfold advanced. apply close_brace_fails; [|exact Hb].
      apply without_Forall in Hclose. fold lp in Hclose. rewrite Hsplit in Hclose.
      apply Forall_app in Hclose as [_ Hclose]. exact Hclose.
    + unfold advanced. rewrite run_Seq.
      rewrite <- (app_nil_r (list_ascii_of_string "}}")), run_lit. cbn. repeat f_equal; lia.
Qed.

(** X24.  A cell whose text, without the white space around it, is
    [{{#table], white space, a path without white space or [}], and
    [}}], is a table placeholder with that path; [renderCell] leaves
    such a cell as it is. *)
Theorem renderCell_table_placeholder :
  forall (host : Host) (cellText ws p : string) (scopes : list JsValue)
         (options : RenderOptions),
    Str.trim cellText = "{{#table" ++ ws ++ p ++ "}}" ->
    ws <> "" -> Js.all_chars Str.is_space ws = true ->
    p <> "" -> spaceless p = true -> without "}" p = true ->
    detectPlaceholder (VStr cellText)
    = Some (mkPlaceholder table p None None None None None)
    /\ renderCell (VStr cellText) scopes options = Ok (VStr cellText).
Proof.
  intros host cellText ws p scopes options Htrim Hws Hspaces Hne Hp Hclose.
  assert (Hdetect : detectPlaceholder (VStr cellText)
                    = Some (mkPlaceholder table p None None None None None)).
  { unfold detectPlaceholder. rewrite Htrim.
    destruct (TABLE_braced ws p Hws Hspaces Hne Hp Hclose) as (m & -> & ->).
    rewrite (trim_fixed p Hp). reflexivity. }
  split; [exact Hdetect|]. unfold renderCell. rewrite Hdetect. reflexivity.
Qed.

Lemma renderCell_table_placeholder_witness :
  detectPlaceholder (VStr " {{#table  order.items}}")
  = Some (mkPlaceholder table "order.items" None None None None None)
  /\ @renderCell utcHost (VStr " {{#table  order.items}}") [VObj []] noOptions
     = Ok (VStr " {{#table  order.items}}").
Proof.
  apply (renderCell_table_placeholder utcHost " {{#table  order.items}}" "  " "order.items"
           [VObj []] noOptions); try reflexivity; discriminate.
Defined.

(** ** Matching does not depend on where the input starts *)

Lemma turns_unfold (r : Regex.Re) (k : Regex.Cont) (greedy : bool) (fuel lo : nat)
    (hi : option nat) (st : Regex.MState) :
  turns r k greedy (S fuel) lo hi st
  = match hi with
    | Some O => k st
    | _ =>
        let again :=
          Regex.run r st (fun st' =>
            if (lo =? 0)%nat && (Regex.pos st' =? Regex.pos st)%nat then None
            else turns r k greedy fuel (Nat.pred lo) (option_map Nat.pred hi) st') in
        if (0 <? lo)%nat then again
        else if greedy then Regex.orElse again (k st)
        else Regex.orElse (k st) again
    end.
Proof. reflexivity. Qed.

Lemma run_ext (r : Regex.Re) :
  forall (st : Regex.MState) (k k' : Regex.Cont),
    (forall st', k st' = k' st') -> Regex.run r st k = Regex.run r st k'.
Proof.
  induction r as [p| |a IHa b IHb|a IHa b IHb|greedy lo hi r IH|i r IH| |];
    intros st k k' Hk.
  - cbn [Regex.run]. destruct (Regex.rest st); [reflexivity|].
    destruct (p a); [apply Hk|reflexivity].
  - apply Hk.
  - rewrite !run_Seq. apply IHa. intros st'. apply IHb, Hk.
  - cbn [Regex.run]. rewrite (IHa st k k' Hk), (IHb st k k' Hk). reflexivity.
  - rewrite !run_Rep. generalize (lo + List.length (Regex.rest st) + 1)%nat as fuel.
    intros fuel. revert lo hi st.
    induction fuel as [|fuel IHfuel]; intros lo hi st; [reflexivity|].
    rewrite !turns_unfold.
    rewrite (IH st _
               (fun st' =>
                  if (lo =? 0)%nat && (Regex.pos st' =? Regex.pos st)%nat then None
                  else turns r k' greedy fuel (Nat.pred lo) (option_map Nat.pred hi) st')).
    + rewrite (Hk st). reflexivity.
    + intros st'. destruct (_ && _); [reflexivity|]. apply IHfuel.
  - cbn [Regex.run]. apply IH. intros st'. apply Hk.
  - cbn [Regex.run]. destruct (_ =? _)%nat; [apply Hk|reflexivity].
  - cbn [Regex.run]. destruct (Regex.rest st); [apply Hk|reflexivity].
Qed.

Lemma run_map (f : Regex.MState -> Regex.MState) (r : Regex.Re) :
  forall (st : Regex.MState) (k : Regex.Cont),
    Regex.run r st (fun st' => option_map f (k st')) = option_map f (Regex.run r st k).
Proof.
  induction r as [p| |a IHa b IHb|a IHa b IHb|greedy lo hi r IH|i r IH| |]; intros st k.
  - cbn [Regex.run]. destruct (Regex.rest st); [reflexivity|].
    destruct (p a); reflexivity.
  - reflexivity.
  - rewrite !run_Seq. rewrite <- IHa. apply run_ext. intros st'. apply IHb.
  - cbn [Regex.run]. rewrite IHa, IHb. destruct (Regex.run a st k); reflexivity.
  - rewrite !run_Rep. generalize (lo + List.length (Regex.rest st) + 1)%nat as fuel.
    intros fuel. revert lo hi st.
    induction fuel as [|fuel IHfuel]; intros lo hi st; [reflexivity|].
    rewrite !turns_unfold.
    rewrite (run_ext r st _
               (fun st' => option_map f
                  (if (lo =? 0)%nat && (Regex.pos st' =? Regex.pos st)%nat then None
                   else turns r k greedy fuel (Nat.pred lo) (option_map Nat.pred hi) st'))).
    + rewrite IH. cbv zeta.
      destruct hi as [[|h]|]; [reflexivity| |];
        destruct (0 <? lo)%nat, greedy; try reflexivity;
        destruct (Regex.run r st _), (k st); reflexivity.
    + intros st'. destruct (_ && _); [reflexivity|]. apply IHfuel.
  - cbn [Regex.run]. rewrite <- IH. reflexivity.
  - cbn [Regex.run]. destruct (_ =? _)%nat; reflexivity.
  - cbn [Regex.run]. destruct (Regex.rest st); reflexivity.
Qed.

Lemma run_shift (d : nat) (r : Regex.Re) :
  bol_free r = true ->
  forall (st : Regex.MState) (k : Regex.Cont),
    Regex.run r (shiftState d st) k = Regex.run r st (fun st' => k (shiftState d st')).
Proof.
  induction r as [p| |a IHa b IHb|a IHa b IHb|greedy lo hi r IH|i r IH| |];
    cbn [bol_free]; intros Hfree st k.
  - cbn [Regex.run shiftState Regex.rest Regex.pos Regex.caps].
    destruct (Regex.rest st); [reflexivity|]. destruct (p a); reflexivity.
  - reflexivity.
  - apply andb_prop in Hfree as [Ha Hb]. rewrite !run_Seq, (IHa Ha).
    apply run_ext. intros st'. apply (IHb Hb).
  - apply andb_prop in Hfree as [Ha Hb]. cbn [Regex.run].
    rewrite (IHa Ha), (IHb Hb). reflexivity.
  - rewrite !run_Rep. cbn [shiftState Regex.rest].
    generalize (lo + List.length (Regex.rest st) + 1)%nat as fuel.
    intros fuel. revert lo hi st.
    induction fuel as [|fuel IHfuel]; intros lo hi st; [reflexivity|].
    rewrite !turns_unfold. rewrite (IH Hfree).
    rewrite (run_ext r st _
               (fun st' =>
                  if (lo =? 0)%nat && (Regex.pos st' =? Regex.pos st)%nat then None
                  else turns r (fun st2 => k (shiftState d st2)) greedy fuel (Nat.pred lo)
                         (option_map Nat.pred hi) st')).
    + reflexivity.
    + intros st'. cbn [shiftState Regex.pos].
      replace (Regex.pos st' + d =? Regex.pos st + d)%nat
        with (Regex.pos st' =? Regex.pos st)%nat.
      * destruct (_ && _); [reflexivity|]. apply IHfuel.
      * destruct (Nat.eqb_spec (Regex.pos st') (Regex.pos st)) as [->|Hne].
        -- symmetry. apply Nat.eqb_refl.
        -- symmetry. apply Nat.eqb_neq. lia.
  - cbn [Regex.run]. rewrite (IH Hfree). apply run_ext. intros st'.
    cbn [shiftState Regex.pos Regex.rest Regex.caps].
    replace (Regex.pos st' + d - (Regex.pos st + d))%nat
      with (Regex.pos st' - Regex.pos st)%nat by lia.
    reflexivity.
  - discriminate Hfree.
  - cbn [Regex.run shiftState Regex.rest]. destruct (Regex.rest st); reflexivity.
Qed.

Lemma matchHere_shift (d : nat) (r : Regex.Re) (p : nat) (input : list ascii) :
  bol_free r = true ->
  Regex.matchHere r (p + d) input = option_map (shiftMatch d) (Regex.matchHere r p input).
Proof.
  intros Hfree. unfold Regex.matchHere.
  change (Regex.mkMState (p + d) input []) with (shiftState d (Regex.mkMState p input [])).
  rewrite (run_shift d r Hfree).
  change (fun st' => Some (shiftState d st'))
    with (fun st' => option_map (shiftState d) (Some st')).
  rewrite run_map. destruct (Regex.run r _ Some) as [st|]; [|reflexivity].
  cbn [option_map shiftState shiftMatch Regex.pos Regex.caps Regex.index Regex.matched
       Regex.groups].
  replace (Regex.pos st + d - (p + d))%nat with (Regex.pos st - p)%nat by lia.
  reflexivity.
Qed.

Lemma search_shift (d : nat) (r : Regex.Re) (input : list ascii) :
  bol_free r = true ->
  forall p : nat,
    Regex.search r (p + d) input = option_map (shiftMatch d) (Regex.search r p input).
Proof.
  intros Hfree. induction input as [|c input IH]; intros p; cbn [Regex.search];
    rewrite (matchHere_shift d r p _ Hfree);
    destruct (Regex.matchHere r p _); try reflexivity.
  apply (IH (S p)).
Qed.

Lemma scan_shift (d : nat) (r : Regex.Re) :
  bol_free r = true ->
  forall (fuel p : nat) (input : list ascii),
    Regex.scan fuel r (p + d) input = List.map (shiftMatch d) (Regex.scan fuel r p input).
Proof.
  intros Hfree. induction fuel as [|fuel IH]; intros p input; [reflexivity|].
  cbn [Regex.scan]. rewrite (search_shift d r input Hfree p).
  destruct (Regex.search r p input) as [m|]; [|reflexivity].
  cbn [option_map List.map shiftMatch Regex.index Regex.matched]. cbv zeta.
  replace (Regex.index m + d - (p + d))%nat with (Regex.index m - p)%nat by lia.
  f_equal. rewrite <- IH. f_equal. lia.
Qed.

Lemma splice_shift (d : nat) (f : Regex.Match -> string) :
  (forall m, f (shiftMatch d m) = f m) ->
  forall (ms : list Regex.Match) (p : nat) (input : list ascii),
    Regex.splice f (p + d) input (List.map (shiftMatch d) ms) = Regex.splice f p input ms.
Proof.
  intros Hf. induction ms as [|m ms IH]; intros p input; [reflexivity|].
  cbn [List.map Regex.splice shiftMatch Regex.index Regex.matched]. cbv zeta.
  replace (Regex.index m + d - (p + d))%nat with (Regex.index m - p)%nat by lia.
  rewrite Hf. do 2 f_equal.
  replace (Regex.index m + d + String.length (Regex.matched m))%nat
    with (Regex.index m + String.length (Regex.matched m) + d)%nat by lia.
  apply IH.
Qed.

(** For a pattern that matches no empty input, the matches found do
    not depend on the number of turns allowed, once it is enough. *)
Lemma scan_fuel (r : Regex.Re) :
  (forall p, Regex.search r p [] = None) ->
  forall (fuel fuel' p : nat) (input : list ascii),
    (List.length input < fuel)%nat -> (List.length input < fuel')%nat ->
    Regex.scan fuel r p input = Regex.scan fuel' r p input.
Proof.
  intros Hempty. induction fuel as [|fuel IH]; intros fuel' p input Hfuel Hfuel'; [lia|].
  destruct fuel' as [|fuel']; [lia|]. cbn [Regex.scan].
  destruct (Regex.search r p input) as [m|] eqn:Hsearch; [|reflexivity].
  cbv zeta. f_equal.
  destruct input as [|c input]; [rewrite Hempty in Hsearch; discriminate Hsearch|].
  apply IH; rewrite length_drop; cbn [List.length] in *; lia.
Qed.

(** [replace] with a [g] pattern, one match at a time. *)
Lemma replaceAll_first (r : Regex.Re) (f : Regex.Match -> string)
    (pre mid rest : string) (gs : list (nat * string)) :
  bol_free r = true ->
  (forall p, Regex.search r p [] = None) ->
  (forall d m, f (shiftMatch d m) = f m) ->
  mid <> "" ->
  Regex.search r 0 (list_ascii_of_string (pre ++ mid ++ rest))
  = Some (Regex.mkMatch (String.length pre) mid gs) ->
  Regex.replaceAll r f (pre ++ mid ++ rest)
  = pre ++ f (Regex.mkMatch (String.length pre) mid gs) ++ Regex.replaceAll r f rest.
Proof.
  intros Hfree Hempty Hf Hmid Hsearch. unfold Regex.replaceAll, Regex.matchAll.
  remember (Regex.scan (S (String.length rest)) r 0 (list_ascii_of_string rest)) as found
    eqn:Hfound.
  cbn [Regex.scan]. rewrite Hsearch. cbv zeta.
  cbn [Regex.index Regex.matched Regex.splice]. cbv zeta.
  cbn [Regex.index Regex.matched].
  assert (Hlen : (1 <= String.length mid)%nat) by (destruct mid; [congruence|cbn; lia]).
  rewrite !Nat.sub_0_r, Nat.max_l by exact Hlen. rewrite !Nat.add_0_l.
  assert (Hpre : list_ascii_of_string (pre ++ mid ++ rest)
                 = (list_ascii_of_string pre ++ list_ascii_of_string mid
                    ++ list_ascii_of_string rest)%list)
    by (rewrite !list_of_append; reflexivity).
  assert (Hl : forall s, List.length (list_ascii_of_string s) = String.length s).
  { intros s. induction s as [|c s IHs]; [reflexivity|]. cbn. rewrite IHs. reflexivity. }
  rewrite Hpre.
  rewrite <- (Hl pre) at 1. rewrite take_app_length.
  replace (drop (String.length pre + String.length mid)
             (list_ascii_of_string pre ++ list_ascii_of_string mid
              ++ list_ascii_of_string rest))%list
    with (list_ascii_of_string rest).
  2:{ rewrite <- (Hl pre), <- (Hl mid), <- drop_drop, drop_app_length, drop_app_length.
      reflexivity. }
  rewrite string_of_list_ascii_of_string. do 2 f_equal.
  change (String.length pre + String.length mid)%nat
    with (0 + (String.length pre + String.length mid))%nat.
  rewrite (scan_shift _ r Hfree), (splice_shift _ f (Hf _)).
  rewrite (scan_fuel r Hempty _ (S (String.length rest)) 0 (list_ascii_of_string rest)),
    <- Hfound; [reflexivity| |]; rewrite Hl; [|lia].
  rewrite <- (Hl (pre ++ mid ++ rest)), Hpre, !length_app, !Hl. lia.
Qed.

(** ** Placeholders inside a text *)

Lemma star_stops (p : ascii -> bool) (st : Regex.MState) (k : Regex.Cont) :
  match Regex.rest st with c :: _ => p c = false | [] => True end ->
  Regex.run (Regex.star (Regex.Chr p)) st k = k st.
Proof.
  intros Hstop. unfold Regex.star. rewrite run_Rep, Nat.add_1_r, turns_S.
  cbn [Regex.run Nat.ltb Nat.leb]. cbv zeta.
  destruct (Regex.rest st) as [|c l]; [reflexivity|]. rewrite Hstop. reflexivity.
Qed.

Lemma string_length_list (s : string) :
  List.length (list_ascii_of_string s) = String.length s.
Proof. induction s as [|c s IH]; [reflexivity|]. cbn. rewrite IH. reflexivity. Qed.

Lemma INLINE_here (p : string) (lrest : list ascii) (q : nat) :
  p <> "" -> spaceless p = true -> without "}" p = true ->
  Regex.matchHere PLACEHOLDER_REGEX.INLINE q
    (list_ascii_of_string ("{{" ++ p ++ "}}") ++ lrest)%list
  = Some (Regex.mkMatch q ("{{" ++ p ++ "}}") [(1%nat, p)]).
Proof.
  intros Hne Hp Hclose. unfold Regex.matchHere.
  set (lp := list_ascii_of_string p).
  assert (Hlp : Forall (fun c => Str.is_space c = false) lp).
  { apply all_chars_Forall in Hp. eapply Forall_impl; [exact Hp|].
    cbv beta. intros c Hc. apply negb_true_iff, Hc. }
  assert (Hopen : Forall (fun c => c <> "}"%char) lp) by apply without_Forall, Hclose.
  assert (Hrun : Regex.run PLACEHOLDER_REGEX.INLINE
                   (Regex.mkMState q
                      (list_ascii_of_string ("{{" ++ p ++ "}}") ++ lrest)%list []) Some
                 = Some (Regex.mkMState (q + String.length ("{{" ++ p ++ "}}")) lrest
                           [(1%nat, p)])).
  { unfold PLACEHOLDER_REGEX.INLINE. cbn [Regex.seq].
    rewrite !list_of_append, <- !app_assoc. fold lp.
    rewrite run_Seq, run_lit, run_Seq. unfold Regex.space.
    rewrite star_stops.
    2:{ cbn [Regex.rest]. destruct lp as [|c l] eqn:Hl.
        - apply (list_of_nonempty p) in Hne. contradiction.
        - cbn [app]. inversion Hlp; assumption. }
    rewrite run_Seq. unfold Regex.notChr.
    rewrite (group_lazy_class 1 _ _ lp (list_ascii_of_string "}}" ++ lrest)%list _ []
               (Regex.mkMState (q + String.length ("{{" ++ p ++ "}}")) lrest
                  [(1%nat, p)])).
    - reflexivity.
    - eapply Forall_impl; [exact Hopen|]. cbv beta. intros c Hc.
      destruct (Ascii.eqb "}" c) eqn:Heq; [|reflexivity].
      apply Ascii.eqb_eq in Heq. congruence.
    - apply list_of_nonempty, Hne.
    - intros l1a l1b Hsplit Hb _. unfold advanced. rewrite run_Seq.
      rewrite Hsplit in Hlp, Hopen.
      apply Forall_app in Hlp as [_ Hlp]. apply Forall_app in Hopen as [_ Hopen].
      rewrite star_stops.
      + rewrite run_lit_other; [reflexivity|]. destruct l1b as [|c l]; [congruence|].
        inversion Hopen as [|c' l' Hc _]; subst.
        cbn [app string_of_list_ascii String.prefix].
        destruct (ascii_dec "}" c); [congruence|reflexivity].
      + cbn [Regex.rest]. destruct l1b as [|c l]; [congruence|].
        cbn [app]. inversion Hlp; assumption.
    - unfold advanced. rewrite run_Seq, star_stops by reflexivity.
      rewrite run_lit. subst lp. rewrite string_of_list_ascii_of_string.
      f_equal. f_equal. rewrite <- !string_length_list, !list_of_append, !length_app.
      cbn [list_ascii_of_string List.length String.length]. lia. }
  rewrite Hrun. cbn [Regex.pos Regex.caps].
  replace (q + String.length ("{{" ++ p ++ "}}") - q)%nat
    with (List.length (list_ascii_of_string ("{{" ++ p ++ "}}")))
    by (rewrite string_length_list; lia).
  rewrite take_app_length, string_of_list_ascii_of_string. reflexivity.
Qed.

Lemma braces_other (r : Regex.Re) (c : ascii) (l : list ascii) (q : nat) :
  c <> "{"%char -> Regex.matchHere (Regex.Seq (Regex.lit "{{") r) q (c :: l) = None.
Proof.
  intros Hc. unfold Regex.matchHere.
  rewrite run_Seq, run_lit_other; [reflexivity|].
  cbn [string_of_list_ascii String.prefix].
  destruct (ascii_dec "{" c); [congruence|reflexivity].
Qed.

Lemma braces_empty (r : Regex.Re) (q : nat) :
  Regex.search (Regex.Seq (Regex.lit "{{") r) q [] = None.
Proof. reflexivity. Qed.

Lemma braces_skip (r : Regex.Re) (lpre l : list ascii) :
  Forall (fun c => c <> "{"%char) lpre ->
  forall q : nat,
    Regex.search (Regex.Seq (Regex.lit "{{") r) q (lpre ++ l)%list
    = Regex.search (Regex.Seq (Regex.lit "{{") r) (q + List.length lpre) l.
Proof.
  induction lpre as [|c lpre IH]; intros Hall q.
  - cbn [app List.length]. rewrite Nat.add_0_r. reflexivity.
  - inversion Hall as [|c' l' Hc Hrest]; subst. cbn [app Regex.search].
    rewrite (braces_other r c _ q Hc), (IH Hrest (S q)). f_equal. cbn [List.length]. lia.
Qed.

Lemma braces_plain (r : Regex.Re) (s : string) :
  without "{" s = true -> Regex.matchAll (Regex.Seq (Regex.lit "{{") r) s = [].
Proof.
  intros Hs. unfold Regex.matchAll. cbn [Regex.scan].
  rewrite <- (app_nil_r (list_ascii_of_string s)), braces_skip, braces_empty;
    [reflexivity|]. apply without_Forall, Hs.
Qed.

Lemma INLINE_braces :
  PLACEHOLDER_REGEX.INLINE
  = Regex.Seq (Regex.lit "{{")
      (Regex.seq [Regex.star Regex.space;
                  Regex.Group 1 (Regex.lazyPlus (Regex.notChr "}"));
                  Regex.star Regex.space; Regex.lit "}}"]).
Proof. reflexivity. Qed.

Lemma INLINE_first (pre p rest : string) :
  without "{" pre = true -> p <> "" -> spaceless p = true -> without "}" p = true ->
  Regex.search PLACEHOLDER_REGEX.INLINE 0
    (list_ascii_of_string (pre ++ ("{{" ++ p ++ "}}") ++ rest))
  = Some (Regex.mkMatch (String.length pre) ("{{" ++ p ++ "}}") [(1%nat, p)]).
Proof.
  intros Hpre Hne Hp Hclose.
  rewrite (list_of_append pre), INLINE_braces, braces_skip, <- INLINE_braces
    by apply without_Forall, Hpre.
  rewrite (list_of_append ("{{" ++ p ++ "}}") rest), string_length_list, Nat.add_0_l.
  assert (Hhere := INLINE_here p (list_ascii_of_string rest) (String.length pre)
                     Hne Hp Hclose).
  destruct (list_ascii_of_string ("{{" ++ p ++ "}}") ++ list_ascii_of_string rest)%list;
    cbn [Regex.search]; rewrite Hhere; reflexivity.
Qed.

Lemma resolve_not_nil (path : string) (scopes : list JsValue) :
  Js.isNil (resolve path scopes) = false.
Proof.
  unfold resolve, Js.coalesce. destruct (Js.isNil (fold_left _ _ _)) eqn:Hnil;
    [reflexivity|exact Hnil].
Qed.

Lemma run_lit_i_first (a b : ascii) (s : string) (x : ascii) (l : list ascii)
    (pos : nat) (caps : list (nat * string)) (k : Regex.Cont) :
  Ascii.eqb (Str.upper_char x) (Str.upper_char a) = false ->
  Regex.run (Regex.lit_i (String a (String b s)))
            (Regex.mkMState pos (x :: l) caps) k = None.
Proof.
  intros Hx. cbn [Regex.lit_i]. rewrite run_Seq. unfold Regex.chr_i at 1.
  cbn [Regex.run Regex.rest]. rewrite Hx. reflexivity.
Qed.

Section InlinePath.
Context `{Host}.

(** What the callback of [renderInterpolatedString] makes of a path. *)
Lemma renderInline_path (p : string) (scopes : list JsValue) :
  p <> "" -> spaceless p = true -> without "|" p = true -> String.prefix "#" p = false ->
  renderInline p scopes = toStr (resolve p scopes).
Proof.
  intros Hne Hp Hbar Hhash. unfold renderInline. rewrite (trim_fixed p Hp).
  destruct (first_not_hash p Hne Hhash) as (c & l & Hl & Hc).
  assert (Hformula : Regex.exec INLINE_REGEX.FORMULA p = None).
  { unfold INLINE_REGEX.FORMULA. cbn [Regex.seq]. rewrite exec_anchored.
    unfold Regex.matchHere. rewrite run_Bol, run_Seq, Hl, run_lit_i_first; [reflexivity|].
    apply hash_i, Hc. }
  assert (Hjoin : Regex.exec INLINE_REGEX.JOIN p = None).
  { unfold INLINE_REGEX.JOIN. cbn [Regex.seq]. rewrite exec_anchored.
    unfold Regex.matchHere. rewrite run_Bol, run_Seq.
    rewrite (run_fail (Forall (fun d => d <> "|"%char))); [reflexivity| | |].
    - intros d l' Hl'. inversion Hl'; assumption.
    - intros st' Hst'. apply run_needs. exact Hst'.
    - apply without_Forall, Hbar. }
  rewrite Hformula, Hjoin. cbv zeta. rewrite resolve_not_nil. reflexivity.
Qed.

End InlinePath.

(** X25.  [renderInterpolatedString] works through a text from left to
    right: text without [{] is copied, and a placeholder [{{p}}], with
    [p] a path without white space, [}] or [|] that does not start
    with [#], is replaced by the string form of what [p] resolves to in
    the scopes (the empty string when it resolves to nothing); the rest
    of the text is rendered in the same way. *)
Theorem renderInterpolatedString_steps :
  forall (host : Host) (scopes : list JsValue),
    (forall s : string,
       without "{" s = true -> renderInterpolatedString s scopes = s)
    /\ (forall pre p rest : string,
          without "{" pre = true ->
          p <> "" -> spaceless p = true -> without "}" p = true ->
          without "|" p = true -> String.prefix "#" p = false ->
          renderInterpolatedString (pre ++ "{{" ++ p ++ "}}" ++ rest) scopes
          = pre ++ toStr (resolve p scopes) ++ renderInterpolatedString rest scopes).
Proof.
  intros host scopes. split.
  - intros s Hs. unfold renderInterpolatedString, Regex.replaceAll.
    rewrite INLINE_braces, (braces_plain _ s Hs). apply string_of_list_ascii_of_string.
  - intros pre p rest Hpre Hne Hp Hclose Hbar Hhash. unfold renderInterpolatedString.
    replace (pre ++ "{{" ++ p ++ "}}" ++ rest) with (pre ++ ("{{" ++ p ++ "}}") ++ rest)
      by (rewrite <- !append_assoc; reflexivity).
    rewrite (replaceAll_first _ _ pre ("{{" ++ p ++ "}}") rest [(1%nat, p)]).
    + unfold Regex.group1. cbn [Regex.groups Regex.group Nat.eqb].
      rewrite (renderInline_path p scopes Hne Hp Hbar Hhash). reflexivity.
    + reflexivity.
    + intros q. rewrite INLINE_braces. apply braces_empty.
    + reflexivity.
    + discriminate.
    + apply INLINE_first; assumption.
Qed.

Lemma renderInterpolatedString_steps_witness :
  @renderInterpolatedString utcHost "Dear {{name}}, {{n}} items."
    [VObj [("name", VStr "Ada"); ("n", VNum (num_of_Z 3))]]
  = "Dear Ada, 3 items.".
Proof.
  set (scopes := [VObj [("name", VStr "Ada"); ("n", VNum (num_of_Z 3))]]).
  destruct (renderInterpolatedString_steps utcHost scopes) as [Hplain Hstep].
  assert (H1 : @renderInterpolatedString utcHost "Dear {{name}}, {{n}} items." scopes
               = "Dear " ++ @toStr utcHost (resolve "name" scopes)
                 ++ @renderInterpolatedString utcHost ", {{n}} items." scopes).
  { apply (Hstep "Dear " "name" ", {{n}} items."); try reflexivity. discriminate. }
  assert (H2 : @renderInterpolatedString utcHost ", {{n}} items." scopes
               = ", " ++ @toStr utcHost (resolve "n" scopes)
                 ++ @renderInterpolatedString utcHost " items." scopes).
  { apply (Hstep ", " "n" " items."); try reflexivity. discriminate. }
  rewrite H1, H2, (Hplain " items." eq_refl). vm_compute. reflexivity.
Defined.

(** ** A text with placeholders in it *)

(** X26.  A text that contains two opening braces but does not start
    with them, white space apart, is no placeholder of its own:
    [renderCell] and the final pass return it as a string, with its
    placeholders interpolated. *)
Theorem renderCell_mixed_text :
  forall (host : Host) (cellText : string) (scopes : list JsValue)
         (data : JsValue) (options : RenderOptions)
         (tableInfoMap : gmap string TableRenderInfo) (lastTableInfo : option TableRenderInfo),
    Str.includes cellText "{{" = true ->
    String.prefix "{{" (Str.trim cellText) = false ->
    renderCell (VStr cellText) scopes options
    = Ok (VStr (renderInterpolatedString cellText scopes))
    /\ substituteCell data options tableInfoMap lastTableInfo (VStr cellText)
       = Ok (VStr (renderInterpolatedString cellText [data])).
Proof.
  intros host cellText scopes data options tableInfoMap lastTableInfo Hin Hpre.
  pose proof (detectPlaceholder_prefix cellText Hpre) as Hdetect.
  unfold substituteCell, renderCell. rewrite Hdetect, Hin. split; reflexivity.
Qed.

Lemma renderCell_mixed_text_witness :
  @renderCell utcHost (VStr "Qty: {{n}}") [VObj [("n", VNum (num_of_Z 3))]] noOptions
  = Ok (VStr "Qty: 3").
Proof.
  destruct (renderCell_mixed_text utcHost "Qty: {{n}}" [VObj [("n", VNum (num_of_Z 3))]]
              VNull noOptions ∅ None) as [-> _]; reflexivity.
Defined.

(** ** Rich text with placeholders *)

Lemma richFragments_closed `{Host} (scopes : list JsValue) (fragments : list JsValue) :
  forall result : list JsValue,
    Forall closedFragment fragments ->
    richFragments scopes (mkRichState result [] false) fragments
    = Ok (mkRichState (result ++ List.map (renderedFragment scopes) fragments) [] false).
Proof.
  induction fragments as [|f fragments IH]; intros result Hall.
  - cbn. rewrite app_nil_r. reflexivity.
  - inversion Hall as [|f' fs' (Hnil & s & Htext & Hclosed) Hrest]; subst.
    cbn [richFragments List.map]. unfold richFragment, renderedFragment.
    rewrite Hnil, Htext. cbn [textIncludes bind inPlaceholder rt_result rt_buffer].
    destruct (Str.includes s "{{") eqn:Hopen; cbn [orb].
    + rewrite (Hclosed eq_refl). cbn [bind app List.map Str.join]. rewrite Htext.
      cbn [Js.isNil toStr]. rewrite (IH _ Hrest), <- app_assoc. reflexivity.
    + cbn [bind]. rewrite (IH _ Hrest), <- app_assoc. reflexivity.
Qed.

(** X27.  In rich text whose fragments have a string text and close
    every placeholder they open, [handleRichText] treats each fragment
    on its own: a fragment without two opening braces is kept, and a
    fragment with them is replaced by a fragment that has the
    interpolated text and the font of the old one and nothing else. *)
Theorem handleRichText_renders_fragments :
  forall (host : Host) (cellValue : JsValue) (fragments scopes : list JsValue),
    Js.truthy cellValue = true ->
    Js.getProp cellValue "richText" = VArr fragments ->
    Forall closedFragment fragments ->
    handleRichText cellValue scopes
    = Ok (VObj [("richText", VArr (List.map (renderedFragment scopes) fragments))]).
Proof.
  intros host cellValue fragments scopes Htruthy Hrich Hclosed.
  unfold handleRichText. rewrite Htruthy, Hrich. cbn [negb].
  rewrite (richFragments_closed scopes fragments [] Hclosed).
  cbn [bind rt_result rt_buffer app]. rewrite app_nil_r. reflexivity.
Qed.

Lemma handleRichText_renders_fragments_witness :
  @handleRichText utcHost
    (VObj [("richText",
            VArr [VObj [("text", VStr "Dear "); ("size", VNum (num_of_Z 9))];
                  VObj [("font", VStr "bold"); ("text", VStr "{{name}}!");
                        ("size", VNum (num_of_Z 9))]])])
    [VObj [("name", VStr "Ada")]]
  = Ok (VObj [("richText",
               VArr [VObj [("text", VStr "Dear "); ("size", VNum (num_of_Z 9))];
                     VObj [("text", VStr "Ada!"); ("font", VStr "bold")]])]).
Proof.
  rewrite (handleRichText_renders_fragments utcHost _
             [VObj [("text", VStr "Dear "); ("size", VNum (num_of_Z 9))];
              VObj [("font", VStr "bold"); ("text", VStr "{{name}}!");
                    ("size", VNum (num_of_Z 9))]]).
  - reflexivity.
  - reflexivity.
  - reflexivity.
  - apply List.Forall_cons; [|apply List.Forall_cons; [|apply List.Forall_nil]].
    all: split; [reflexivity|]; eexists; (split; [reflexivity|]); intros Hopen;
      first [reflexivity | vm_compute in Hopen; discriminate Hopen].
Defined.

(** ** A cell that holds a join placeholder *)

Lemma run_lit_cons (c : ascii) (s : string) (d : ascii) (l : list ascii) (pos : nat)
    (caps : list (nat * string)) (k : Regex.Cont) :
  Regex.run (Regex.lit (String c s)) (Regex.mkMState pos (d :: l) caps) k
  = if Ascii.eqb c d
    then Regex.run (Regex.lit s) (Regex.mkMState (S pos) l caps) k
    else None.
Proof.
  destruct s; cbn [Regex.lit]; [|rewrite run_Seq]; unfold Regex.chr;
    cbn [Regex.run Regex.rest Regex.pos Regex.caps]; reflexivity.
Qed.

(** A literal followed by the end of the input fails on an input of
    another length. *)
Lemma run_lit_Eol (s : string) :
  forall (l : list ascii) (pos : nat) (caps : list (nat * string)) (k : Regex.Cont),
    List.length l <> String.length s ->
    Regex.run (Regex.Seq (Regex.lit s) Regex.Eol) (Regex.mkMState pos l caps) k = None.
Proof.
  induction s as [|c s IH]; intros l pos caps k Hlen.
  - destruct l; [cbn in Hlen; congruence|reflexivity].
  - destruct l as [|d l]; [destruct s; reflexivity|].
    rewrite run_Seq, run_lit_cons. destruct (Ascii.eqb c d); [|reflexivity].
    rewrite <- run_Seq. apply IH. cbn in Hlen. lia.
Qed.

Lemma run_Chr_hit (p : ascii -> bool) (r : Regex.Re) (c : ascii) (l : list ascii)
    (pos : nat) (caps : list (nat * string)) (k : Regex.Cont) :
  p c = true ->
  Regex.run (Regex.Seq (Regex.Chr p) r) (Regex.mkMState pos (c :: l) caps) k
  = Regex.run r (Regex.mkMState (S pos) l caps) k.
Proof. intros Hc. rewrite run_Seq. cbn [Regex.run Regex.rest]. rewrite Hc. reflexivity. Qed.

Lemma star_class (p : ascii -> bool) (k : Regex.Cont) (l1 l2 : list ascii)
    (pos : nat) (caps : list (nat * string)) (res : Regex.MState) :
  match l2 with c :: _ => p c = false | [] => True end ->
  Forall (fun c => p c = true) l1 ->
  k (advanced pos l1 l2 caps) = Some res ->
  Regex.run (Regex.star (Regex.Chr p)) (Regex.mkMState pos (l1 ++ l2)%list caps) k = Some res.
Proof.
  intros Hl2 Hall Hk. unfold Regex.star. rewrite run_Rep.
  apply turns_class_greedy; try assumption; [lia|].
  cbn [Regex.rest]. rewrite length_app. lia.
Qed.

Lemma dot_spaceless (l : list ascii) :
  Forall (fun c => Str.is_space c = false) l ->
  Forall (fun c => negb (Regex.is_lineTerminator c) = true) l.
Proof.
  intros Hl. eapply Forall_impl; [exact Hl|]. cbv beta. intros c Hc.
  destruct (Regex.is_lineTerminator c) eqn:Hterm; [|reflexivity].
  exfalso. revert Hc Hterm. unfold Str.is_space, Regex.is_lineTerminator. cbv zeta.
  intros Hc Hterm. apply orb_prop in Hterm as [Hn|Hn]; apply Nat.eqb_eq in Hn;
    rewrite Hn in Hc; discriminate Hc.
Qed.

(** [c] is a single or a double quote. *)
Lemma JOIN_braced (p ws1 ws2 sep : string) (q1 q2 : ascii) :
  p <> "" -> spaceless p = true -> without "|" p = true ->
  Js.all_chars Str.is_space ws1 = true -> Js.all_chars Str.is_space ws2 = true ->
  isQuote q1 = true -> isQuote q2 = true ->
  sep <> "" -> Js.all_chars (fun c => negb (Regex.is_lineTerminator c)) sep = true ->
  exists m,
    Regex.exec PLACEHOLDER_REGEX.JOIN
      ("{{" ++ p ++ ws1 ++ "|" ++ ws2 ++ "join(" ++ String q1 (sep ++ String q2 ")}}"))
    = Some m
    /\ Regex.group1 1 m = p /\ Regex.group1 2 m = sep.
Proof.
  intros Hne Hp Hbar Hws1 Hws2 Hq1 Hq2 Hsep Hdots.
  unfold PLACEHOLDER_REGEX.JOIN. cbn [Regex.seq]. rewrite exec_anchored.
  unfold Regex.matchHere. rewrite !list_of_append.
  cbn [list_ascii_of_string]. rewrite !list_of_append. cbn [list_ascii_of_string].
  set (lp := list_ascii_of_string p). set (l1 := list_ascii_of_string ws1).
  set (l2 := list_ascii_of_string ws2). set (ls := list_ascii_of_string sep).
  assert (Hlp : Forall (fun c => Str.is_space c = false) lp).
  { apply all_chars_Forall in Hp. eapply Forall_impl; [exact Hp|].
    cbv beta. intros c Hc. apply negb_true_iff, Hc. }
  assert (Hnobar : Forall (fun c => c <> "|"%char) lp) by apply without_Forall, Hbar.
  assert (Hrun : exists res,
             Regex.run
               (Regex.Seq Regex.Bol
                  (Regex.Seq (Regex.lit "{{")
                     (Regex.Seq (Regex.Group 1 (Regex.lazyPlus Regex.dot))
                        (Regex.Seq (Regex.star Regex.space)
                           (Regex.Seq (Regex.chr "|")
                              (Regex.Seq (Regex.star Regex.space)
                                 (Regex.Seq (Regex.lit "join(")
                                    (Regex.Seq PLACEHOLDER_REGEX.quote
                                       (Regex.Seq (Regex.Group 2 (Regex.lazyPlus Regex.dot))
                                          (Regex.Seq PLACEHOLDER_REGEX.quote
                                             (Regex.Seq (Regex.lit ")}}") Regex.Eol)))))))))))
               (Regex.mkMState 0
                  (["{"; "{"]%char ++ lp ++ l1 ++ ["|"]%char ++ l2
                   ++ list_ascii_of_string "join(" ++ q1 :: ls ++ q2 :: list_ascii_of_string ")}}")
                  []) Some = Some res
             /\ Regex.caps res = [(2%nat, sep); (1%nat, p)]).
  { eexists. split.
    2: shelve.
    rewrite run_Bol, run_Seq.
    change ["{"; "{"]%char with (list_ascii_of_string "{{"). rewrite run_lit, run_Seq.
    unfold Regex.dot at 1.
    apply group_lazy_class.
    - apply dot_spaceless, Hlp.
    - apply list_of_nonempty, Hne.
    - intros la lb Hsplit Hb _. unfold advanced. rewrite run_Seq.
      rewrite Hsplit in Hlp, Hnobar.
      apply Forall_app in Hlp as [_ Hlp]. apply Forall_app in Hnobar as [_ Hnobar].
      destruct lb as [|c lb]; [congruence|].
      inversion Hlp as [|c' l' Hc _]; subst. inversion Hnobar as [|c' l' Hc' _]; subst.
      unfold Regex.space. rewrite star_stops by exact Hc.
      rewrite run_Seq. unfold Regex.chr. cbn [Regex.run Regex.rest app].
      destruct (Ascii.eqb "|" c) eqn:Heq; [|reflexivity].
      apply Ascii.eqb_eq in Heq. congruence.
    - unfold advanced. rewrite run_Seq. unfold Regex.space at 1.
      apply star_class; [reflexivity|apply all_chars_Forall, Hws1|].
      unfold advanced. cbn [app]. unfold Regex.chr. rewrite run_Chr_hit by reflexivity.
      rewrite run_Seq. unfold Regex.space.
      apply star_class; [reflexivity|apply all_chars_Forall, Hws2|].
      unfold advanced. rewrite run_Seq, run_lit.
      unfold PLACEHOLDER_REGEX.quote at 1. rewrite run_Chr_hit by exact Hq1.
      rewrite run_Seq. unfold Regex.dot.
      change (q2 :: list_ascii_of_string ")}}") with ([q2] ++ list_ascii_of_string ")}}")%list.
      apply group_lazy_class.
      + apply all_chars_Forall, Hdots.
      + apply list_of_nonempty, Hsep.
      + intros la lb Hsplit Hb _. unfold advanced.
        destruct lb as [|c lb]; [congruence|]. cbn [app].
        rewrite run_Seq. unfold PLACEHOLDER_REGEX.quote. cbn [Regex.run Regex.rest].
        destruct (_ || _); [|reflexivity].
        apply run_lit_Eol. rewrite length_app. cbn. lia.
      + unfold advanced. cbn [app].
        unfold PLACEHOLDER_REGEX.quote. rewrite run_Chr_hit by exact Hq2.
        rewrite <- (app_nil_r (list_ascii_of_string ")}}")), run_Seq, run_lit.
        subst lp ls. rewrite !string_of_list_ascii_of_string. reflexivity.
    Unshelve. reflexivity. }
  destruct Hrun as (res & Hrun & Hcaps).
  cbn [app list_ascii_of_string] in Hrun |- *. rewrite Hrun. eexists. split; [reflexivity|].
  unfold Regex.group1. cbn [Regex.groups]. rewrite Hcaps. split; reflexivity.
Qed.

(** X28.  A cell whose trimmed text is [{{], a path [p], optional
    white space, [|], optional white space and [join('sep')}}], with
    single or double quotes, is a join placeholder, and [renderCell]
    gives what [renderJoin] gives for [p] and [sep].  The path has no
    white space and no [|] and does not start with [#]; the separator
    is not empty and has no line break. *)
Theorem renderCell_join_placeholder :
  forall (host : Host) (cellText p ws1 ws2 sep : string) (q1 q2 : ascii)
         (scopes : list JsValue) (options : RenderOptions),
    Str.trim cellText
    = "{{" ++ p ++ ws1 ++ "|" ++ ws2 ++ "join(" ++ String q1 (sep ++ String q2 ")}}") ->
    p <> "" -> spaceless p = true -> without "|" p = true -> String.prefix "#" p = false ->
    Js.all_chars Str.is_space ws1 = true -> Js.all_chars Str.is_space ws2 = true ->
    isQuote q1 = true -> isQuote q2 = true ->
    sep <> "" -> Js.all_chars (fun c => negb (Regex.is_lineTerminator c)) sep = true ->
    detectPlaceholder (VStr cellText)
    = Some (mkPlaceholder join p (Some sep) None None None None)
    /\ renderCell (VStr cellText) scopes options = Ok (VStr (renderJoin p sep scopes)).
Proof.
  intros host cellText p ws1 ws2 sep q1 q2 scopes options Htrim Hne Hp Hbar Hhash
         Hws1 Hws2 Hq1 Hq2 Hsep Hdots.
  assert (Hdetect : detectPlaceholder (VStr cellText)
                    = Some (mkPlaceholder join p (Some sep) None None None None)).
  { unfold detectPlaceholder. rewrite Htrim.
    rewrite (TABLE_hash p _ Hne Hhash), (FORMULA_hash p _ Hne Hhash).
    destruct (JOIN_braced p ws1 ws2 sep q1 q2 Hne Hp Hbar Hws1 Hws2 Hq1 Hq2 Hsep Hdots)
      as (m & -> & -> & ->).
    rewrite (trim_fixed p Hp). reflexivity. }
  split; [exact Hdetect|]. unfold renderCell. rewrite Hdetect. reflexivity.
Qed.

Lemma renderCell_join_placeholder_witness :
  @renderCell utcHost (VStr "{{tags | join(', ')}}")
    [VObj [("tags", VArr [VStr "a"; VStr ""; VStr "b"])]] noOptions
  = Ok (VStr "a, b").
Proof.
  destruct (renderCell_join_placeholder utcHost "{{tags | join(', ')}}" "tags" " " " " ", "
              "'" "'" [VObj [("tags", VArr [VStr "a"; VStr ""; VStr "b"])]] noOptions)
    as [_ ->]; try reflexivity; discriminate.
Defined.

(** ** The columns of the fields of a template row *)












(** ** A cell that holds a formula placeholder over letters *)

Lemma run_lit_i_same (s : string) :
  forall (l : list ascii) (pos : nat) (caps : list (nat * string)) (k : Regex.Cont),
    Regex.run (Regex.lit_i s) (Regex.mkMState pos (list_ascii_of_string s ++ l)%list caps) k
    = k (Regex.mkMState (pos + String.length s) l caps).
Proof.
  induction s as [|c s IH]; intros l pos caps k.
  - cbn. rewrite Nat.add_0_r. reflexivity.
  - destruct s as [|c' s].
    + cbn [Regex.lit_i]. unfold Regex.chr_i.
      cbn [Regex.run Regex.rest list_ascii_of_string app Regex.pos Regex.caps].
      rewrite Ascii.eqb_refl. f_equal. f_equal. cbn. lia.
    + change (Regex.lit_i (String c (String c' s)))
        with (Regex.Seq (Regex.chr_i c) (Regex.lit_i (String c' s))).
      rewrite run_Seq. unfold Regex.chr_i at 1.
      cbn [Regex.run Regex.rest list_ascii_of_string app Regex.pos Regex.caps].
      rewrite Ascii.eqb_refl.
      change (c' :: (list_ascii_of_string s ++ l)%list)
        with (list_ascii_of_string (String c' s) ++ l)%list.
      rewrite IH. f_equal. f_equal. cbn [String.length]. lia.
Qed.

Lemma run_Group (i : nat) (r : Regex.Re) (st : Regex.MState) (k : Regex.Cont) :
  Regex.run (Regex.Group i r) st k
  = Regex.run r st (fun st' =>
      k (Regex.mkMState (Regex.pos st') (Regex.rest st')
           ((i, string_of_list_ascii (take (Regex.pos st' - Regex.pos st) (Regex.rest st)))
            :: Regex.caps st'))).
Proof. reflexivity. Qed.

Lemma run_Alt (a b : Regex.Re) (st : Regex.MState) (k : Regex.Cont) :
  Regex.run (Regex.Alt a b) st k = Regex.orElse (Regex.run a st k) (Regex.run b st k).
Proof. reflexivity. Qed.

(** The group of the formula type, for the five types in capitals. *)
Lemma formula_type_group (T : string) (l : list ascii) (pos : nat)
    (caps : list (nat * string)) (k : Regex.Cont) (res : Regex.MState) :
  In T FORMULA_TYPES ->
  k (Regex.mkMState (pos + String.length T) l ((1%nat, T) :: caps)) = Some res ->
  Regex.run
    (Regex.Group 1
       (Regex.alt [Regex.lit_i "SUM"; Regex.lit_i "AVERAGE"; Regex.lit_i "COUNT";
                   Regex.lit_i "MIN"; Regex.lit_i "MAX"]))
    (Regex.mkMState pos (list_ascii_of_string T ++ l)%list caps) k = Some res.
Proof.
  intros HT Hk. rewrite run_Group. cbn [Regex.alt Regex.pos Regex.rest].
  set (k' := fun st' : Regex.MState => k _).
  assert (Hhit : Regex.run (Regex.lit_i T)
                   (Regex.mkMState pos (list_ascii_of_string T ++ l)%list caps) k'
                 = Some res).
  { rewrite run_lit_i_same. subst k'. cbn [Regex.pos Regex.rest Regex.caps].
    replace (pos + String.length T - pos)%nat
      with (List.length (list_ascii_of_string T)) by (rewrite string_length_list; lia).
    rewrite take_app_length, string_of_list_ascii_of_string. exact Hk. }
  clearbody k'. unfold FORMULA_TYPES in HT. cbn [In] in HT.
  destruct HT as [<-|[<-|[<-|[<-|[<-|[]]]]]];
    repeat first
      [ exact Hhit
      | rewrite run_Alt, Hhit; reflexivity
      | rewrite run_Alt;
        match goal with
        | |- Regex.orElse (Regex.run (Regex.lit_i ?s) ?st k') _ = _ =>
            replace (Regex.run (Regex.lit_i s) st k') with (@None Regex.MState)
              by (vm_compute; reflexivity)
        end; cbn [Regex.orElse] ].
Qed.

Lemma TABLE_formula (tail : string) :
  Regex.exec PLACEHOLDER_REGEX.TABLE ("{{#formula" ++ tail) = None.
Proof.
  unfold PLACEHOLDER_REGEX.TABLE. cbn [Regex.seq]. rewrite exec_anchored.
  unfold Regex.matchHere. rewrite list_of_append.
  rewrite run_Bol, run_Seq, run_lit_other; [reflexivity|].
  cbn [list_ascii_of_string app string_of_list_ascii String.prefix].
  repeat (destruct (ascii_dec _ _); [|reflexivity]). discriminate.
Qed.

Lemma letters_column (t : string) :
  t <> "" -> Js.all_chars Regex.is_letter t = true ->
  Regex.test PLACEHOLDER_REGEX.COLUMN_LETTER t = true.
Proof.
  intros Hne Hletters. unfold Regex.test, PLACEHOLDER_REGEX.COLUMN_LETTER.
  cbn [Regex.seq]. rewrite exec_anchored. unfold Regex.matchHere.
  rewrite run_Bol, run_Seq, <- (app_nil_r (list_ascii_of_string t)).
  unfold Regex.letter.
  rewrite (plus_class _ _ _ _ _ _
             (Regex.mkMState (0 + List.length (list_ascii_of_string t)) [] [])).
  - reflexivity.
  - exact I.
  - apply all_chars_Forall, Hletters.
  - apply list_of_nonempty, Hne.
  - reflexivity.
Qed.

Lemma lastIndexOf_without (c : ascii) (s : string) :
  without c s = true -> forall i found, Str.lastIndexOf_from i found c s = found.
Proof.
  induction s as [|d s IH]; intros Hs i found; [reflexivity|].
  cbn in Hs. apply andb_prop in Hs as [Hd Hs]. apply negb_true_iff in Hd.
  cbn [Str.lastIndexOf_from]. rewrite Ascii.eqb_sym, Hd. apply IH, Hs.
Qed.

Lemma letter_is_word (c : ascii) : Regex.is_letter c = true -> Regex.is_word c = true.
Proof. intros Hc. unfold Regex.is_word. rewrite Hc. reflexivity. Qed.

Lemma letter_not_space (c : ascii) : Regex.is_letter c = true -> Str.is_space c = false.
Proof.
  destruct c as [[] [] [] [] [] [] [] []]; intros Hc; try discriminate Hc; reflexivity.
Qed.

Lemma letter_not_dot (c : ascii) :
  Regex.is_letter c = true -> negb (Ascii.eqb c ".") = true.
Proof.
  destruct c as [[] [] [] [] [] [] [] []]; intros Hc; try discriminate Hc; reflexivity.
Qed.

Lemma FORMULA_letters (T ws1 ws2 t : string) :
  In T FORMULA_TYPES ->
  ws1 <> "" -> Js.all_chars Str.is_space ws1 = true ->
  ws2 <> "" -> Js.all_chars Str.is_space ws2 = true ->
  t <> "" -> Js.all_chars Regex.is_letter t = true ->
  exists m,
    Regex.exec PLACEHOLDER_REGEX.FORMULA ("{{#formula" ++ ws1 ++ T ++ ws2 ++ t ++ "}}")
    = Some m
    /\ Regex.group1 1 m = T /\ Regex.group1 2 m = t.
Proof.
  intros HT Hne1 Hws1 Hne2 Hws2 Hne Hletters.
  unfold PLACEHOLDER_REGEX.FORMULA. cbn [Regex.seq]. rewrite exec_anchored.
  unfold Regex.matchHere. rewrite !list_of_append.
  set (l1 := list_ascii_of_string ws1). set (l2 := list_ascii_of_string ws2).
  set (lT := list_ascii_of_string T).
  destruct t as [|c t]; [congruence|]. cbn [list_ascii_of_string].
  cbn [Js.all_chars] in Hletters. apply andb_prop in Hletters as [Hc Hletters].
  set (lt := list_ascii_of_string t).
  assert (Hrun : exists res,
             Regex.run
               (Regex.Seq Regex.Bol
                  (Regex.Seq (Regex.lit_i "{{#formula")
                     (Regex.Seq (Regex.plus Regex.space)
                        (Regex.Seq
                           (Regex.Group 1
                              (Regex.alt [Regex.lit_i "SUM"; Regex.lit_i "AVERAGE";
                                          Regex.lit_i "COUNT"; Regex.lit_i "MIN";
                                          Regex.lit_i "MAX"]))
                           (Regex.Seq (Regex.plus Regex.space)
                              (Regex.Seq
                                 (Regex.Group 2
                                    (Regex.Seq
                                       (Regex.Chr (fun c0 => Regex.is_letter c0
                                                             || Ascii.eqb c0 "_"))
                                       (Regex.star
                                          (Regex.Chr (fun c0 => Regex.is_word c0
                                                                || Ascii.eqb c0 ".")))))
                                 (Regex.Seq (Regex.lit "}}") Regex.Eol)))))))
               (Regex.mkMState 0
                  (list_ascii_of_string "{{#formula" ++ l1 ++ lT ++ l2 ++ (c :: lt)
                   ++ list_ascii_of_string "}}") []) Some = Some res
             /\ Regex.caps res = [(2%nat, String c t); (1%nat, T)]).
  { eexists. split.
    2: shelve.
    rewrite run_Bol, run_Seq, run_lit_i_same, run_Seq. unfold Regex.space at 1.
    apply plus_class.
    - unfold FORMULA_TYPES in HT. cbn [In] in HT. subst lT.
      destruct HT as [<-|[<-|[<-|[<-|[<-|[]]]]]]; reflexivity.
    - apply all_chars_Forall, Hws1.
    - apply list_of_nonempty, Hne1.
    - unfold advanced. rewrite run_Seq. apply (formula_type_group T _ _ _ _ _ HT).
      rewrite run_Seq. unfold Regex.space.
      apply plus_class.
      + cbn [app]. apply letter_not_space, Hc.
      + apply all_chars_Forall, Hws2.
      + apply list_of_nonempty, Hne2.
      + unfold advanced. rewrite run_Seq, run_Group. cbn [app].
        rewrite run_Chr_hit by (rewrite Hc; reflexivity).
        apply star_class.
        * reflexivity.
        * apply all_chars_Forall in Hletters. eapply Forall_impl; [exact Hletters|].
          cbv beta. intros d Hd. rewrite (letter_is_word d Hd). reflexivity.
        * unfold advanced. cbn [Regex.pos Regex.rest Regex.caps].
          rewrite <- (app_nil_r (list_ascii_of_string "}}")), run_Seq, run_lit.
          cbn [Regex.run Regex.rest].
          match goal with
          | |- context [take ?n _] =>
              replace n with (List.length (c :: lt)) by (cbn [List.length]; lia)
          end.
          change (c :: lt ++ list_ascii_of_string "}}" ++ [])%list
            with ((c :: lt) ++ list_ascii_of_string "}}" ++ [])%list.
          rewrite take_app_length. subst lt. cbn [string_of_list_ascii].
          rewrite string_of_list_ascii_of_string. reflexivity.
    Unshelve. reflexivity. }
  destruct Hrun as (res & Hrun & Hcaps).
  cbn [app list_ascii_of_string] in Hrun |- *.
  rewrite Hrun. eexists. split; [reflexivity|].
  unfold Regex.group1. cbn [Regex.groups]. rewrite Hcaps. split; reflexivity.
Qed.

Lemma detectPlaceholder_letters (cellText T ws1 ws2 t : string) :
  Str.trim cellText = "{{#formula" ++ ws1 ++ T ++ ws2 ++ t ++ "}}" ->
  In T FORMULA_TYPES ->
  ws1 <> "" -> Js.all_chars Str.is_space ws1 = true ->
  ws2 <> "" -> Js.all_chars Str.is_space ws2 = true ->
  t <> "" -> Js.all_chars Regex.is_letter t = true ->
  detectPlaceholder (VStr cellText)
  = Some (if (String.length t <=? 3)%nat
          then mkPlaceholder formula "" None (Some T) (Some (Str.toUpperCase t)) None None
          else mkPlaceholder formula t None (Some T) None (Some "") (Some t)).
Proof.
  intros Htrim HT Hne1 Hws1 Hne2 Hws2 Hne Hletters.
  unfold detectPlaceholder. rewrite Htrim, TABLE_formula.
  destruct (FORMULA_letters T ws1 ws2 t HT Hne1 Hws1 Hne2 Hws2 Hne Hletters)
    as (m & -> & -> & ->).
  rewrite (letters_column t Hne Hletters). cbn [andb].
  assert (Hupper : Str.toUpperCase T = T).
  { unfold FORMULA_TYPES in HT. cbn [In] in HT.
    destruct HT as [<-|[<-|[<-|[<-|[<-|[]]]]]]; reflexivity. }
  rewrite Hupper. destruct (String.length t <=? 3)%nat; [reflexivity|].
  unfold Str.lastIndexOf. rewrite lastIndexOf_without; [reflexivity|].
  unfold without. eapply all_chars_impl; [|exact Hletters]. apply letter_not_dot.
Qed.

(** X30.  In [{{#formula T t}}], with [T] one of the five formula
    types in capitals and [t] made of letters only, [t] is read as a
    column when it has at most three letters and as a field name
    otherwise: a field called [qty] is taken for the column QTY.  With
    a table above, the final pass then writes the formula over that
    column. *)
Theorem detectPlaceholder_formula_letters :
  forall (host : Host) (cellText T ws1 ws2 t : string) (data : JsValue)
         (options : RenderOptions) (tableInfoMap : gmap string TableRenderInfo)
         (ti : TableRenderInfo),
    Str.trim cellText = "{{#formula" ++ ws1 ++ T ++ ws2 ++ t ++ "}}" ->
    In T FORMULA_TYPES ->
    ws1 <> "" -> Js.all_chars Str.is_space ws1 = true ->
    ws2 <> "" -> Js.all_chars Str.is_space ws2 = true ->
    t <> "" -> Js.all_chars Regex.is_letter t = true ->
    detectPlaceholder (VStr cellText)
    = Some (if (String.length t <=? 3)%nat
            then mkPlaceholder formula "" None (Some T) (Some (Str.toUpperCase t)) None None
            else mkPlaceholder formula t None (Some T) None (Some "") (Some t))
    /\ ((String.length t <= 3)%nat -> 0 < startRow ti -> 0 < endRow ti ->
        substituteCell data options tableInfoMap (Some ti) (VStr cellText)
        = Ok (formulaObject
                (T ++ "(" ++ Str.toUpperCase t ++ Str.ofZ (startRow ti) ++ ":"
                 ++ Str.toUpperCase t ++ Str.ofZ (endRow ti) ++ ")"))).
Proof.
  intros host cellText T ws1 ws2 t data options tableInfoMap ti
         Htrim HT Hne1 Hws1 Hne2 Hws2 Hne Hletters.
  pose proof (detectPlaceholder_letters cellText T ws1 ws2 t
                Htrim HT Hne1 Hws1 Hne2 Hws2 Hne Hletters) as Hdetect.
  split; [exact Hdetect|]. intros Hlen Hstart Hend.
  apply Nat.leb_le in Hlen. rewrite Hlen in Hdetect.
  unfold substituteCell. rewrite Hdetect.
  cbn [type formulaType column fieldName arrayPath].
  assert (HT' : Js.nonEmpty T = true).
  { unfold FORMULA_TYPES in HT. cbn [In] in HT.
    destruct HT as [<-|[<-|[<-|[<-|[<-|[]]]]]]; reflexivity. }
  assert (Hcol : Js.nonEmpty (Str.toUpperCase t) = true)
    by (destruct t; [congruence|reflexivity]).
  cbn [Js.truthyStr]. rewrite HT'.
  rewrite selectTableInfo_last by (left; exact Hcol).
  unfold renderFormula. cbn [default Js.truthyStr].
  rewrite (proj2 (Z.ltb_lt _ _) Hstart), (proj2 (Z.ltb_lt _ _) Hend), Hcol.
  cbn [andb negb]. reflexivity.
Qed.


Lemma detectPlaceholder_formula_letters_witness :
  detectPlaceholder (VStr "{{#formula SUM qty}}")
  = Some (mkPlaceholder formula "" None (Some "SUM") (Some "QTY") None None)
  /\ @substituteCell utcHost (VObj []) noOptions ∅
       (Some (mkTableRenderInfo 2 5 "items" {["qty" := "B"]}))
       (VStr "{{#formula SUM qty}}")
     = Ok (formulaObject "SUM(QTY2:QTY5)").
Proof.
  assert (Htype : In "SUM" FORMULA_TYPES) by (left; reflexivity).
  destruct (detectPlaceholder_formula_letters utcHost "{{#formula SUM qty}}" "SUM" " " " "
              "qty" (VObj []) noOptions ∅
              (mkTableRenderInfo 2 5 "items" {["qty" := "B"]})
              eq_refl Htype ltac:(discriminate) eq_refl ltac:(discriminate) eq_refl
              ltac:(discriminate) eq_refl)
    as [Hdetect Hcell].
  split.
  - rewrite Hdetect. reflexivity.
  - rewrite Hcell; [reflexivity|cbn; lia|reflexivity|reflexivity].
Defined.
